(** * Embed API: URL classification, metadata extraction and the embed service

    A shallow embedding of the metadata-extraction pipeline of the embed API
    ([embed-api/src/services/url-parser.ts], [metadata.ts],
    [parsers/youtube.ts], [parsers/generic.ts], [embed-service.ts]) and of
    the routes in front of it ([routes/extract.ts], [routes/oembed.ts],
    [routes/render.ts]), and the properties of it that the specification
    states.

    JavaScript strings are modelled as [string]: sequences of code units
    below 256.  Values that the code takes over without a check, such as
    the answer of the oEmbed endpoint and what is copied from it, are
    modelled as [JSValue.t]: what a JSON text parses to.  The platform
    pieces the services are written against are modelled next to them:
    regular expressions by a backtracking matcher that follows the
    ECMAScript pattern semantics, the WHATWG URL record, its serializer
    and the form-urlencoded codec by definitions, the URL parser, the HTTP
    client and the HTML loader by the fields of classes. *)

From Stdlib Require Import Strings.String Strings.Ascii Lists.List Bool.Bool.
From Stdlib Require Import Arith.Arith Arith.PeanoNat ZArith.ZArith Lia.
From Stdlib Require Import DecimalString.
Import ListNotations.

Open Scope string_scope.
Open Scope nat_scope.

(* ------------------------------------------------------------------ *)
(** ** JavaScript string primitives *)

Module JSString.

Definition code (c : ascii) : nat := nat_of_ascii c.

Definition between (lo hi : nat) (c : ascii) : bool :=
  (lo <=? code c) && (code c <=? hi).

(** [s.startsWith(p)] *)
Fixpoint startsWith (s p : string) {struct p} : bool :=
  match p with
  | EmptyString => true
  | String a p' =>
      match s with
      | String b s' => Ascii.eqb a b && startsWith s' p'
      | EmptyString => false
      end
  end.

(** A string is truthy when it is not empty. *)
Definition truthy (s : string) : bool :=
  match s with EmptyString => false | String _ _ => true end.

(** The truth value of a string that may be undefined. *)
Definition truthy_opt (o : option string) : bool :=
  match o with Some s => truthy s | None => false end.

(** White space and line terminators, as [trim] and [\s] see them
    (tab, LF, VT, FF, CR, space, NBSP). *)
Definition is_space (c : ascii) : bool :=
  between 9 13 c || (code c =? 32) || (code c =? 160).

Fixpoint trimStart (s : string) : string :=
  match s with
  | String c t => if is_space c then trimStart t else s
  | EmptyString => EmptyString
  end.

Fixpoint trimEnd (s : string) : string :=
  match s with
  | String c t =>
      match trimEnd t with
      | EmptyString => if is_space c then EmptyString else String c EmptyString
      | t' => String c t'
      end
  | EmptyString => EmptyString
  end.

(** [s.trim()] *)
Definition trim (s : string) : string := trimEnd (trimStart s).

Definition lower_char (c : ascii) : ascii :=
  if between 65 90 c || between 192 214 c || between 216 222 c
  then ascii_of_nat (code c + 32) else c.

Definition upper_char (c : ascii) : ascii :=
  if between 97 122 c || between 224 246 c || between 248 254 c
  then ascii_of_nat (code c - 32) else c.

(** [s.toLowerCase()] *)
Fixpoint toLowerCase (s : string) : string :=
  match s with
  | String c t => String (lower_char c) (toLowerCase t)
  | EmptyString => EmptyString
  end.

(** [s.slice(n)] *)
Fixpoint drop (n : nat) (s : string) : string :=
  match n, s with
  | S n', String _ t => drop n' t
  | _, _ => s
  end.

(** Every code unit of [s] passes [p]. *)
Fixpoint all_chars (p : ascii -> bool) (s : string) : bool :=
  match s with
  | EmptyString => true
  | String c t => p c && all_chars p t
  end.

(** [s.replace(pat, rep)] with a string pattern: the first occurrence. *)
Fixpoint replace (pat rep s : string) : string :=
  if startsWith s pat
  then rep ++ drop (String.length pat) s
  else match s with
       | String c t => String c (replace pat rep t)
       | EmptyString => EmptyString
       end.

(** [s.includes(p)] *)
Fixpoint includes (s p : string) : bool :=
  startsWith s p ||
  match s with
  | String _ t => includes t p
  | EmptyString => false
  end.

End JSString.

(* ------------------------------------------------------------------ *)
(** ** Regular expressions

  The fragment of ECMAScript patterns that [PLATFORM_PATTERNS] uses:
  literals, [.], character classes with ranges, [\s] and [\d], [^],
  sequence, alternation, greedy quantifiers and capturing groups; the
  [i] flag.  The matcher is the backtracking matcher of the language
  definition, written with continuations. *)

Module RegExp.
Import JSString.

Inductive citem : Type :=
| CChar (c : ascii)
| CRange (lo hi : ascii)
| CSpace
| CDigit.

Inductive cset : Type :=
| CLit (c : ascii)
| CDot
| CClass (negated : bool) (items : list citem).

Inductive regex : Type :=
| Empty
| Chr (cs : cset)
| Bol
| Seq (a b : regex)
| Alt (a b : regex)
| Group (n : nat) (a : regex)
| Rep (a : regex) (min : nat) (max : option nat).

Record t : Type := mk { source : regex; ignoreCase : bool }.

(** Canonicalize of the language definition, up to the equality it is
    used for: two code units below 256 have the same canonical form iff
    their [canon] is the same. *)
Definition canon (ic : bool) (c : ascii) : ascii :=
  if ic then upper_char c else c.

Definition item_has (it : citem) (a : ascii) : bool :=
  match it with
  | CChar c => Ascii.eqb a c
  | CRange lo hi => between (code lo) (code hi) a
  | CSpace => is_space a
  | CDigit => between 48 57 a
  end.

(** Some member of the item has the canonical form of [ch]. *)
Definition item_match (ic : bool) (it : citem) (ch : ascii) : bool :=
  if ic
  then item_has it ch || item_has it (upper_char ch) || item_has it (lower_char ch)
  else item_has it ch.

Definition line_terminator (c : ascii) : bool :=
  (code c =? 10) || (code c =? 13).

Definition cset_match (ic : bool) (cs : cset) (ch : ascii) : bool :=
  match cs with
  | CLit c => Ascii.eqb (canon ic c) (canon ic ch)
  | CDot => negb (line_terminator ch)
  | CClass neg items => xorb neg (existsb (fun it => item_match ic it ch) items)
  end.

(** The matcher state: the end index, the input after it, the captures. *)
Record mstate : Type := mkst {
  endIndex : nat;
  rest : list ascii;
  caps : list (nat * string)
}.

Definition get_cap (n : nat) (cs : list (nat * string)) : option string :=
  match find (fun p => fst p =? n) cs with
  | Some p => Some (snd p)
  | None => None
  end.

Definition set_cap (n : nat) (v : string) (y : mstate) : mstate :=
  mkst (endIndex y) (rest y) ((n, v) :: caps y).

Fixpoint groups (r : regex) : list nat :=
  match r with
  | Empty | Chr _ | Bol => []
  | Seq a b | Alt a b => groups a ++ groups b
  | Group n a => n :: groups a
  | Rep a _ _ => groups a
  end.

(** The captures of the groups of a quantified atom are undefined again
    when an iteration starts. *)
Definition reset_caps (gs : list nat) (x : mstate) : mstate :=
  mkst (endIndex x) (rest x)
       (filter (fun p => negb (existsb (Nat.eqb (fst p)) gs)) (caps x)).

(** The input between the end indices of [x] and [y]. *)
Definition slice (x y : mstate) : string :=
  string_of_list_ascii
    (firstn (List.length (rest x) - List.length (rest y)) (rest x)).

Definition dec_max (max : option nat) : option nat := option_map pred max.

Definition max_is_zero (max : option nat) : bool :=
  match max with Some 0 => true | _ => false end.

Definition matcher : Type := mstate -> (mstate -> option mstate) -> option mstate.

(** RepeatMatcher for a greedy quantifier: [m] matches the atom, [gs] are
    its groups.  [fuel] bounds the number of iterations; an iteration
    lowers [min] or moves the end index. *)
Fixpoint repeat (m : matcher) (gs : list nat) (fuel min : nat)
  (max : option nat) (x : mstate) (k : mstate -> option mstate)
  {struct fuel} : option mstate :=
  match fuel with
  | O => None
  | S fuel' =>
      if max_is_zero max then k x
      else
        let d := fun y =>
          if (min =? 0) && (endIndex y =? endIndex x) then None
          else repeat m gs fuel' (pred min) (dec_max max) y k in
        let xr := reset_caps gs x in
        if min =? 0
        then match m xr d with
             | Some z => Some z
             | None => k x
             end
        else m xr d
  end.

Section Run.
Variable ic : bool.

Fixpoint run (r : regex) (x : mstate) (k : mstate -> option mstate)
  {struct r} : option mstate :=
  match r with
  | Empty => k x
  | Chr cs =>
      match rest x with
      | ch :: tl =>
          if cset_match ic cs ch
          then k (mkst (S (endIndex x)) tl (caps x))
          else None
      | [] => None
      end
  | Bol => if endIndex x =? 0 then k x else None
  | Seq a b => run a x (fun y => run b y k)
  | Alt a b =>
      match run a x k with
      | Some z => Some z
      | None => run b x k
      end
  | Group n a => run a x (fun y => k (set_cap n (slice x y) y))
  | Rep a min max =>
      repeat (run a) (groups a) (S (min + List.length (rest x))) min max x k
  end.
End Run.

(** What [exec] returns for a match: the index, the matched text [m[0]]
    and the captures [m[n]]. *)
Record result : Type := mkres {
  index : nat;
  matched : string;
  captures : list (nat * string)
}.

(** [m[n]] for [n >= 1] *)
Definition group (n : nat) (m : result) : option string :=
  get_cap n (captures m).

(** The search of [exec] for a pattern that is neither global nor
    sticky: the first index from which the pattern matches. *)
Fixpoint exec_from (re : t) (i : nat) (s : list ascii) : option result :=
  let x := mkst i s [] in
  match run (ignoreCase re) (source re) x (fun y => Some y) with
  | Some y => Some (mkres i (slice x y) (caps y))
  | None =>
      match s with
      | [] => None
      | _ :: tl => exec_from re (S i) tl
      end
  end.

(** [re.exec(s)], which is [s.match(re)] here *)
Definition exec (re : t) (s : string) : option result :=
  exec_from re 0 (list_ascii_of_string s).

(** [re.test(s)] *)
Definition test (re : t) (s : string) : bool :=
  match exec re s with Some _ => true | None => false end.

(** *** Writing patterns *)

Fixpoint lit_list (l : list ascii) : regex :=
  match l with
  | [] => Empty
  | [c] => Chr (CLit c)
  | c :: tl => Seq (Chr (CLit c)) (lit_list tl)
  end.

Definition lit (s : string) : regex := lit_list (list_ascii_of_string s).
Definition opt (a : regex) : regex := Rep a 0 (Some 1).
Definition star (a : regex) : regex := Rep a 0 None.
Definition plus (a : regex) : regex := Rep a 1 None.
Definition times (n : nat) (a : regex) : regex := Rep a n (Some n).
Definition class (items : list citem) : regex := Chr (CClass false items).
Definition nclass (items : list citem) : regex := Chr (CClass true items).
Definition dot : regex := Chr CDot.

Fixpoint seq (l : list regex) : regex :=
  match l with
  | [] => Empty
  | [a] => a
  | a :: tl => Seq a (seq tl)
  end.

End RegExp.


(* ------------------------------------------------------------------ *)
(** ** types.ts *)

Inductive Platform : Type :=
| youtube | instagram | tiktok | linkedin | twitter | generic.

Definition Platform_eqb (p q : Platform) : bool :=
  match p, q with
  | youtube, youtube | instagram, instagram | tiktok, tiktok
  | linkedin, linkedin | twitter, twitter | generic, generic => true
  | _, _ => false
  end.

Module EmbedType.
Inductive t : Type :=
| video | image | article | audio | link.
End EmbedType.

(** Numbers: the integers and NaN, which is all that [parseInt] and the
    dimension defaults produce.  An integer stands for itself: that the
    platform rounds an integer beyond 2^53 to the nearest number it has is
    not modelled. *)
Inductive JSNumber : Type :=
| JSInt (z : Z)
| JSNaN.

Definition number_truthy (n : JSNumber) : bool :=
  match n with JSInt z => negb (Z.eqb z 0) | JSNaN => false end.

(** [a || b] where the operands may be undefined *)
Definition string_or (a b : option string) : option string :=
  if JSString.truthy_opt a then a else b.

(** The truth value of a number that may be undefined. *)
Definition number_truthy_opt (o : option JSNumber) : bool :=
  match o with Some n => number_truthy n | None => false end.

(** [String(n)], for the integers that are written without an exponent
    (those below 10^21 in size). *)
Definition number_text (n : JSNumber) : string :=
  match n with
  | JSInt z => NilZero.string_of_int (Z.to_int z)
  | JSNaN => "NaN"
  end.

(** ** Values

    The type annotations of types.ts are gone at run time: a property
    that is declared a string or a number holds whatever was assigned to
    it.  The answer of the oEmbed endpoint is [any], and the YouTube
    parser copies properties of it into the record unchecked, so the
    properties of a record that can come from there are values here:
    what a JSON text parses to.  A property that is missing, or
    [undefined], is [None]. *)

Module JSValue.

(** [Fraction text] is a number that is not written as an integer: a
    fraction, a number with an exponent or an infinity, given by the
    text that [String(n)] makes of it. *)
#[warnings="-register-all"]
Inductive t : Type :=
| Null
| Boolean (b : bool)
| Num (n : JSNumber)
| Fraction (text : string)
| Str (s : string)
| Arr (items : list t)
| Obj (members : list (string * t)).

(** [!!v] *)
Definition truthy (v : t) : bool :=
  match v with
  | Null => false
  | Boolean b => b
  | Num n => number_truthy n
  | Fraction _ => true
  | Str s => JSString.truthy s
  | Arr _ | Obj _ => true
  end.

Definition truthy_opt (o : option t) : bool :=
  match o with Some v => truthy v | None => false end.

(** [a || b] *)
Definition or (a b : option t) : option t :=
  if truthy_opt a then a else b.

(** A string, or nothing, as a value. *)
Definition of_string (o : option string) : option t := option_map Str o.

(** A number, or nothing, as a value. *)
Definition of_number (o : option JSNumber) : option t := option_map Num o.

(** [v.name], for a value [v] that is not [null] and a name that no
    prototype defines: the own property of an object, [undefined] for
    everything else. *)
Definition get (name : string) (v : t) : option t :=
  match v with
  | Obj members =>
      option_map snd (find (fun p => String.eqb (fst p) name) members)
  | _ => None
  end.

(** An object with a property [toString] of its own: the property is no
    function, since it comes from a JSON text, and hides
    [Object.prototype.toString]. *)
Definition hides_toString (members : list (string * t)) : bool :=
  existsb (fun p => String.eqb (fst p) "toString") members.

(** The conversion to a string that a template literal applies to a
    value; [None] when it throws a [TypeError].  An array is joined with
    commas, [null] elements giving the empty string; an object is
    [[object Object]], unless it hides [toString]: then no method gives a
    primitive value and the conversion throws. *)
Fixpoint toText (v : t) : option string :=
  match v with
  | Null => Some "null"
  | Boolean b => Some (if b then "true" else "false")
  | Num n => Some (number_text n)
  | Fraction text => Some text
  | Str s => Some s
  | Arr items =>
      (fix join (l : list t) : option string :=
         match l with
         | [] => Some ""
         | x :: tl =>
             match (match x with Null => Some "" | _ => toText x end), join tl with
             | Some a, Some b => Some (match tl with [] => a | _ :: _ => a ++ "," ++ b end)
             | _, _ => None
             end
         end) items
  | Obj members =>
      if hides_toString members then None else Some "[object Object]"
  end.

(** [${v}] inside a template literal, for a value that may be
    [undefined]. *)
Definition interpolate (v : option t) : option string :=
  match v with Some x => toText x | None => Some "undefined" end.

End JSValue.

Module Author.
Record t : Type := mk {
  name : option JSValue.t;
  url : option JSValue.t;
  avatar : option string
}.
End Author.

Module Provider.
Record t : Type := mk {
  name : string;
  url : string
}.
End Provider.

(** [embedData] as the YouTube parser fills it. *)
Module EmbedData.
Record t : Type := mk {
  videoId : string;
  embedUrl : string
}.
End EmbedData.

(** [EmbedMetadata] and [Partial<EmbedMetadata>]: at run time every
    property may be missing. *)
Module EmbedMetadata.
Record t : Type := mk {
  title : option JSValue.t;
  description : option string;
  image : option JSValue.t;
  type : option EmbedType.t;
  platform : option Platform;
  url : option string;
  embedData : option EmbedData.t;
  width : option JSValue.t;
  height : option JSValue.t;
  duration : option JSNumber;
  author : option Author.t;
  provider : option Provider.t
}.

Definition empty : t :=
  mk None None None None None None None None None None None None.

Definition set_title (v : option JSValue.t) (m : t) : t :=
  mk v (description m) (image m) (type m) (platform m) (url m) (embedData m)
     (width m) (height m) (duration m) (author m) (provider m).
Definition set_description (v : option string) (m : t) : t :=
  mk (title m) v (image m) (type m) (platform m) (url m) (embedData m)
     (width m) (height m) (duration m) (author m) (provider m).
Definition set_image (v : option JSValue.t) (m : t) : t :=
  mk (title m) (description m) v (type m) (platform m) (url m) (embedData m)
     (width m) (height m) (duration m) (author m) (provider m).
Definition set_type (v : option EmbedType.t) (m : t) : t :=
  mk (title m) (description m) (image m) v (platform m) (url m) (embedData m)
     (width m) (height m) (duration m) (author m) (provider m).
Definition set_platform (v : option Platform) (m : t) : t :=
  mk (title m) (description m) (image m) (type m) v (url m) (embedData m)
     (width m) (height m) (duration m) (author m) (provider m).
Definition set_url (v : option string) (m : t) : t :=
  mk (title m) (description m) (image m) (type m) (platform m) v (embedData m)
     (width m) (height m) (duration m) (author m) (provider m).
Definition set_width (v : option JSValue.t) (m : t) : t :=
  mk (title m) (description m) (image m) (type m) (platform m) (url m) (embedData m)
     v (height m) (duration m) (author m) (provider m).
Definition set_height (v : option JSValue.t) (m : t) : t :=
  mk (title m) (description m) (image m) (type m) (platform m) (url m) (embedData m)
     (width m) v (duration m) (author m) (provider m).
Definition set_author (v : option Author.t) (m : t) : t :=
  mk (title m) (description m) (image m) (type m) (platform m) (url m) (embedData m)
     (width m) (height m) (duration m) v (provider m).
Definition set_provider (v : option Provider.t) (m : t) : t :=
  mk (title m) (description m) (image m) (type m) (platform m) (url m) (embedData m)
     (width m) (height m) (duration m) (author m) v.
End EmbedMetadata.

Module OEmbedType.
Inductive t : Type := rich | video | photo | link.
End OEmbedType.

Module OEmbedResponse.
Record t : Type := mk {
  type : OEmbedType.t;
  version : string;
  html : option string;
  width : option JSValue.t;
  height : option JSValue.t;
  title : option JSValue.t;
  author_name : option JSValue.t;
  author_url : option JSValue.t;
  provider_name : option string;
  provider_url : option string;
  cache_age : option JSNumber;
  thumbnail_url : option JSValue.t;
  thumbnail_width : option JSValue.t;
  thumbnail_height : option JSValue.t
}.
End OEmbedResponse.

Module OEmbedOptions.
Record t : Type := mk {
  maxwidth : option JSNumber;
  maxheight : option JSNumber
}.
Definition default : t := mk None None.
End OEmbedOptions.

Inductive Theme : Type := light | dark.

Module RenderOptions.
Record t : Type := mk {
  width : option JSNumber;
  height : option JSNumber;
  autoplay : option bool;
  controls : option bool;
  theme : option Theme
}.
Definition default : t := mk None None None None None.
End RenderOptions.

(* ------------------------------------------------------------------ *)
(** ** The URL record of the platform

    [new URL(s)] yields a URL record; the services read [protocol],
    [hostname] and [origin] from it, edit its query through
    [searchParams] and serialize it with [toString].  The record, the
    serializer and the form-urlencoded codec behind [searchParams] are
    defined here after the URL Standard; the parser is a variable of the
    runtime further down.  Components are kept in their serialized form.
    The names and values of [searchParams] are kept as UTF-8 bytes. *)

Module URL.
Import JSString.

Record t : Type := mk {
  scheme : string;
  username : string;
  password : string;
  host : option string;
  port : option string;
  path : string;
  query : option string;
  fragment : option string
}.

Definition with_query (q : option string) (r : t) : t :=
  mk (scheme r) (username r) (password r) (host r) (port r) (path r) q (fragment r).

Definition opt_prefixed (pre : string) (o : option string) : string :=
  match o with Some s => pre ++ s | None => "" end.

Definition credentials (r : t) : string :=
  if truthy (username r) || truthy (password r)
  then username r ++ (if truthy (password r) then ":" ++ password r else "") ++ "@"
  else "".

(** The URL serializer: [url.toString()], [url.href]. *)
Definition toString (r : t) : string :=
  scheme r ++ ":" ++
  match host r with
  | Some h => "//" ++ credentials r ++ h ++ opt_prefixed ":" (port r)
  | None => if startsWith (path r) "//" then "/." else ""
  end ++
  path r ++ opt_prefixed "?" (query r) ++ opt_prefixed "#" (fragment r).

(** [url.protocol] *)
Definition protocol (r : t) : string := scheme r ++ ":".

(** [url.hostname] *)
Definition hostname (r : t) : string :=
  match host r with Some h => h | None => "" end.

(** *** application/x-www-form-urlencoded *)

Definition hex_digit (n : nat) : ascii :=
  if n <? 10 then ascii_of_nat (48 + n) else ascii_of_nat (55 + n).

Definition hex_value (c : ascii) : option nat :=
  if between 48 57 c then Some (code c - 48)
  else if between 65 70 c then Some (code c - 55)
  else if between 97 102 c then Some (code c - 87)
  else None.

Definition percent_encode_byte (b : ascii) : string :=
  String "%" (String (hex_digit (code b / 16)) (String (hex_digit (code b mod 16)) "")).

(** Percent-decoding of a byte sequence. *)
Fixpoint percent_decode (s : string) : string :=
  match s with
  | EmptyString => EmptyString
  | String c t =>
      if Ascii.eqb c "%"
      then match t with
           | String h (String l t') =>
               match hex_value h, hex_value l with
               | Some a, Some b => String (ascii_of_nat (16 * a + b)) (percent_decode t')
               | _, _ => String c (percent_decode t)
               end
           | _ => String c (percent_decode t)
           end
      else String c (percent_decode t)
  end.

Definition is_alnum (c : ascii) : bool :=
  between 48 57 c || between 65 90 c || between 97 122 c.

(** The bytes the form-urlencoded serializer leaves as they are. *)
Definition form_safe (c : ascii) : bool :=
  is_alnum c || (code c =? 42) || (code c =? 45) || (code c =? 46) || (code c =? 95).

Definition form_encode_byte (b : ascii) : string :=
  if code b =? 32 then "+"
  else if form_safe b then String b ""
  else percent_encode_byte b.

Fixpoint form_encode (s : string) : string :=
  match s with
  | EmptyString => EmptyString
  | String b t => form_encode_byte b ++ form_encode t
  end.

Fixpoint plus_to_space (s : string) : string :=
  match s with
  | EmptyString => EmptyString
  | String c t => String (if Ascii.eqb c "+" then " "%char else c) (plus_to_space t)
  end.

(** *** UTF-8 decode without BOM, followed by UTF-8 encode: well-formed
    sequences stay, every error becomes U+FFFD. *)

Definition replacement : string :=
  String (ascii_of_nat 239) (String (ascii_of_nat 191) (String (ascii_of_nat 189) "")).

(** For a lead byte: the number of bytes that follow, and the bounds of
    the first of them. *)
Definition utf8_lead (b : ascii) : option (nat * (nat * nat)) :=
  let n := code b in
  if (194 <=? n) && (n <=? 223) then Some (1, (128, 191))
  else if n =? 224 then Some (2, (160, 191))
  else if n =? 237 then Some (2, (128, 159))
  else if (225 <=? n) && (n <=? 239) then Some (2, (128, 191))
  else if n =? 240 then Some (3, (144, 191))
  else if n =? 244 then Some (3, (128, 143))
  else if (241 <=? n) && (n <=? 243) then Some (3, (128, 191))
  else None.

Definition cont (c : ascii) : bool := between 128 191 c.

Fixpoint utf8_scrub (s : string) : string :=
  match s with
  | EmptyString => EmptyString
  | String b t =>
      if code b <? 128 then String b (utf8_scrub t)
      else
        match utf8_lead b with
        | None => replacement ++ utf8_scrub t
        | Some (needed, (lo, hi)) =>
            match t with
            | EmptyString => replacement
            | String c1 t1 =>
                if negb (between lo hi c1) then replacement ++ utf8_scrub t
                else if needed =? 1 then String b (String c1 (utf8_scrub t1))
                else
                  match t1 with
                  | EmptyString => replacement
                  | String c2 t2 =>
                      if negb (cont c2) then replacement ++ utf8_scrub t1
                      else if needed =? 2
                      then String b (String c1 (String c2 (utf8_scrub t2)))
                      else
                        match t2 with
                        | EmptyString => replacement
                        | String c3 t3 =>
                            if negb (cont c3) then replacement ++ utf8_scrub t2
                            else String b (String c1 (String c2 (String c3 (utf8_scrub t3))))
                        end
                  end
            end
        end
  end.

(** [s.split(c)] for a one-character separator *)
Fixpoint split_on (c : ascii) (s : string) : list string :=
  match s with
  | EmptyString => [EmptyString]
  | String a t =>
      if Ascii.eqb a c then EmptyString :: split_on c t
      else match split_on c t with
           | h :: r => String a h :: r
           | [] => [String a EmptyString]
           end
  end.

(** The part before the first [c] and, if there is one, the part after. *)
Fixpoint split_first (c : ascii) (s : string) : string * option string :=
  match s with
  | EmptyString => (EmptyString, None)
  | String a t =>
      if Ascii.eqb a c then (EmptyString, Some t)
      else let (n, v) := split_first c t in (String a n, v)
  end.

Definition form_decode (s : string) : string :=
  utf8_scrub (percent_decode (plus_to_space s)).

Definition parse_pair (sequence : string) : string * string :=
  let (n, v) := split_first "=" sequence in
  (form_decode n, form_decode (match v with Some v => v | None => "" end)).

(** The application/x-www-form-urlencoded parser. *)
Definition form_parse (input : string) : list (string * string) :=
  map parse_pair (filter truthy (split_on "&" input)).

Fixpoint join (sep : string) (l : list string) : string :=
  match l with
  | [] => EmptyString
  | [a] => a
  | a :: tl => a ++ sep ++ join sep tl
  end.

(** The application/x-www-form-urlencoded serializer. *)
Definition form_serialize (l : list (string * string)) : string :=
  join "&" (map (fun p => form_encode (fst p) ++ "=" ++ form_encode (snd p)) l).

(** *** URL objects

    A [URL] object is a URL record with its query object: the list that
    [searchParams] edits. *)

Record obj : Type := mkobj {
  record : t;
  pairs : list (string * string)
}.

(** The list a query object starts with. *)
Definition initial_list (r : t) : list (string * string) :=
  match query r with Some q => form_parse q | None => [] end.

Definition of_record (r : t) : obj := mkobj r (initial_list r).

(** The update steps of a query object: the URL's query becomes the
    serialization of the list, null when that is empty. *)
Definition update (l : list (string * string)) (r : t) : t :=
  let serializedQuery := form_serialize l in
  with_query (if truthy serializedQuery then Some serializedQuery else None) r.

(** [url.searchParams.delete(name)] *)
Definition searchParams_delete (name : string) (o : obj) : obj :=
  let l := filter (fun p => negb (String.eqb (fst p) name)) (pairs o) in
  mkobj (update l (record o)) l.

(** [url.toString()] *)
Definition href (o : obj) : string := toString (record o).

End URL.

(** [new URL(input)] and [new URL(input, base)]: the URL parser of the
    platform; [None] when the constructor throws. *)
Class URLImpl : Type := {
  URL_parse : string -> option string -> option URL.t
}.

(** [new URL(input)] *)
Definition new_URL `{URLImpl} (input : string) : option URL.obj :=
  option_map URL.of_record (URL_parse input None).

(** [new URL(input, base)] *)
Definition new_URL_base `{URLImpl} (input base : string) : option URL.obj :=
  option_map URL.of_record (URL_parse input (Some base)).

(* ------------------------------------------------------------------ *)
(** ** url-parser.ts: the pattern table, platform detection, id extraction *)

Module URLPatterns.
Import RegExp.

Definition ch (s : string) : ascii :=
  match s with String c _ => c | EmptyString => zero end.

(** [(?:https?:\/\/)?] *)
Definition scheme_opt : regex :=
  opt (seq [lit "http"; opt (lit "s"); lit "://"]).

(** [(?:www\.)?] *)
Definition www_opt : regex := opt (lit "www.").

(** [[^\/]] *)
Definition not_slash : regex := nclass [CChar (ch "/")].

(** [[^\x22&?\/\s]], with \x22 for the double quote of the source *)
Definition id_char : regex :=
  nclass [CChar (ascii_of_nat 34); CChar (ch "&"); CChar (ch "?");
          CChar (ch "/"); CSpace].

(** [[A-Za-z0-9_-]] *)
Definition slug_char : regex :=
  class [CRange (ch "A") (ch "Z"); CRange (ch "a") (ch "z");
         CRange (ch "0") (ch "9"); CChar (ch "_"); CChar (ch "-")].

(** [[A-Za-z0-9]] *)
Definition alnum_char : regex :=
  class [CRange (ch "A") (ch "Z"); CRange (ch "a") (ch "z");
         CRange (ch "0") (ch "9")].

(** [\d] *)
Definition digit : regex := class [CDigit].

Definition re_i (r : regex) : RegExp.t := RegExp.mk r true.

(** [/(?:https?:\/\/)?(?:www\.)?(?:youtube\.com\/(?:[^\/]+\/.+\/|(?:v|e(?:mbed)?)\/|.*[?&]v=)|youtu\.be\/)([^\x22&?\/\s]{11})/i] *)
Definition youtube_watch : RegExp.t :=
  re_i (seq [scheme_opt; www_opt;
             Alt (Seq (lit "youtube.com/")
                      (Alt (seq [plus not_slash; lit "/"; plus dot; lit "/"])
                      (Alt (Seq (Alt (lit "v") (Seq (lit "e") (opt (lit "mbed"))))
                                (lit "/"))
                           (seq [star dot; class [CChar (ch "?"); CChar (ch "&")];
                                 lit "v="]))))
                 (lit "youtu.be/");
             Group 1 (times 11 id_char)]).

(** [/(?:https?:\/\/)?(?:www\.)?youtube\.com\/shorts\/([^\x22&?\/\s]{11})/i] *)
Definition youtube_shorts : RegExp.t :=
  re_i (seq [scheme_opt; www_opt; lit "youtube.com/shorts/";
             Group 1 (times 11 id_char)]).

(** [/(?:https?:\/\/)?(?:www\.)?instagram\.com\/(?:p|reel|tv)\/([A-Za-z0-9_-]+)/i] *)
Definition instagram_post : RegExp.t :=
  re_i (seq [scheme_opt; www_opt; lit "instagram.com/";
             Alt (lit "p") (Alt (lit "reel") (lit "tv")); lit "/";
             Group 1 (plus slug_char)]).

(** [/(?:https?:\/\/)?(?:www\.)?tiktok\.com\/@[^\/]+\/video\/(\d+)/i] *)
Definition tiktok_video : RegExp.t :=
  re_i (seq [scheme_opt; www_opt; lit "tiktok.com/@"; plus not_slash;
             lit "/video/"; Group 1 (plus digit)]).

(** [/(?:https?:\/\/)?vm\.tiktok\.com\/([A-Za-z0-9]+)/i] *)
Definition tiktok_short : RegExp.t :=
  re_i (seq [scheme_opt; lit "vm.tiktok.com/"; Group 1 (plus alnum_char)]).

(** [/(?:https?:\/\/)?(?:www\.)?linkedin\.com\/posts\/[^\/]+\/([A-Za-z0-9_-]+)/i] *)
Definition linkedin_post : RegExp.t :=
  re_i (seq [scheme_opt; www_opt; lit "linkedin.com/posts/"; plus not_slash;
             lit "/"; Group 1 (plus slug_char)]).

(** [/(?:https?:\/\/)?(?:www\.)?linkedin\.com\/pulse\/[^\/]+\/([A-Za-z0-9_-]+)/i] *)
Definition linkedin_pulse : RegExp.t :=
  re_i (seq [scheme_opt; www_opt; lit "linkedin.com/pulse/"; plus not_slash;
             lit "/"; Group 1 (plus slug_char)]).

(** [/(?:https?:\/\/)?(?:www\.)?(?:twitter\.com|x\.com)\/[^\/]+\/status\/(\d+)/i] *)
Definition twitter_status : RegExp.t :=
  re_i (seq [scheme_opt; www_opt; Alt (lit "twitter.com") (lit "x.com");
             lit "/"; plus not_slash; lit "/status/"; Group 1 (plus digit)]).

(** [/^https?:\/\/.+/i] *)
Definition generic_http : RegExp.t :=
  re_i (seq [Bol; lit "http"; opt (lit "s"); lit "://"; plus dot]).

End URLPatterns.

Module URLParser.
Import RegExp URLPatterns.

(** [PLATFORM_PATTERNS], in the order [Object.entries] lists it. *)
Definition PLATFORM_PATTERNS : list (Platform * list RegExp.t) :=
  [ (youtube, [youtube_watch; youtube_shorts]);
    (instagram, [instagram_post]);
    (tiktok, [tiktok_video; tiktok_short]);
    (linkedin, [linkedin_post; linkedin_pulse]);
    (twitter, [twitter_status]);
    (generic, [generic_http]) ].

(** [PLATFORM_PATTERNS[p]] *)
Definition patterns_of (p : Platform) : list RegExp.t :=
  match find (fun e => Platform_eqb (fst e) p) PLATFORM_PATTERNS with
  | Some e => snd e
  | None => []
  end.

(** Some pattern of the list passes [pattern.test(url)]. *)
Definition any_test (patterns : list RegExp.t) (url : string) : bool :=
  existsb (fun pattern => test pattern url) patterns.

Fixpoint detect_in (entries : list (Platform * list RegExp.t)) (url : string)
  : Platform :=
  match entries with
  | [] => generic
  | (platform, patterns) :: tl =>
      if Platform_eqb platform generic then detect_in tl url
      else if any_test patterns url then platform
      else detect_in tl url
  end.

Definition detectPlatform (url : string) : Platform :=
  detect_in PLATFORM_PATTERNS url.

(** The loop of the id extractors that try a list of patterns:
    [if (match && match[1]) return match[1]]. *)
Fixpoint first_id (patterns : list RegExp.t) (url : string) : option string :=
  match patterns with
  | [] => None
  | pattern :: tl =>
      match exec pattern url with
      | Some m =>
          match group 1 m with
          | Some id => if JSString.truthy id then Some id else first_id tl url
          | None => first_id tl url
          end
      | None => first_id tl url
      end
  end.

(** The id extractors that use the first pattern only:
    [match ? match[1] : null]. *)
Definition only_id (patterns : list RegExp.t) (url : string) : option string :=
  match patterns with
  | pattern :: _ =>
      match exec pattern url with
      | Some m => group 1 m
      | None => None
      end
  | [] => None
  end.

Definition extractYouTubeVideoId (url : string) : option string :=
  first_id (patterns_of youtube) url.

Definition extractInstagramPostId (url : string) : option string :=
  only_id (patterns_of instagram) url.

Definition extractTikTokVideoId (url : string) : option string :=
  first_id (patterns_of tiktok) url.

Definition extractLinkedInPostId (url : string) : option string :=
  first_id (patterns_of linkedin) url.

Definition extractTwitterTweetId (url : string) : option string :=
  only_id (patterns_of twitter) url.

(** The id extractor of a platform; the generic platform has none. *)
Definition extractId (p : Platform) (url : string) : option string :=
  match p with
  | youtube => extractYouTubeVideoId url
  | instagram => extractInstagramPostId url
  | tiktok => extractTikTokVideoId url
  | linkedin => extractLinkedInPostId url
  | twitter => extractTwitterTweetId url
  | generic => None
  end.

Section WithURL.
Context `{URLImpl}.

Definition isEmbeddable (url : string) : bool :=
  match new_URL url with
  | Some urlObj =>
      existsb (String.eqb (URL.protocol (URL.record urlObj))) ["http:"; "https:"]
  | None => false
  end.

Definition trackingParams : list string :=
  ["utm_source"; "utm_medium"; "utm_campaign"; "utm_term"; "utm_content";
   "fbclid"; "gclid"; "ref"; "source"; "campaign_id"].

(** The assignment that adds the protocol if it is missing. *)
Definition with_protocol (url : string) : string :=
  if negb (JSString.startsWith url "http://") && negb (JSString.startsWith url "https://")
  then "https://" ++ url
  else url.

(** [trackingParams.forEach(param => urlObj.searchParams.delete(param))] *)
Definition remove_tracking (urlObj : URL.obj) : URL.obj :=
  fold_left (fun o param => URL.searchParams_delete param o) trackingParams urlObj.

Definition normalizeUrl (url : string) : string :=
  let url := with_protocol url in
  match new_URL url with
  | Some urlObj => URL.href (remove_tracking urlObj)
  | None => url
  end.

Definition isValidUrl (url : string) : bool :=
  match new_URL url with Some _ => true | None => false end.

Definition getDomain (url : string) : option string :=
  match new_URL url with
  | Some urlObj => Some (URL.hostname (URL.record urlObj))
  | None => None
  end.

Definition isSameDomain (url1 url2 : string) : bool :=
  match getDomain url1, getDomain url2 with
  | Some domain1, Some domain2 => String.eqb domain1 domain2
  | _, _ => false
  end.

End WithURL.

End URLParser.

(* ------------------------------------------------------------------ *)
(** ** Effects: outbound requests and exceptions

    An [async] method is a computation that may issue requests and may
    throw.  The state is the log of the requests issued so far, in order:
    one entry for each call of [axios.get], with the address it asked
    for. *)

Inductive JSError : Type :=
| Error (message : string)
| AxiosError
| TypeError.

Inductive Result (A : Type) : Type :=
| Ok (a : A)
| Throw (e : JSError).
Arguments Ok {A} a.
Arguments Throw {A} e.

Definition Log : Type := list string.

Definition M (A : Type) : Type := Log -> Result A * Log.

Definition ret {A : Type} (a : A) : M A := fun log => (Ok a, log).

Definition throw {A : Type} (e : JSError) : M A := fun log => (Throw e, log).

(** A call that issues no request: it returns or throws, and leaves the
    log as it is. *)
Definition lift {A : Type} (r : Result A) : M A := fun log => (r, log).

Definition bind {A B : Type} (m : M A) (f : A -> M B) : M B :=
  fun log =>
    match m log with
    | (Ok a, log') => f a log'
    | (Throw e, log') => (Throw e, log')
    end.

(** [try { body } catch (error) { handler }] *)
Definition try_catch {A : Type} (body : M A) (handler : JSError -> M A) : M A :=
  fun log =>
    match body log with
    | (Ok a, log') => (Ok a, log')
    | (Throw e, log') => handler e log'
    end.

Notation "x <- m ;; k" := (bind m (fun x => k))
  (at level 61, m at next level, right associativity).

(** *** The document a page parses to

    What the extractor asks of a loaded document: its [meta] elements in
    document order, with the four attributes the selectors look at, and
    the text of its [title] elements. *)

Module Cheerio.

Record MetaTag : Type := mkmeta {
  property : option string;
  name : option string;
  itemprop : option string;
  content : option string
}.

Record Document : Type := mkdoc {
  metas : list MetaTag;
  titles : list string
}.

Definition attr_is (v : string) (a : option string) : bool :=
  match a with Some x => String.eqb x v | None => false end.

(** [$('meta[attr="v"]')] *)
Definition select_meta (attr : MetaTag -> option string) (v : string)
  (doc : Document) : list MetaTag :=
  filter (fun e => attr_is v (attr e)) (metas doc).

(** [.attr('content')]: the attribute of the first element of the set *)
Definition attr_content (set : list MetaTag) : option string :=
  match set with e :: _ => content e | [] => None end.

(** [$('title').first().text()] *)
Definition title_text (doc : Document) : string :=
  match titles doc with t :: _ => t | [] => EmptyString end.

End Cheerio.

(** The HTTP client and the loaders of a response body.  [network n a]
    is the outcome of the request number [n] when it asks for [a]: the
    body of a response, or [None] when [axios.get] rejects (no
    connection, a timeout, a status outside 2xx).  [cheerio_load] is
    [None] when loading throws.  [response_data] is [response.data] as
    the client hands it over: the value that the body parses to when it
    is a JSON text, and the body as a string when it is not. *)
Class Http : Type := {
  Body : Type;
  network : nat -> string -> option Body;
  cheerio_load : Body -> option Cheerio.Document;
  response_data : Body -> JSValue.t
}.

(** [await axios.get(address, options)].  The headers, the timeout and
    the redirect limit of [options] are not part of the model: a timeout
    is one of the ways for the request to fail, and the redirects that
    the client follows belong to the one request. *)
Definition axios_get `{Http} (address : string) : M Body :=
  fun log =>
    match network (List.length log) address with
    | Some body => (Ok body, (log ++ [address])%list)
    | None => (Throw AxiosError, (log ++ [address])%list)
    end.

(** [url.origin] *)
Definition URL_origin `{URLImpl} (r : URL.t) : string :=
  let tuple (r : URL.t) :=
    URL.scheme r ++ "://" ++ URL.hostname r ++ URL.opt_prefixed ":" (URL.port r) in
  let special := ["http"; "https"; "ftp"; "ws"; "wss"] in
  if existsb (String.eqb (URL.scheme r)) special then tuple r
  else if String.eqb (URL.scheme r) "blob" then
    match URL_parse (URL.path r) None with
    | Some pathURL =>
        if existsb (String.eqb (URL.scheme pathURL)) ["http"; "https"]
        then tuple pathURL else "null"
    | None => "null"
    end
  else "null".

(** [parseInt(s, 10)] *)
Module ParseInt.
Import JSString.

Definition is_digit (c : ascii) : bool := between 48 57 c.

Fixpoint digits (acc : option Z) (s : string) : option Z :=
  match s with
  | String c t =>
      if is_digit c
      then digits (Some (10 * match acc with Some a => a | None => 0 end
                         + Z.of_nat (code c - 48))%Z) t
      else acc
  | EmptyString => acc
  end.

Definition parseInt (s : string) : JSNumber :=
  let s := trimStart s in
  let (sign, s) :=
    match s with
    | String c t =>
        if Ascii.eqb c "-" then ((-1)%Z, t)
        else if Ascii.eqb c "+" then (1%Z, t)
        else (1%Z, s)
    | EmptyString => (1%Z, s)
    end in
  match digits None s with
  | Some z => JSInt (sign * z)
  | None => JSNaN
  end.

End ParseInt.

(* ------------------------------------------------------------------ *)
(** ** metadata.ts *)

Module MetadataExtractor.
Import JSString Cheerio EmbedMetadata.

Section WithRuntime.
Context `{URLImpl} `{Http}.

(** One selector of [extractMetaContent]: the property, the name, then
    the itemprop; the first content that is truthy, trimmed. *)
Definition probe (doc : Document) (selector : string) : option string :=
  let by_property := attr_content (select_meta property selector doc) in
  if truthy_opt by_property then option_map trim by_property
  else
    let by_name := attr_content (select_meta name selector doc) in
    if truthy_opt by_name then option_map trim by_name
    else
      let by_itemprop := attr_content (select_meta itemprop selector doc) in
      if truthy_opt by_itemprop then option_map trim by_itemprop
      else None.

Fixpoint extractMetaContent (doc : Document) (selectors : list string)
  : option string :=
  match selectors with
  | [] => None
  | selector :: tl =>
      match probe doc selector with
      | Some c => Some c
      | None => extractMetaContent doc tl
      end
  end.

Definition getDomainFromUrl (url : string) : string :=
  match new_URL url with
  | Some urlObj => replace "www." "" (URL.hostname (URL.record urlObj))
  | None => "Unknown"
  end.

(** The record both extractors return from [catch]. *)
Definition fallback (url : string) : EmbedMetadata.t :=
  {| title := Some (JSValue.Str (getDomainFromUrl url));
     description := None; image := None;
     type := Some EmbedType.link;
     platform := Some generic;
     url := Some url;
     embedData := None; width := None; height := None; duration := None;
     author := None; provider := None |}.

(** The record both extractors start from. *)
Definition initial (url : string) : EmbedMetadata.t :=
  {| title := None; description := None; image := None;
     type := Some EmbedType.link;
     platform := Some generic;
     url := Some url;
     embedData := None; width := None; height := None; duration := None;
     author := None; provider := None |}.

(** [x || undefined] *)
Definition or_undefined (x : option string) : option string :=
  if truthy_opt x then x else None.

(** [x || $('title').first().text().trim()] *)
Definition or_title (x : option string) (doc : Document) : option string :=
  if truthy_opt x then x else Some (trim (title_text doc)).

(** The [switch] on [ogType.toLowerCase()]. *)
Definition og_type (lowered : string) : EmbedType.t :=
  if existsb (String.eqb lowered)
       ["video"; "video.movie"; "video.episode"; "video.tv_show"; "video.other"]
  then EmbedType.video
  else if existsb (String.eqb lowered)
       ["music"; "music.song"; "music.album"; "music.playlist"]
  then EmbedType.audio
  else if existsb (String.eqb lowered) ["article"; "blog"; "news"]
  then EmbedType.article
  else EmbedType.link.

(** The [switch] on [cardType.toLowerCase()]. *)
Definition card_type (lowered : string) : EmbedType.t :=
  if String.eqb lowered "player" then EmbedType.video
  else if existsb (String.eqb lowered) ["summary_large_image"; "summary"]
  then EmbedType.article
  else EmbedType.link.

(** [if (x) metadata.f = g(x)] *)
Definition when_truthy {A : Type} (x : option string) (g : string -> A)
  (set : option A -> EmbedMetadata.t -> EmbedMetadata.t)
  (metadata : EmbedMetadata.t) : EmbedMetadata.t :=
  match x with
  | Some v => if truthy v then set (Some (g v)) metadata else metadata
  | None => metadata
  end.

(** The fields that [extractOpenGraph] reads off the document. *)
Definition openGraph_fields (url : string) (doc : Document) : EmbedMetadata.t :=
  let metadata := initial url in
  let metadata :=
    set_title
      (JSValue.of_string
         (or_title (extractMetaContent doc ["og:title"; "twitter:title"; "title"]) doc))
      metadata in
  let metadata :=
    set_description
      (or_undefined (extractMetaContent doc ["og:description"; "twitter:description"; "description"]))
      metadata in
  let metadata :=
    set_image
      (JSValue.of_string
         (or_undefined (extractMetaContent doc ["og:image"; "twitter:image"; "twitter:image:src"])))
      metadata in
  let ogType := extractMetaContent doc ["og:type"] in
  let metadata := when_truthy ogType (fun t => og_type (toLowerCase t)) set_type metadata in
  let width := extractMetaContent doc ["og:video:width"; "twitter:player:width"] in
  let height := extractMetaContent doc ["og:video:height"; "twitter:player:height"] in
  let metadata :=
    when_truthy width (fun w => JSValue.Num (ParseInt.parseInt w)) set_width metadata in
  let metadata :=
    when_truthy height (fun h => JSValue.Num (ParseInt.parseInt h)) set_height metadata in
  let authorName := extractMetaContent doc ["og:site_name"; "twitter:site"; "author"] in
  when_truthy authorName
    (fun a => Author.mk (Some (JSValue.Str (replace "@" "" a))) None None)
    set_author metadata.

(** Make image URL absolute:
    [if (metadata.image && !metadata.image.startsWith('http'))].  A value
    that is truthy and no string has no method [startsWith]: the call
    throws. *)
Definition absolute_image (url : string) (metadata : EmbedMetadata.t)
  : M EmbedMetadata.t :=
  match image metadata with
  | Some (JSValue.Str img) =>
      if truthy img && negb (startsWith img "http")
      then
        match new_URL url with
        | None => throw TypeError
        | Some baseUrl =>
            match new_URL_base img (URL_origin (URL.record baseUrl)) with
            | None => throw TypeError
            | Some resolved =>
                ret (set_image (Some (JSValue.Str (URL.href resolved))) metadata)
            end
        end
      else ret metadata
  | Some other => if JSValue.truthy other then throw TypeError else ret metadata
  | None => ret metadata
  end.

(** [cheerio.load(response.data)] *)
Definition load (response : Body) : M Document :=
  match cheerio_load response with
  | Some doc => ret doc
  | None => throw TypeError
  end.

Definition extractOpenGraph (url : string) : M EmbedMetadata.t :=
  try_catch
    (response <- axios_get url ;;
     doc <- load response ;;
     absolute_image url (openGraph_fields url doc))
    (fun error => ret (fallback url)).

Definition twitterCards_fields (url : string) (doc : Document) : EmbedMetadata.t :=
  let metadata := initial url in
  let metadata :=
    set_title (JSValue.of_string (or_title (extractMetaContent doc ["twitter:title"]) doc))
      metadata in
  let metadata :=
    set_description (or_undefined (extractMetaContent doc ["twitter:description"]))
      metadata in
  let metadata :=
    set_image
      (JSValue.of_string
         (or_undefined (extractMetaContent doc ["twitter:image"; "twitter:image:src"])))
      metadata in
  let cardType := extractMetaContent doc ["twitter:card"] in
  when_truthy cardType (fun t => card_type (toLowerCase t)) set_type metadata.

Definition extractTwitterCards (url : string) : M EmbedMetadata.t :=
  try_catch
    (response <- axios_get url ;;
     doc <- load response ;;
     ret (twitterCards_fields url doc))
    (fun error => ret (fallback url)).

(** [a || b] on a property that is an enumeration value or missing *)
Definition type_or (a b : option EmbedType.t) : option EmbedType.t :=
  match a with Some _ => a | None => b end.

Definition extractBasicMetadata (url : string) : M EmbedMetadata.t :=
  ogMetadata <- extractOpenGraph url ;;
  if negb (JSValue.truthy_opt (title ogMetadata))
     || negb (truthy_opt (description ogMetadata))
  then
    twitterMetadata <- extractTwitterCards url ;;
    ret {| title := JSValue.or (title ogMetadata)
                      (JSValue.or (title twitterMetadata)
                         (Some (JSValue.Str (getDomainFromUrl url))));
           description := string_or (description ogMetadata) (description twitterMetadata);
           image := JSValue.or (image ogMetadata) (image twitterMetadata);
           type := type_or (type ogMetadata)
                     (type_or (type twitterMetadata) (Some EmbedType.link));
           platform := Some generic;
           url := Some url;
           embedData := None;
           width := width ogMetadata;
           height := height ogMetadata;
           duration := None;
           author := author ogMetadata;
           provider := None |}
  else ret ogMetadata.

End WithRuntime.
End MetadataExtractor.

(* ------------------------------------------------------------------ *)
(** ** The parser interface of types.ts *)

(** The text of the markup that [generateEmbed] builds is not modelled.
    Building it issues no request, and it can fail: [escapeHtml] calls
    [text.replace], which a title or an author name that is no string
    does not have, and a template literal cannot print every object.
    Each of these throws a [TypeError]; that is [None] here. *)
Class Markup : Type := {
  youtube_markup : EmbedMetadata.t -> RenderOptions.t -> option string;
  generic_markup : EmbedMetadata.t -> RenderOptions.t -> option string
}.

(** What [generateEmbed] returns or throws, for the markup [built]. *)
Definition markup_result (built : option string) : Result string :=
  match built with
  | Some html => Ok html
  | None => Throw TypeError
  end.

Module PlatformParser.
Record t : Type := mk {
  canHandle : string -> bool;
  extractMetadata : string -> M EmbedMetadata.t;
  generateEmbed : EmbedMetadata.t -> RenderOptions.t -> Result string;
  (** [parser instanceof GenericParser] *)
  instanceofGenericParser : bool
}.
End PlatformParser.

(** [encodeURIComponent] *)
Module URI.
Import JSString.

Definition unreserved (c : ascii) : bool :=
  URL.is_alnum c ||
  existsb (Nat.eqb (code c)) [45; 95; 46; 33; 126; 42; 39; 40; 41].

Definition utf8_bytes (c : ascii) : string :=
  if code c <? 128 then String c ""
  else String (ascii_of_nat (192 + code c / 64))
         (String (ascii_of_nat (128 + code c mod 64)) "").

Fixpoint percent_encode_bytes (s : string) : string :=
  match s with
  | EmptyString => EmptyString
  | String b t => URL.percent_encode_byte b ++ percent_encode_bytes t
  end.

Fixpoint encodeURIComponent (s : string) : string :=
  match s with
  | EmptyString => EmptyString
  | String c t =>
      (if unreserved c then String c "" else percent_encode_bytes (utf8_bytes c))
      ++ encodeURIComponent t
  end.

End URI.

(* ------------------------------------------------------------------ *)
(** ** parsers/youtube.ts *)

Module YouTubeParser.
Import EmbedMetadata.

Definition OEMBED_ENDPOINT : string := "https://www.youtube.com/oembed".
Definition THUMBNAIL_BASE : string := "https://img.youtube.com/vi".

Definition quote : string := String (ascii_of_nat 34) "".

Section WithRuntime.
Context `{URLImpl} `{Http} `{Markup}.

Definition canHandle (url : string) : bool :=
  Platform_eqb (URLParser.detectPlatform url) youtube.

Definition oembed_address (url : string) : string :=
  OEMBED_ENDPOINT ++ "?url=" ++ URI.encodeURIComponent url ++ "&format=json".

Definition fetchOEmbedData (url : string) : M JSValue.t :=
  try_catch
    (response <- axios_get (oembed_address url) ;;
     ret (response_data response))
    (fun error => ret JSValue.Null).

Definition getThumbnailUrl (videoId quality : string) : string :=
  THUMBNAIL_BASE ++ "/" ++ videoId ++ "/" ++ quality ++ ".jpg".

Definition youtube_provider : Provider.t :=
  Provider.mk "YouTube" "https://youtube.com".

Definition youtube_embedData (videoId : string) : EmbedData.t :=
  EmbedData.mk videoId ("https://www.youtube.com/embed/" ++ videoId).

Definition extractBasicVideoInfo (videoId url : string) : M EmbedMetadata.t :=
  ret {| title := Some (JSValue.Str "YouTube Video");
         description := Some "Watch this video on YouTube";
         image := Some (JSValue.Str (getThumbnailUrl videoId "hqdefault"));
         type := Some EmbedType.video;
         platform := Some youtube;
         url := Some url;
         embedData := Some (youtube_embedData videoId);
         width := Some (JSValue.Num (JSInt 560));
         height := Some (JSValue.Num (JSInt 315));
         duration := None;
         author := None;
         provider := Some youtube_provider |}.

(** The record built from the oEmbed answer, a value that is truthy.
    Its properties are copied as they are; the description prints the
    title and the author name, and building the record throws when one
    of the two cannot be printed. *)
Definition from_oembed (oembedData : JSValue.t) (videoId url : string)
  : M EmbedMetadata.t :=
  let title := JSValue.get "title" oembedData in
  let author_name := JSValue.get "author_name" oembedData in
  match JSValue.interpolate title, JSValue.interpolate author_name with
  | Some printed_title, Some printed_author =>
      ret {| title := title;
             description :=
               Some ("Watch " ++ quote ++ printed_title ++ quote
                     ++ " by " ++ printed_author);
             image := JSValue.get "thumbnail_url" oembedData;
             type := Some EmbedType.video;
             platform := Some youtube;
             url := Some url;
             embedData := Some (youtube_embedData videoId);
             width := JSValue.get "width" oembedData;
             height := JSValue.get "height" oembedData;
             duration := None;
             author := Some (Author.mk author_name
                               (JSValue.get "author_url" oembedData) None);
             provider := Some youtube_provider |}
  | _, _ => throw TypeError
  end.

(** The minimal record of the [catch] branch. *)
Definition minimal (videoId url : string) : EmbedMetadata.t :=
  {| title := Some (JSValue.Str "YouTube Video");
     description := Some "Watch this video on YouTube";
     image := Some (JSValue.Str (getThumbnailUrl videoId "hqdefault"));
     type := Some EmbedType.video;
     platform := Some youtube;
     url := Some url;
     embedData := Some (youtube_embedData videoId);
     width := None; height := None; duration := None;
     author := None;
     provider := Some youtube_provider |}.

Definition extractMetadata (url : string) : M EmbedMetadata.t :=
  match URLParser.extractYouTubeVideoId url with
  | None => throw (Error "Invalid YouTube URL")
  | Some videoId =>
      if negb (JSString.truthy videoId) then throw (Error "Invalid YouTube URL")
      else
        try_catch
          (oembedData <- fetchOEmbedData url ;;
           if JSValue.truthy oembedData
           then from_oembed oembedData videoId url
           else extractBasicVideoInfo videoId url)
          (fun error => ret (minimal videoId url))
  end.

Definition generateEmbed (metadata : EmbedMetadata.t) (options : RenderOptions.t)
  : Result string :=
  markup_result (youtube_markup metadata options).

Definition parser : PlatformParser.t :=
  PlatformParser.mk canHandle extractMetadata generateEmbed false.

End WithRuntime.
End YouTubeParser.

(* ------------------------------------------------------------------ *)
(** ** parsers/generic.ts *)

Module GenericParser.
Import EmbedMetadata.

Section WithRuntime.
Context `{URLImpl} `{Http} `{Markup}.

Definition canHandle (url : string) : bool := true.

Definition getDomainFromUrl (url : string) : string :=
  match new_URL url with
  | Some urlObj => JSString.replace "www." "" (URL.hostname (URL.record urlObj))
  | None => "Unknown"
  end.

Definition getBaseUrl (url : string) : string :=
  match new_URL url with
  | Some urlObj =>
      URL.protocol (URL.record urlObj) ++ "//" ++ URL.hostname (URL.record urlObj)
  | None => url
  end.

Definition getFaviconUrl (url : string) : option string :=
  match new_URL url with
  | Some urlObj =>
      Some (URL.protocol (URL.record urlObj) ++ "//" ++ URL.hostname (URL.record urlObj)
            ++ "/favicon.ico")
  | None => None
  end.

Definition provider_of (url : string) : Provider.t :=
  Provider.mk (getDomainFromUrl url) (getBaseUrl url).

(** The minimal record of the [catch] branch. *)
Definition minimal (url : string) : EmbedMetadata.t :=
  {| title := Some (JSValue.Str (getDomainFromUrl url));
     description := Some "Visit this link to view the content";
     image := None;
     type := Some EmbedType.link;
     platform := Some generic;
     url := Some url;
     embedData := None; width := None; height := None; duration := None;
     author := None;
     provider := Some (provider_of url) |}.

Definition extractMetadata (url : string) : M EmbedMetadata.t :=
  try_catch
    (metadata <- MetadataExtractor.extractBasicMetadata url ;;
     ret (set_provider (Some (provider_of url))
            (set_platform (Some generic) metadata)))
    (fun error => ret (minimal url)).

Definition generateEmbed (metadata : EmbedMetadata.t) (options : RenderOptions.t)
  : Result string :=
  markup_result (generic_markup metadata options).

Definition parser : PlatformParser.t :=
  PlatformParser.mk canHandle extractMetadata generateEmbed true.

End WithRuntime.
End GenericParser.

(* ------------------------------------------------------------------ *)
(** ** embed-service.ts *)

Module EmbedService.
Import EmbedMetadata.

Record t : Type := mk { parsers : list PlatformParser.t }.

Section WithRuntime.
Context `{URLImpl} `{Http} `{Markup}.

(** [new EmbedService()] *)
Definition new : t := mk [YouTubeParser.parser; GenericParser.parser].

Definition findParser (this : t) (url : string) : option PlatformParser.t :=
  find (fun parser => PlatformParser.canHandle parser url) (parsers this).

Definition extractMetadata (this : t) (url : string) : M EmbedMetadata.t :=
  if negb (URLParser.isValidUrl url) then throw (Error "Invalid URL provided")
  else
    let normalizedUrl := URLParser.normalizeUrl url in
    match findParser this normalizedUrl with
    | None => throw (Error "No suitable parser found for URL")
    | Some parser =>
        try_catch
          (metadata <- PlatformParser.extractMetadata parser normalizedUrl ;;
           ret (set_url (Some normalizedUrl) metadata))
          (fun error =>
             if negb (PlatformParser.instanceofGenericParser parser)
             then GenericParser.extractMetadata normalizedUrl
             else throw error)
    end.

Definition mapTypeToOEmbed (type : option EmbedType.t) : OEmbedType.t :=
  match type with
  | Some EmbedType.video => OEmbedType.video
  | Some EmbedType.image => OEmbedType.photo
  | Some EmbedType.article | Some EmbedType.audio => OEmbedType.rich
  | _ => OEmbedType.link
  end.

Definition has_thumbnail (metadata : EmbedMetadata.t) : bool :=
  JSValue.truthy_opt (image metadata) &&
  match type metadata with
  | Some EmbedType.video | Some EmbedType.image => true
  | _ => false
  end.

Definition getOEmbed (this : t) (url : string) (options : OEmbedOptions.t)
  : M OEmbedResponse.t :=
  metadata <- extractMetadata this url ;;
  match findParser this url with
  | None => throw (Error "No suitable parser found for URL")
  | Some parser =>
      let renderOptions :=
        RenderOptions.mk (OEmbedOptions.maxwidth options)
          (OEmbedOptions.maxheight options) None None None in
      html <- lift (PlatformParser.generateEmbed parser metadata renderOptions) ;;
      let width :=
        JSValue.or (JSValue.of_number (RenderOptions.width renderOptions))
          (JSValue.or (EmbedMetadata.width metadata)
             (Some (JSValue.Num (JSInt 500)))) in
      let height :=
        JSValue.or (JSValue.of_number (RenderOptions.height renderOptions))
          (JSValue.or (EmbedMetadata.height metadata)
             (Some (JSValue.Num (JSInt 300)))) in
      let thumb := has_thumbnail metadata in
      ret {| OEmbedResponse.type := mapTypeToOEmbed (type metadata);
             OEmbedResponse.version := "1.0";
             OEmbedResponse.html := Some html;
             OEmbedResponse.width := width;
             OEmbedResponse.height := height;
             OEmbedResponse.title := title metadata;
             OEmbedResponse.author_name :=
               match author metadata with Some a => Author.name a | None => None end;
             OEmbedResponse.author_url :=
               match author metadata with Some a => Author.url a | None => None end;
             OEmbedResponse.provider_name :=
               string_or
                 (match provider metadata with
                  | Some p => Some (Provider.name p) | None => None end)
                 (Some "External Content");
             OEmbedResponse.provider_url :=
               match provider metadata with
               | Some p => Some (Provider.url p) | None => None end;
             OEmbedResponse.cache_age := Some (JSInt 3600);
             OEmbedResponse.thumbnail_url :=
               if thumb then image metadata else None;
             OEmbedResponse.thumbnail_width :=
               if thumb then EmbedMetadata.width metadata else None;
             OEmbedResponse.thumbnail_height :=
               if thumb then EmbedMetadata.height metadata else None |}
  end.

Definition renderEmbed (this : t) (url : string) (options : RenderOptions.t)
  : M string :=
  metadata <- extractMetadata this url ;;
  match findParser this url with
  | None => throw (Error "No suitable parser found for URL")
  | Some parser => lift (PlatformParser.generateEmbed parser metadata options)
  end.

Definition isYouTubeUrl (url : string) : bool :=
  Platform_eqb (URLParser.detectPlatform url) youtube.

(** [export const embedService = new EmbedService()] *)
Definition embedService : t := new.

End WithRuntime.
End EmbedService.

(* ------------------------------------------------------------------ *)
(** ** What is assumed of the URL parser

    The URL Standard sets idempotence as a goal for its parser, serializer
    and API: a serialized URL parses to the URL it came from.  Of this the
    proofs use two facts about [http] and [https] URLs, where [l] is the
    list a query object was updated with. *)

Class URLLaws `{URLImpl} : Prop := {
  parse_http : forall s r,
    URL_parse s None = Some r -> JSString.startsWith s "http://" = true ->
    URL.scheme r = "http" /\ URL.host r <> None;
  parse_https : forall s r,
    URL_parse s None = Some r -> JSString.startsWith s "https://" = true ->
    URL.scheme r = "https" /\ URL.host r <> None;
  reparse : forall s r l,
    URL_parse s None = Some r ->
    URL.scheme r = "http" \/ URL.scheme r = "https" ->
    URL_parse (URL.toString (URL.update l r)) None = Some (URL.update l r)
}.

(* ------------------------------------------------------------------ *)
(** ** A reference runtime

    A small runtime to run the services on concrete inputs.  Its URL
    parser accepts a part of the absolute [http] and [https] URLs that the
    platform accepts (lower-case host names, no credentials, no port, no
    dot segments, no character that the platform would re-encode) and
    parses those as the platform does; everything else it rejects.
    Relative references are resolved for path-absolute and plain
    path-relative inputs. *)

Module Reference.
Import JSString URL.

Definition one_of (l : list nat) (c : ascii) : bool := existsb (Nat.eqb (code c)) l.

Definition host_char (c : ascii) : bool :=
  between 97 122 c || between 48 57 c || one_of [45; 46] c.

(** Printable ASCII but the characters the path state re-encodes or
    gives a meaning: the double quote, [#], [%], [<], [>], [?], the
    backslash, [^], the backquote, the braces and the bar. *)
Definition path_char (c : ascii) : bool :=
  between 33 126 c
  && negb (one_of [34; 35; 37; 60; 62; 63; 92; 94; 96; 123; 124; 125] c).

(** Printable ASCII but the double quote, [#], [<], [>] and the quote. *)
Definition query_char (c : ascii) : bool :=
  between 33 126 c && negb (one_of [34; 35; 60; 62; 39] c).

(** Printable ASCII but the double quote, [<], [>] and the backquote. *)
Definition fragment_char (c : ascii) : bool :=
  between 33 126 c && negb (one_of [34; 60; 62; 96] c).

Definition last_label (h : string) : string := last (split_on "." h) EmptyString.

Definition starts_with_letter (s : string) : bool :=
  match s with String c _ => between 97 122 c | EmptyString => false end.

Definition valid_host (h : string) : bool :=
  truthy h && all_chars host_char h && starts_with_letter (last_label h)
  && negb (startsWith h ".") && negb (includes h "..") && negb (includes h "xn--").

Definition valid_path (p : string) : bool :=
  all_chars path_char p && negb (includes p "/.").

Definition valid_opt (p : ascii -> bool) (o : option string) : bool :=
  match o with Some s => all_chars p s | None => true end.

Definition or_empty (o : option string) : string :=
  match o with Some s => s | None => EmptyString end.

(** What follows [scheme://]. *)
Definition parse_after (scheme rest : string) : option URL.t :=
  let (before_fragment, f) := split_first "#" rest in
  let (before_query, q) := split_first "?" before_fragment in
  let (h, p) := split_first "/" before_query in
  let path := String "/" (or_empty p) in
  if valid_host h && valid_path path && valid_opt query_char q
     && valid_opt fragment_char f
  then Some (URL.mk scheme "" "" (Some h) None path q f)
  else None.

Definition parse_absolute (input : string) : option URL.t :=
  if startsWith input "https://" then parse_after "https" (drop 8 input)
  else if startsWith input "http://" then parse_after "http" (drop 7 input)
  else None.

(** The path up to its last [/]. *)
Fixpoint directory (p : string) : string :=
  match p with
  | EmptyString => EmptyString
  | String c t =>
      if includes t "/" then String c (directory t)
      else if Ascii.eqb c "/" then String c EmptyString else EmptyString
  end.

(** A reference that is a path, with a query and a fragment or without,
    against a base. *)
Definition parse_relative (input : string) (base : URL.t) : option URL.t :=
  let (before_fragment, f) := split_first "#" input in
  let (p, q) := split_first "?" before_fragment in
  let path :=
    if startsWith p "/" then p else directory (URL.path base) ++ p in
  if truthy p && negb (startsWith p "//") && negb (includes p ":")
     && valid_path path && valid_opt query_char q && valid_opt fragment_char f
  then Some (URL.mk (URL.scheme base) "" "" (URL.host base) None path q f)
  else None.

Definition parse (input : string) (base : option string) : option URL.t :=
  match parse_absolute input with
  | Some r => Some r
  | None =>
      match base with
      | Some b =>
          match parse_absolute b with
          | Some rb => parse_relative input rb
          | None => None
          end
      | None => None
      end
  end.

#[export] Instance url_impl : URLImpl := {| URL_parse := parse |}.

(** The bodies of the reference network: a page, given by its document,
    or a JSON text, given by the value it parses to. *)
Inductive body : Type :=
| Page (doc : Cheerio.Document)
| Json (data : JSValue.t).

Definition load_body (b : body) : option Cheerio.Document :=
  match b with Page doc => Some doc | Json _ => None end.

(** The text of a page is no JSON text: it is handed over as a string. *)
Definition data_of (b : body) : JSValue.t :=
  match b with
  | Json data => data
  | Page _ => JSValue.Str "<!DOCTYPE html>"
  end.

(** The runtime over a network [net]. *)
Definition http (net : nat -> string -> option body) : Http :=
  {| Body := body; network := net; cheerio_load := load_body;
     response_data := data_of |}.

(** A value that [escapeHtml] can be given where the templates give it
    one: a string, or a value that is falsy and so replaced or left
    out. *)
Definition escapable (v : option JSValue.t) : bool :=
  match v with
  | Some (JSValue.Str _) | None => true
  | Some other => negb (JSValue.truthy other)
  end.

(** Markup that fails where the templates fail on a title or an author
    name. *)
Definition build (html : string) (metadata : EmbedMetadata.t) : option string :=
  if escapable (EmbedMetadata.title metadata)
     && escapable (match EmbedMetadata.author metadata with
                   | Some a => Author.name a
                   | None => None
                   end)
  then Some html else None.

#[export] Instance markup : Markup :=
  {| youtube_markup := fun metadata _ => build "<div class=youtube-embed></div>" metadata;
     generic_markup := fun metadata _ => build "<div class=generic-embed></div>" metadata |}.

(** No request succeeds. *)
Definition offline : nat -> string -> option body := fun _ _ => None.

Definition tag (property content : string) : Cheerio.MetaTag :=
  Cheerio.mkmeta (Some property) None None (Some content).

Definition named (name content : string) : Cheerio.MetaTag :=
  Cheerio.mkmeta None (Some name) None (Some content).

(** Every request is answered with the same page. *)
Definition serving (doc : Cheerio.Document) : nat -> string -> option body :=
  fun _ _ => Some (Page doc).

(** The first request fails, the later ones are answered with a page. *)
Definition flaky (doc : Cheerio.Document) : nat -> string -> option body :=
  fun n _ => match n with O => None | S _ => Some (Page doc) end.

(** A parser that is not the generic one and whose extraction throws. *)
Definition throwing_parser : PlatformParser.t :=
  PlatformParser.mk (fun _ => true)
    (fun _ => throw (Error "Invalid YouTube URL"))
    (fun _ _ => Ok EmptyString) false.

(** A page with a title, a description and an [og:type]. *)
Definition typed_page (ogType : string) : Cheerio.Document :=
  Cheerio.mkdoc
    [tag "og:title" "A title"; tag "og:description" "A description";
     tag "og:type" ogType] [].

(** A page with a title, a description and an [og:image]. *)
Definition image_page (ogImage : string) : Cheerio.Document :=
  Cheerio.mkdoc
    [tag "og:title" "A title"; tag "og:description" "A description";
     tag "og:image" ogImage] [].

(** A page with a [title] element and a [twitter:image]. *)
Definition card_page (twitterImage : string) : Cheerio.Document :=
  Cheerio.mkdoc [named "twitter:image" twitterImage] ["A title"].

(** The generic extraction and the service over a network, from an empty log. *)
Definition generic_run (net : nat -> string -> option body) (u : string)
  : Result EmbedMetadata.t * Log :=
  @GenericParser.extractMetadata url_impl (http net) u [].

Definition service_run (net : nat -> string -> option body) (u : string)
  : Result EmbedMetadata.t * Log :=
  @EmbedService.extractMetadata url_impl (http net)
    (@EmbedService.embedService url_impl (http net) markup) u [].

End Reference.

(* ------------------------------------------------------------------ *)
(** ** The vocabulary of the properties

    Measures and predicates that the statements further down are written
    with. *)

Module Spec.
Import JSString RegExp URL URLParser Reference.

(** *** On patterns *)

(** The least number of code units a pattern consumes. *)
Fixpoint minlen (r : regex) : nat :=
  match r with
  | Empty | Bol => 0
  | Chr _ => 1
  | Seq a b => minlen a + minlen b
  | Alt a b => Nat.min (minlen a) (minlen b)
  | Group _ a => minlen a
  | Rep a min _ => min * minlen a
  end.

(** A quantifier [{min,max}] is only a pattern when [min <= max]. *)
Definition le_max (min : nat) (max : option nat) : Prop :=
  match max with Some mx => min <= mx | None => True end.

(** [le_max] as a test. *)
Definition le_maxb (min : nat) (max : option nat) : bool :=
  match max with Some mx => min <=? mx | None => true end.

(** Every quantifier of the pattern has [min <= max]. *)
Fixpoint wf (r : regex) : bool :=
  match r with
  | Empty | Bol | Chr _ => true
  | Seq a b | Alt a b => wf a && wf b
  | Group _ a => wf a
  | Rep a min max => le_maxb min max && wf a
  end.

(** A matcher that succeeds has called its continuation, at least [n] code
    units further. *)
Definition calls_back (n : nat) (m : matcher) : Prop :=
  forall x k z, m x k = Some z ->
    exists y, k y = Some z /\ List.length (rest y) + n <= List.length (rest x).

(** The pattern ends with group 1 around a pattern that consumes input:
    the shape of every platform-specific pattern of the table. *)
Fixpoint closes_with_group1 (r : regex) : bool :=
  match r with
  | Seq a b => wf a && closes_with_group1 b
  | Group 1 a => wf a && (0 <? minlen a)
  | _ => false
  end.

(** [y] is a state the matcher reaches from [x]: further in the same
    input. *)
Definition reach (x y : mstate) : Prop :=
  endIndex x <= endIndex y /\
  endIndex y + List.length (rest y) = endIndex x + List.length (rest x).

(** A matcher looks at its continuation on the states it reaches only. *)
Definition local (m : matcher) : Prop :=
  forall x k1 k2, (forall y, reach x y -> k1 y = k2 y) -> m x k1 = m x k2.

(** *** On the pattern table *)

(** The place of a platform in [PLATFORM_PATTERNS]. *)
Fixpoint rank_in (ps : list Platform) (p : Platform) : nat :=
  match ps with
  | [] => 0
  | q :: tl => if Platform_eqb q p then 0 else S (rank_in tl p)
  end.

(** The place of a platform in the order of detection. *)
Definition rank (p : Platform) : nat :=
  rank_in (map fst PLATFORM_PATTERNS) p.

(** The first pattern of a list that passes [test]. *)
Definition first_matching (patterns : list RegExp.t) (url : string)
  : option RegExp.t :=
  find (fun pattern => test pattern url) patterns.

(** Every pattern of a platform but the generic one has that shape. *)
Definition platform_patterns_closed : Prop :=
  forall p, p <> generic ->
    Forall (fun re => closes_with_group1 (source re) = true) (patterns_of p).

(** *** On the form-urlencoded codec *)

(** A property of code units that holds by evaluation on all of them. *)
Definition every_ascii (P : ascii -> bool) : bool :=
  forallb P (map ascii_of_nat (List.seq 0 256)).

(** The code units of a form-urlencoded serialization. *)
Definition form_out (c : ascii) : bool :=
  form_safe c || (code c =? 43) || (code c =? 37).

(** The code unit [a] is not [c]. *)
Definition is_not (c a : ascii) : bool := negb (Ascii.eqb a c).

(** One pair of a serialization. *)
Definition encode_pair (p : string * string) : string :=
  form_encode (fst p) ++ "=" ++ form_encode (snd p).

(** What parsing makes of a pair that was serialized. *)
Definition scrub_pair (p : string * string) : string * string :=
  (utf8_scrub (fst p), utf8_scrub (snd p)).

(** The pairs of a parsed query are well-formed UTF-8 already. *)
Definition scrubbed (l : list (string * string)) : Prop :=
  Forall (fun p => scrub_pair p = p) l.

(** The pairs that [remove_tracking] keeps. *)
Definition kept (names : list string) (l : list (string * string))
  : list (string * string) :=
  filter (fun p => negb (existsb (String.eqb (fst p)) names)) l.

(** *** On the reference URL parser *)

(** The components of a reference URL. *)
Record components : Type := mkcomp {
  c_host : string;
  c_path : string;
  c_query : option string;
  c_fragment : option string
}.

(** The components that the reference parser accepts. *)
Definition valid (c : components) : bool :=
  valid_host (c_host c) && valid_path (String "/" (c_path c))
  && valid_opt query_char (c_query c) && valid_opt fragment_char (c_fragment c).

(** The record of a reference URL. *)
Definition to_record (scheme : string) (c : components) : URL.t :=
  URL.mk scheme "" "" (Some (c_host c)) None (String "/" (c_path c))
    (c_query c) (c_fragment c).

(** What its serialization has after [scheme://]. *)
Definition after_scheme (c : components) : string :=
  c_host c ++ (String "/" (c_path c)
               ++ (opt_prefixed "?" (c_query c) ++ opt_prefixed "#" (c_fragment c))).

(** *** On the domain of an address *)



(** *** On records and requests *)

(** A record as the specification wants it: the type, the platform and
    the address are there. *)
Definition tagged (m : EmbedMetadata.t) : Prop :=
  EmbedMetadata.type m <> None /\ EmbedMetadata.platform m <> None /\
  EmbedMetadata.url m <> None.

(** The parser that the service finds for an address: the YouTube
    parser when it can handle the address, the generic parser otherwise. *)
Definition parser_for `{URLImpl} `{Http} `{Markup} (url : string)
  : PlatformParser.t :=
  if YouTubeParser.canHandle url then YouTubeParser.parser else GenericParser.parser.

(** The requests of one generic extraction: the page, once or twice. *)
Definition page_fetches (url : string) (extra : Log) : Prop :=
  extra = [url] \/ extra = [url; url].


(** The requests of one generic extraction whose first pass gave the
    record [og]: the page, and the page again when the first pass left
    the title or the description empty. *)
Definition page_fetches_of (og : EmbedMetadata.t) (url : string) : Log :=
  if JSValue.truthy_opt (EmbedMetadata.title og)
     && truthy_opt (EmbedMetadata.description og)
  then [url] else [url; url].

(** The requests one call of the service issues, for the normalized
    address [url]: none when the address is not valid, the oEmbed request
    when the YouTube parser handles it, and else the page, once or
    twice. *)
Definition service_fetches (valid handled : bool) (url : string) (extra : Log)
  : Prop :=
  if valid
  then if handled then extra = [YouTubeParser.oembed_address url]
       else page_fetches url extra
  else extra = [].

(** The requests as the specification lists them: the oEmbed attempt,
    then possibly one request for the page. *)
Definition fetches_as_listed (url : string) (extra : Log) : Prop :=
  exists o p, extra = (o ++ p)%list /\
    (o = [] \/ o = [YouTubeParser.oembed_address url]) /\
    (p = [] \/ p = [url]).

(** The outcome of the YouTube parser. *)
Inductive youtube_outcome (url : string) (log : Log)
  : Result EmbedMetadata.t * Log -> Prop :=
| youtube_invalid :
    URLParser.extractYouTubeVideoId url = None ->
    youtube_outcome url log (Throw (Error "Invalid YouTube URL"), log)
| youtube_record (m : EmbedMetadata.t) :
    URLParser.extractYouTubeVideoId url <> None ->
    tagged m -> EmbedMetadata.platform m = Some youtube ->
    youtube_outcome url log (Ok m, (log ++ [YouTubeParser.oembed_address url])%list).

End Spec.

(* ------------------------------------------------------------------ *)
(** ** [escapeHtml] of parsers/youtube.ts and parsers/generic.ts *)

Module Escape.
Import JSString.

(** [s.replace(/c/g, rep)] for a pattern that is one literal character
    and a replacement without [$]. *)
Fixpoint replace_all (c : ascii) (rep : string) (s : string) : string :=
  match s with
  | EmptyString => EmptyString
  | String a t => (if Ascii.eqb a c then rep else String a "") ++ replace_all c rep t
  end.

Definition escapeHtml (text : string) : string :=
  replace_all "'" "&#39;"
    (replace_all (ascii_of_nat 34) "&quot;"
       (replace_all ">" "&gt;"
          (replace_all "<" "&lt;"
             (replace_all "&" "&amp;" text)))).

End Escape.

(* ------------------------------------------------------------------ *)
(** ** The routes: routes/extract.ts, routes/oembed.ts, routes/render.ts

    A handler reads the parameters of the query, answers with a status
    and a body, and on its way may call the service, which issues
    requests.  What it writes to the console is not modelled. *)

Module Express.
Import JSString.

(** The value of a query parameter: a string, or an array or object that
    the query parser of the framework built; of those the handlers use
    nothing but their conversion to a string. *)
Inductive QueryValue : Type :=
| QString (s : string)
| QOther (text : string).

(** [!!v] *)
Definition value_truthy (v : QueryValue) : bool :=
  match v with QString s => truthy s | QOther _ => true end.

(** [String(v)] *)
Definition toString (v : QueryValue) : string :=
  match v with QString s => s | QOther text => text end.

(** [v === s] *)
Definition is_string (s : string) (v : QueryValue) : bool :=
  match v with QString x => String.eqb x s | QOther _ => false end.

(** The body of an answer. *)
Inductive Payload : Type :=
| ErrorJson (error message : string)
| ExtractJson (data : EmbedMetadata.t) (timestamp : string)
| OEmbedJson (response : OEmbedResponse.t)
| Html (html : string)
| ErrorPage.

Record Response : Type := mkresp {
  status : nat;
  headers : list (string * string);
  payload : Payload
}.

(** [res.status(code).json({ error, message })] *)
Definition json_error (code : nat) (error message : string) : Response :=
  mkresp code [] (ErrorJson error message).

End Express.

(** What the routes take from their environment: [validator.isURL] with
    the options the routes pass ([protocols: http, https] and
    [require_protocol: false]), the clock behind
    [new Date().toISOString()], and the message of an error that is not
    one the services construct. *)
Class Server : Type := {
  isURL : string -> bool;
  now : string;
  runtime_message : JSError -> string
}.

(** [error.message] *)
Definition message `{Server} (error : JSError) : string :=
  match error with
  | Error m => m
  | _ => runtime_message error
  end.

Module Routes.
Import JSString Express.

Record ExtractQuery : Type := mkextract { e_url : option QueryValue }.

Record OEmbedQuery : Type := mkoembed {
  o_url : option QueryValue;
  o_format : option QueryValue;
  o_maxwidth : option QueryValue;
  o_maxheight : option QueryValue
}.


(** [!v] for a parameter that may be missing *)
Definition falsy (v : option QueryValue) : bool :=
  match v with Some q => negb (value_truthy q) | None => true end.

(** [isNaN(n) || n < 1 || n > 2000] *)
Definition out_of_range (n : JSNumber) : bool :=
  match n with
  | JSNaN => true
  | JSInt z => (z <? 1)%Z || (z >? 2000)%Z
  end.

(** [if (v) { parsed = parseInt(v, 10); if (...) return bad }]: the
    handler goes on with the number parsed, or with none when the
    parameter is missing or empty. *)
Definition with_dimension (v : option QueryValue) (bad : Response)
  (k : option JSNumber -> M Response) : M Response :=
  match v with
  | Some q =>
      if value_truthy q
      then let parsed := ParseInt.parseInt (toString q) in
           if out_of_range parsed then ret bad else k (Some parsed)
      else k None
  | None => k None
  end.

Section WithRuntime.
Context `{URLImpl} `{Http} `{Markup} `{Server}.

(** The checks of [url] that open every handler; [k] gets the trimmed
    address.  [between_checks] is what oembed.ts does after the type
    check and before it trims. *)
Definition with_url (v : option QueryValue) (missing : string)
  (between_checks : option Response)
  (k : string -> M Response) : M Response :=
  if falsy v
  then ret (json_error 400 "Missing required parameter: url" missing)
  else
    match v with
    | Some (QString url) =>
        match between_checks with
        | Some response => ret response
        | None =>
            let trimmedUrl := trim url in
            if negb (isURL trimmedUrl)
            then ret (json_error 400 "Invalid URL format"
                        "Please provide a valid HTTP or HTTPS URL")
            else k trimmedUrl
        end
    | _ => ret (json_error 400 "Invalid parameter type" "URL parameter must be a string")
    end.

(** The [catch] of routes/extract.ts. *)
Definition extract_catch (error : JSError) : Response :=
  let m := message error in
  if includes m "Invalid URL" then json_error 400 "Invalid URL" m
  else if includes m "timeout"
  then json_error 408 "Request timeout"
         "The request took too long to process. Please try again."
  else if includes m "ENOTFOUND" || includes m "ECONNREFUSED"
  then json_error 404 "URL not accessible"
         "The provided URL could not be accessed or does not exist."
  else json_error 500 "Internal server error"
         "An error occurred while extracting metadata. Please try again later.".

Definition extract (query : ExtractQuery) : M Response :=
  try_catch
    (with_url (e_url query) "Please provide a valid URL to extract metadata from" None
       (fun trimmedUrl =>
          metadata <- EmbedService.extractMetadata EmbedService.embedService trimmedUrl ;;
          ret (mkresp 200 [] (ExtractJson metadata now))))
    (fun error => ret (extract_catch error)).

(** The first four branches of the [catch] of routes/oembed.ts and
    routes/render.ts; [None] when none applies. *)
Definition known_error (error : JSError) : option Response :=
  let m := message error in
  if includes m "Invalid URL" then Some (json_error 400 "Invalid URL" m)
  else if includes m "timeout"
  then Some (json_error 408 "Request timeout"
               "The request took too long to process. Please try again.")
  else if includes m "ENOTFOUND" || includes m "ECONNREFUSED"
  then Some (json_error 404 "URL not accessible"
               "The provided URL could not be accessed or does not exist.")
  else if includes m "No suitable parser"
  then Some (json_error 422 "Unsupported content"
               "The provided URL contains content that cannot be embedded.")
  else None.

Definition oembed_catch (error : JSError) : Response :=
  match known_error error with
  | Some response => response
  | None =>
      json_error 500 "Internal server error"
        "An error occurred while generating oEmbed. Please try again later."
  end.

(** The checks of [format], which has the default [json]. *)
Definition format_check (format : option QueryValue) : option Response :=
  let format := match format with Some v => v | None => QString "json" end in
  if value_truthy format && negb (is_string "json" format || is_string "xml" format)
  then Some (json_error 400 "Invalid format"
               ("Format must be either " ++ YouTubeParser.quote ++ "json"
                ++ YouTubeParser.quote ++ " or " ++ YouTubeParser.quote ++ "xml"
                ++ YouTubeParser.quote))
  else if is_string "xml" format
  then Some (json_error 501 "Format not supported"
               "XML format is not currently supported. Please use JSON format.")
  else None.

Definition oembed (query : OEmbedQuery) : M Response :=
  try_catch
    (with_url (o_url query) "Please provide a valid URL to generate oEmbed for"
       (format_check (o_format query))
       (fun trimmedUrl =>
          with_dimension (o_maxwidth query)
            (json_error 400 "Invalid maxwidth"
               "maxwidth must be a number between 1 and 2000")
            (fun parsedMaxWidth =>
               with_dimension (o_maxheight query)
                 (json_error 400 "Invalid maxheight"
                    "maxheight must be a number between 1 and 2000")
                 (fun parsedMaxHeight =>
                    oembedData <-
                      EmbedService.getOEmbed EmbedService.embedService trimmedUrl
                        (OEmbedOptions.mk parsedMaxWidth parsedMaxHeight) ;;
                    ret (mkresp 200
                           [("Content-Type", "application/json");
                            ("Cache-Control", "public, max-age=3600")]
                           (OEmbedJson oembedData))))))
    (fun error => ret (oembed_catch error)).

Definition render_catch (error : JSError) : Response :=
  match known_error error with
  | Some response => response
  | None => mkresp 500 [] ErrorPage
  end.






End WithRuntime.
End Routes.

(** A server for the reference runtime: its validator accepts what the
    reference URL parser accepts, with the protocol or without. *)
Module ReferenceServer.

Definition accepts (s : string) : bool :=
  match Reference.parse (URLParser.with_protocol s) None with
  | Some _ => true
  | None => false
  end.

#[export] Instance server : Server :=
  {| isURL := accepts;
     now := "2025-01-01T00:00:00.000Z";
     runtime_message := fun _ => "Network Error" |}.

Definition extract_run (net : nat -> string -> option Reference.body)
  (query : Routes.ExtractQuery) : Result Express.Response * Log :=
  @Routes.extract Reference.url_impl (Reference.http net) Reference.markup server
    query [].

Definition oembed_run (net : nat -> string -> option Reference.body)
  (query : Routes.OEmbedQuery) : Result Express.Response * Log :=
  @Routes.oembed Reference.url_impl (Reference.http net) Reference.markup server
    query [].


End ReferenceServer.

(** More pages and runs of the reference runtime. *)
Module ReferencePages.
Import Reference.

(** A page that is a Twitter player card and has no OpenGraph tags. *)
Definition player_page : Cheerio.Document :=
  Cheerio.mkdoc
    [named "twitter:card" "player"; named "twitter:title" "A clip";
     named "twitter:description" "A description"] [].

(** Generic extraction over a network, from an empty log. *)
Definition basic_run (net : nat -> string -> option body) (u : string)
  : Result EmbedMetadata.t * Log :=
  @MetadataExtractor.extractBasicMetadata url_impl (http net) u [].

End ReferencePages.

(* ------------------------------------------------------------------ *)
(** ** More vocabulary

    What the further properties are written with: the shape of the ids
    that the patterns capture, the code units of escaped and encoded
    text, and what is said of a run of a route. *)

Module Shape.
Import JSString RegExp URLParser.

(** An upper bound that may be missing. *)
Definition le_opt (n : nat) (hi : option nat) : Prop :=
  match hi with Some h => n <= h | None => True end.

Definition add_opt (a b : option nat) : option nat :=
  match a, b with Some x, Some y => Some (x + y) | _, _ => None end.

Definition max_opt (a b : option nat) : option nat :=
  match a, b with Some x, Some y => Some (Nat.max x y) | _, _ => None end.

Definition mul_opt (a b : option nat) : option nat :=
  match a, b with Some x, Some y => Some (x * y) | _, _ => None end.

(** The greatest number of code units a pattern consumes, when there is
    one. *)
Fixpoint maxlen (r : regex) : option nat :=
  match r with
  | Empty | Bol => Some 0
  | Chr _ => Some 1
  | Seq a b => add_opt (maxlen a) (maxlen b)
  | Alt a b => max_opt (maxlen a) (maxlen b)
  | Group _ a => maxlen a
  | Rep a _ max => mul_opt max (maxlen a)
  end.

(** Every code unit that the pattern can consume passes [p]. *)
Fixpoint chars_in (ic : bool) (p : ascii -> bool) (r : regex) : bool :=
  match r with
  | Empty | Bol => true
  | Chr cs => Spec.every_ascii (fun c => implb (cset_match ic cs c) (p c))
  | Seq a b | Alt a b => chars_in ic p a && chars_in ic p b
  | Group _ a | Rep a _ _ => chars_in ic p a
  end.

(** What a matcher consumes: code units that pass [p], at least [lo] and
    at most [hi] of them. *)
Definition consumes (p : ascii -> bool) (lo : nat) (hi : option nat)
  (m : matcher) : Prop :=
  forall x k z, m x k = Some z ->
    exists y w, k y = Some z /\ rest x = (w ++ rest y)%list /\
      forallb p w = true /\ lo <= List.length w /\ le_opt (List.length w) hi.

(** The pattern inside the group 1 that closes a pattern. *)
Fixpoint group1_body (r : regex) : option regex :=
  match r with
  | Seq _ b => group1_body b
  | Group 1 a => Some a
  | _ => None
  end.

(** The code units of the ids of each platform. *)
Definition youtube_id_unit (c : ascii) : bool :=
  negb (existsb (Nat.eqb (code c)) [34; 38; 63; 47]) && negb (is_space c).

Definition slug_unit (c : ascii) : bool :=
  URL.is_alnum c || (code c =? 95) || (code c =? 45).

Definition id_unit (p : Platform) : ascii -> bool :=
  match p with
  | youtube => youtube_id_unit
  | instagram | linkedin => slug_unit
  | tiktok => URL.is_alnum
  | twitter => ParseInt.is_digit
  | generic => fun _ => false
  end.

(** The bounds on the length of an id. *)
Definition id_length_ok (p : Platform) (n : nat) : Prop :=
  match p with
  | youtube => n = 11
  | _ => 1 <= n
  end.

(** Every pattern of the list closes with a group 1 whose body consumes
    between [lo] and [hi] code units that pass [p]. *)
Definition ids_shaped (p : ascii -> bool) (lo : nat) (hi : option nat)
  (patterns : list RegExp.t) : bool :=
  forallb (fun re =>
    Spec.closes_with_group1 (source re) &&
    match group1_body (source re) with
    | Some a =>
        Spec.wf a && chars_in (ignoreCase re) p a && (lo <=? Spec.minlen a) &&
        match hi, maxlen a with
        | Some h, Some h' => h' <=? h
        | Some _, None => false
        | None, _ => true
        end
    | None => false
    end) patterns.

End Shape.

Module Units.
Import JSString.

(** What [escapeHtml] makes of one code unit. *)
Definition escape_unit (c : ascii) : string :=
  if Ascii.eqb c "&" then "&amp;"
  else if Ascii.eqb c "<" then "&lt;"
  else if Ascii.eqb c ">" then "&gt;"
  else if code c =? 34 then "&quot;"
  else if Ascii.eqb c "'" then "&#39;"
  else String c "".

(** The code units that open or close markup or an attribute value. *)
Definition markup_unit (c : ascii) : bool :=
  existsb (Nat.eqb (code c)) [60; 62; 34; 39].

(** The UTF-8 encoding of a string of code units below 256. *)
Fixpoint utf8_encode (s : string) : string :=
  match s with
  | EmptyString => EmptyString
  | String c t => URI.utf8_bytes c ++ utf8_encode t
  end.

Definition is_ascii (c : ascii) : bool := code c <? 128.

(** The code units of the output of [encodeURIComponent]. *)
Definition uri_out (c : ascii) : bool := URI.unreserved c || (code c =? 37).

End Units.

Module RouteSpec.
Import JSString Express Routes.


(** The parameter is a string that is not empty. *)
Definition given (v : option QueryValue) (s : string) : Prop :=
  v = Some (QString s) /\ truthy s = true.



(** The number a dimension parameter stands for: none when the parameter
    is missing or empty. *)
Definition parse_dimension (v : option QueryValue) : option JSNumber :=
  match v with
  | Some q => if value_truthy q then Some (ParseInt.parseInt (toString q)) else None
  | None => None
  end.

(** A dimension that a handler accepts: none, or an integer from 1 to
    2000. *)
Definition dimension_ok (n : option JSNumber) : Prop :=
  match n with
  | None => True
  | Some (JSInt z) => (1 <= z <= 2000)%Z
  | Some JSNaN => False
  end.

End RouteSpec.

(* ------------------------------------------------------------------ *)
(** ** Properties of the matcher *)

Module RegExpFacts.
Import RegExp Spec.

(** *** Matchers call their continuation *)

Lemma le_max_pred (min : nat) (max : option nat) :
  le_max min max -> max_is_zero max = false ->
  le_max (pred min) (dec_max max).
Proof.
  destruct max as [[|mx]|]; simpl; intros; try discriminate; lia.
Qed.

Lemma repeat_calls_back (m : matcher) (gs : list nat) (n : nat) :
  calls_back n m ->
  forall fuel min max, le_max min max ->
    calls_back (min * n) (fun x k => repeat m gs fuel min max x k).
Proof.
  intros Hm fuel. induction fuel as [|fuel IH]; intros min max Hle x k z H.
  - discriminate H.
  - simpl in H. destruct (max_is_zero max) eqn:Hz.
    + destruct max as [[|mx]|]; try discriminate Hz. simpl in Hle.
      assert (min = 0) by lia. subst min.
      exists x. split; [exact H | simpl; lia].
    + pose proof (le_max_pred min max Hle Hz) as Hle'.
      destruct min as [|min']; simpl in H.
      * destruct (m (reset_caps gs x) _) as [z'|] eqn:Hrun.
        -- injection H as <-.
           apply Hm in Hrun. destruct Hrun as (y & Hd & Hlen).
           destruct (endIndex y =? endIndex x); [discriminate Hd|].
           apply (IH 0 (dec_max max) Hle') in Hd.
           destruct Hd as (y' & Hk & Hlen').
           exists y'. split; [exact Hk|]. simpl in *. lia.
        -- exists x. split; [exact H | simpl; lia].
      * apply Hm in H. destruct H as (y & Hd & Hlen).
        apply (IH min' (dec_max max) Hle') in Hd.
        destruct Hd as (y' & Hk & Hlen').
        exists y'. split; [exact Hk|]. simpl in *. lia.
Qed.

Lemma run_calls_back (ic : bool) (r : regex) :
  wf r = true -> calls_back (minlen r) (run ic r).
Proof.
  induction r as [|cs| |a IHa b IHb|a IHa b IHb|n a IHa|a IHa min max];
    intros Hwf x k z H; [simpl in *..|simpl in Hwf |- *].
  - exists x. split; [exact H | lia].
  - destruct (rest x) as [|c tl] eqn:Hx; [discriminate H|].
    destruct (cset_match ic cs c); [|discriminate H].
    eexists. split; [exact H|]. simpl. lia.
  - destruct (endIndex x =? 0); [|discriminate H].
    exists x. split; [exact H | lia].
  - apply andb_prop in Hwf. destruct Hwf as [Ha Hb].
    apply (IHa Ha) in H. destruct H as (y & H & Hlen).
    apply (IHb Hb) in H. destruct H as (y' & H & Hlen').
    exists y'. split; [exact H | lia].
  - apply andb_prop in Hwf. destruct Hwf as [Ha Hb].
    destruct (run ic a x k) as [z'|] eqn:Hrun.
    + injection H as <-. apply (IHa Ha) in Hrun.
      destruct Hrun as (y & Hk & Hlen). exists y. split; [exact Hk | lia].
    + apply (IHb Hb) in H.
      destruct H as (y & Hk & Hlen). exists y. split; [exact Hk | lia].
  - apply (IHa Hwf) in H. destruct H as (y & H & Hlen).
    eexists. split; [exact H|]. simpl. lia.
  - apply andb_prop in Hwf. destruct Hwf as [Hle Ha].
    assert (Hle' : le_max min max).
    { destruct max as [mx|]; simpl in *; [apply Nat.leb_le; exact Hle | exact I]. }
    exact (repeat_calls_back (run ic a) (groups a) (minlen a) (IHa Ha)
             _ min max Hle' x k z H).
Qed.

Lemma length_string_of_list_ascii (l : list ascii) :
  String.length (string_of_list_ascii l) = List.length l.
Proof. induction l as [|c l IH]; simpl; [reflexivity | now rewrite IH]. Qed.

Lemma slice_length (x y : mstate) :
  String.length (slice x y) = List.length (rest x) - List.length (rest y).
Proof.
  unfold slice. rewrite length_string_of_list_ascii, length_firstn. lia.
Qed.

Lemma truthy_length (s : string) : 0 < String.length s -> JSString.truthy s = true.
Proof. destruct s; simpl; [lia | reflexivity]. Qed.

Lemma run_group1 (ic : bool) (r : regex) :
  closes_with_group1 r = true ->
  forall x z, run ic r x (fun y => Some y) = Some z ->
    exists id, get_cap 1 (caps z) = Some id /\ JSString.truthy id = true.
Proof.
  induction r as [|cs| |a IHa b IHb|a IHa b IHb|n a IHa|a IHa min max];
    intros Hc x z H; simpl in Hc; try discriminate Hc.
  - apply andb_prop in Hc. destruct Hc as [Ha Hb]. simpl in H.
    apply (run_calls_back ic a Ha) in H. destruct H as (y & H & _).
    exact (IHb Hb y z H).
  - destruct n as [|[|n]]; try discriminate Hc.
    apply andb_prop in Hc. destruct Hc as [Ha Hlen]. simpl in H.
    apply (run_calls_back ic a Ha) in H. destruct H as (y & H & Hy).
    injection H as <-. exists (slice x y). split; [reflexivity|].
    apply truthy_length. rewrite slice_length.
    apply Nat.ltb_lt in Hlen. lia.
Qed.

Lemma exec_from_group1 (re : RegExp.t) (l : list ascii) :
  closes_with_group1 (source re) = true ->
  forall i m, exec_from re i l = Some m ->
    exists id, group 1 m = Some id /\ JSString.truthy id = true.
Proof.
  intros Hc. induction l as [|c l IH]; intros i m H; simpl in H.
  - destruct (run _ _ _ _) as [y|] eqn:Hrun; [|discriminate H].
    injection H as <-. exact (run_group1 _ _ Hc _ _ Hrun).
  - destruct (run _ _ _ _) as [y|] eqn:Hrun.
    + injection H as <-. exact (run_group1 _ _ Hc _ _ Hrun).
    + exact (IH _ _ H).
Qed.

(** A match of such a pattern has a non-empty [m[1]]. *)
Lemma exec_group1 (re : RegExp.t) (s : string) (m : result) :
  closes_with_group1 (source re) = true ->
  exec re s = Some m ->
  exists id, group 1 m = Some id /\ JSString.truthy id = true.
Proof. intros Hc H. exact (exec_from_group1 re _ Hc 0 m H). Qed.

Lemma test_exec (re : RegExp.t) (s : string) :
  test re s = true <-> exists m, exec re s = Some m.
Proof.
  unfold test. destruct (exec re s) as [m|]; split; intro H.
  - now exists m.
  - reflexivity.
  - discriminate H.
  - destruct H as [m H]. discriminate H.
Qed.

Lemma reach_refl (x : mstate) : reach x x.
Proof. unfold reach. lia. Qed.

Lemma reach_trans (x y z : mstate) : reach x y -> reach y z -> reach x z.
Proof. unfold reach. lia. Qed.

Lemma reach_reset (gs : list nat) (x y : mstate) :
  reach (reset_caps gs x) y -> reach x y.
Proof. unfold reach. simpl. lia. Qed.

Lemma repeat_local (m : matcher) (gs : list nat) :
  local m -> forall fuel min max, local (fun x k => repeat m gs fuel min max x k).
Proof.
  intros Hm fuel. induction fuel as [|fuel IH]; intros min max x k1 k2 Hk.
  - reflexivity.
  - simpl. rewrite (Hk x (reach_refl x)).
    assert (Hd : m (reset_caps gs x)
                   (fun y => if (min =? 0) && (endIndex y =? endIndex x) then None
                             else repeat m gs fuel (pred min) (dec_max max) y k1)
               = m (reset_caps gs x)
                   (fun y => if (min =? 0) && (endIndex y =? endIndex x) then None
                             else repeat m gs fuel (pred min) (dec_max max) y k2)).
    { apply Hm. intros y Hy.
      destruct ((min =? 0) && (endIndex y =? endIndex x)); [reflexivity|].
      apply IH. intros y' Hy'. apply Hk.
      exact (reach_trans _ _ _ (reach_reset _ _ _ Hy) Hy'). }
    rewrite Hd. reflexivity.
Qed.

Lemma run_local (ic : bool) (r : regex) : local (run ic r).
Proof.
  induction r as [|cs| |a IHa b IHb|a IHa b IHb|n a IHa|a IHa min max];
    intros x k1 k2 Hk; [simpl..|].
  - apply Hk, reach_refl.
  - destruct (rest x) as [|c tl] eqn:Hx; [reflexivity|].
    destruct (cset_match ic cs c); [|reflexivity].
    apply Hk. unfold reach. simpl. rewrite Hx. simpl. lia.
  - destruct (endIndex x =? 0); [apply Hk, reach_refl | reflexivity].
  - apply IHa. intros y Hy. apply IHb. intros y' Hy'.
    apply Hk. exact (reach_trans _ _ _ Hy Hy').
  - rewrite (IHa x k1 k2 Hk), (IHb x k1 k2 Hk). reflexivity.
  - apply IHa. intros y Hy. apply Hk. unfold reach in *. simpl. exact Hy.
  - exact (repeat_local (run ic a) (groups a) IHa _ min max x k1 k2 Hk).
Qed.

(** More fuel than [min] and the input left changes nothing: the answer of
    [run] for a quantifier is the answer of RepeatMatcher. *)
Lemma repeat_fuel (m : matcher) (gs : list nat) :
  local m ->
  forall f1 f2 min max x k,
    min + List.length (rest x) < f1 -> min + List.length (rest x) < f2 ->
    repeat m gs f1 min max x k = repeat m gs f2 min max x k.
Proof.
  intros Hm f1. induction f1 as [|f1 IH]; intros f2 min max x k H1 H2; [lia|].
  destruct f2 as [|f2]; [lia|]. simpl.
  destruct (max_is_zero max); [reflexivity|].
  assert (Hd : m (reset_caps gs x)
                 (fun y => if (min =? 0) && (endIndex y =? endIndex x) then None
                           else repeat m gs f1 (pred min) (dec_max max) y k)
             = m (reset_caps gs x)
                 (fun y => if (min =? 0) && (endIndex y =? endIndex x) then None
                           else repeat m gs f2 (pred min) (dec_max max) y k)).
  { apply Hm. intros y Hy. apply reach_reset in Hy. destruct Hy as [Hy1 Hy2].
    destruct (min =? 0) eqn:Hmin; simpl.
    - destruct (endIndex y =? endIndex x) eqn:He; [reflexivity|].
      apply Nat.eqb_eq in Hmin. apply Nat.eqb_neq in He. subst min.
      apply IH; simpl in *; lia.
    - apply Nat.eqb_neq in Hmin. apply IH; lia. }
  rewrite Hd. reflexivity.
Qed.

End RegExpFacts.

(* ------------------------------------------------------------------ *)
(** ** Properties of detection and id extraction *)

Module URLParserFacts.
Import RegExp Spec RegExpFacts URLPatterns URLParser.

Lemma patterns_closed : platform_patterns_closed.
Proof.
  intros p Hp. destruct p; try (exfalso; apply Hp; reflexivity);
    repeat constructor.
Qed.

Lemma detectPlatform_unfold (url : string) :
  detectPlatform url =
    if any_test (patterns_of youtube) url then youtube
    else if any_test (patterns_of instagram) url then instagram
    else if any_test (patterns_of tiktok) url then tiktok
    else if any_test (patterns_of linkedin) url then linkedin
    else if any_test (patterns_of twitter) url then twitter
    else generic.
Proof. reflexivity. Qed.

Lemma any_test_first_matching (patterns : list RegExp.t) (url : string) :
  any_test patterns url = true ->
  exists re, first_matching patterns url = Some re /\ test re url = true.
Proof.
  unfold any_test, first_matching.
  induction patterns as [|re tl IH]; simpl; intro H; [discriminate H|].
  destruct (test re url) eqn:Ht.
  - exists re. split; [reflexivity | exact Ht].
  - exact (IH H).
Qed.

Lemma first_id_first_matching (patterns : list RegExp.t) (url : string) (re : RegExp.t) :
  Forall (fun re => closes_with_group1 (source re) = true) patterns ->
  first_matching patterns url = Some re ->
  exists m id, exec re url = Some m /\ group 1 m = Some id /\
               JSString.truthy id = true /\ first_id patterns url = Some id.
Proof.
  unfold first_matching.
  induction patterns as [|re' tl IH]; simpl; intros Hc H; [discriminate H|].
  inversion Hc as [|? ? Hre Htl]; subst.
  unfold test in H. destruct (exec re' url) as [m|] eqn:He.
  - injection H as <-.
    destruct (exec_group1 _ _ _ Hre He) as (id & Hg & Ht).
    exists m, id. rewrite Hg, Ht. repeat split; assumption.
  - exact (IH Htl H).
Qed.

Lemma only_id_first_matching (re0 : RegExp.t) (url : string) (re : RegExp.t) :
  closes_with_group1 (source re0) = true ->
  first_matching [re0] url = Some re ->
  exists m id, exec re url = Some m /\ group 1 m = Some id /\
               JSString.truthy id = true /\ only_id [re0] url = Some id.
Proof.
  unfold first_matching. simpl. intros Hc H.
  unfold test in H. destruct (exec re0 url) as [m|] eqn:He; [|discriminate H].
  injection H as <-.
  destruct (exec_group1 _ _ _ Hc He) as (id & Hg & Ht).
  exists m, id. rewrite He. repeat split; assumption.
Qed.

(** The id extractor of a platform answers with [m[1]] of the first of
    its patterns that matches. *)
Lemma extractId_first_matching (p : Platform) (url : string) (re : RegExp.t) :
  p <> generic ->
  first_matching (patterns_of p) url = Some re ->
  exists m id, exec re url = Some m /\ group 1 m = Some id /\
               JSString.truthy id = true /\ extractId p url = Some id.
Proof.
  intros Hp H. pose proof (patterns_closed p Hp) as Hc.
  destruct p; try (exfalso; apply Hp; reflexivity).
  - exact (first_id_first_matching _ _ _ Hc H).
  - inversion Hc as [|? ? Hre _]; subst. exact (only_id_first_matching _ _ _ Hre H).
  - exact (first_id_first_matching _ _ _ Hc H).
  - exact (first_id_first_matching _ _ _ Hc H).
  - inversion Hc as [|? ? Hre _]; subst. exact (only_id_first_matching _ _ _ Hre H).
Qed.

Lemma detectPlatform_first (p : Platform) (url : string) :
  p <> generic ->
  any_test (patterns_of p) url = true ->
  (forall q, rank q < rank p -> any_test (patterns_of q) url = false) ->
  detectPlatform url = p.
Proof.
  intros Hp Hm Hq. rewrite detectPlatform_unfold.
  destruct p; try (exfalso; apply Hp; reflexivity);
    repeat match goal with
    | |- (if any_test (patterns_of ?q) url then _ else _) = ?p =>
        first [ rewrite Hm; reflexivity
              | rewrite (Hq q) by (unfold rank; simpl; lia) ]
    end.
Qed.

End URLParserFacts.

(* ------------------------------------------------------------------ *)
(** ** Properties of the form-urlencoded codec *)

Module URLFacts.
Import JSString URL Spec.

Lemma every_ascii_spec (P : ascii -> bool) :
  every_ascii P = true -> forall c, P c = true.
Proof.
  unfold every_ascii. intros H c.
  rewrite forallb_forall in H. apply H.
  rewrite <- (ascii_nat_embedding c). apply in_map, in_seq.
  pose proof (nat_ascii_bounded c). lia.
Qed.

Lemma implb_spec (P Q : ascii -> bool) :
  every_ascii (fun c => implb (P c) (Q c)) = true ->
  forall c, P c = true -> Q c = true.
Proof.
  intros H c Hc. pose proof (every_ascii_spec _ H c) as Hi. simpl in Hi.
  rewrite Hc in Hi. exact Hi.
Qed.

Lemma all_chars_app (p : ascii -> bool) (a b : string) :
  all_chars p (a ++ b) = all_chars p a && all_chars p b.
Proof.
  induction a as [|c a IH]; simpl; [reflexivity|].
  rewrite IH. apply andb_assoc.
Qed.

Lemma all_chars_impl (p q : ascii -> bool) (s : string) :
  (forall c, p c = true -> q c = true) ->
  all_chars p s = true -> all_chars q s = true.
Proof.
  intros Hpq. induction s as [|c s IH]; simpl; [reflexivity|].
  intro H. apply andb_prop in H. destruct H as [Hc Hs].
  rewrite (Hpq c Hc), (IH Hs). reflexivity.
Qed.

Lemma form_encode_byte_out (b : ascii) :
  all_chars form_out (form_encode_byte b) = true.
Proof.
  revert b. apply every_ascii_spec. vm_compute. reflexivity.
Qed.

Lemma form_encode_out (s : string) : all_chars form_out (form_encode s) = true.
Proof.
  induction s as [|b s IH]; simpl; [reflexivity|].
  rewrite all_chars_app, form_encode_byte_out, IH. reflexivity.
Qed.

Lemma decode_encode_byte (b : ascii) (rest : string) :
  percent_decode (plus_to_space (form_encode_byte b ++ rest))
  = String b (percent_decode (plus_to_space rest)).
Proof. destruct b as [[] [] [] [] [] [] [] []]; reflexivity. Qed.

Lemma decode_encode (s : string) :
  percent_decode (plus_to_space (form_encode s)) = s.
Proof.
  induction s as [|b s IH]; simpl; [reflexivity|].
  rewrite decode_encode_byte, IH. reflexivity.
Qed.

(** *** [utf8_scrub] is idempotent *)

Lemma utf8_scrub_cons (b : ascii) (t : string) :
  utf8_scrub (String b t) =
    if code b <? 128 then String b (utf8_scrub t)
    else
      match utf8_lead b with
      | None => replacement ++ utf8_scrub t
      | Some (needed, (lo, hi)) =>
          match t with
          | EmptyString => replacement
          | String c1 t1 =>
              if negb (between lo hi c1) then replacement ++ utf8_scrub t
              else if needed =? 1 then String b (String c1 (utf8_scrub t1))
              else
                match t1 with
                | EmptyString => replacement
                | String c2 t2 =>
                    if negb (cont c2) then replacement ++ utf8_scrub t1
                    else if needed =? 2
                    then String b (String c1 (String c2 (utf8_scrub t2)))
                    else
                      match t2 with
                      | EmptyString => replacement
                      | String c3 t3 =>
                          if negb (cont c3) then replacement ++ utf8_scrub t2
                          else String b (String c1 (String c2 (String c3 (utf8_scrub t3))))
                      end
                end
          end
      end.
Proof. reflexivity. Qed.

Lemma utf8_scrub_replacement (rest : string) :
  utf8_scrub (replacement ++ rest) = replacement ++ utf8_scrub rest.
Proof. reflexivity. Qed.

Lemma utf8_scrub_idem_bounded (n : nat) :
  forall s, String.length s <= n -> utf8_scrub (utf8_scrub s) = utf8_scrub s.
Proof.
  induction n as [|n IH]; intros s Hlen.
  - destruct s; [reflexivity | simpl in Hlen; lia].
  - destruct s as [|b t]; [reflexivity|]. simpl in Hlen.
    rewrite (utf8_scrub_cons b t).
    destruct (code b <? 128) eqn:Hb.
    { rewrite utf8_scrub_cons, Hb. f_equal. apply IH. lia. }
    destruct (utf8_lead b) as [[needed [lo hi]]|] eqn:Hl.
    2:{ rewrite utf8_scrub_replacement. f_equal. apply IH. lia. }
    destruct t as [|c1 t1]; [reflexivity|]. simpl in Hlen.
    destruct (between lo hi c1) eqn:Hc1; simpl negb; cbv iota.
    2:{ rewrite utf8_scrub_replacement. f_equal. apply IH. simpl. lia. }
    destruct (needed =? 1) eqn:Hn1.
    { rewrite utf8_scrub_cons, Hb, Hl, Hc1. simpl negb. cbv iota. rewrite Hn1.
      do 2 f_equal. apply IH. lia. }
    destruct t1 as [|c2 t2]; [reflexivity|]. simpl in Hlen.
    destruct (cont c2) eqn:Hc2; simpl negb; cbv iota.
    2:{ rewrite utf8_scrub_replacement. f_equal. apply IH. simpl. lia. }
    destruct (needed =? 2) eqn:Hn2.
    { rewrite utf8_scrub_cons, Hb, Hl, Hc1. simpl negb. cbv iota.
      rewrite Hn1, Hc2. simpl negb. cbv iota. rewrite Hn2.
      do 3 f_equal. apply IH. lia. }
    destruct t2 as [|c3 t3]; [reflexivity|]. simpl in Hlen.
    destruct (cont c3) eqn:Hc3; simpl negb; cbv iota.
    2:{ rewrite utf8_scrub_replacement. f_equal. apply IH. simpl. lia. }
    rewrite utf8_scrub_cons, Hb, Hl, Hc1. simpl negb. cbv iota.
    rewrite Hn1, Hc2. simpl negb. cbv iota. rewrite Hn2, Hc3. simpl negb. cbv iota.
    do 4 f_equal. apply IH. lia.
Qed.

Lemma utf8_scrub_idem (s : string) : utf8_scrub (utf8_scrub s) = utf8_scrub s.
Proof. exact (utf8_scrub_idem_bounded (String.length s) s (le_n _)). Qed.

(** *** Splitting what was joined *)

Lemma split_first_app (c : ascii) (n v : string) :
  all_chars (is_not c) n = true ->
  split_first c (n ++ String c v) = (n, Some v).
Proof.
  induction n as [|a n IH]; simpl; intro H.
  - rewrite Ascii.eqb_refl. reflexivity.
  - apply andb_prop in H. destruct H as [Ha Hn]. unfold is_not in Ha.
    apply negb_true_iff in Ha. rewrite Ha, (IH Hn). reflexivity.
Qed.

Lemma split_on_app (c : ascii) (a rest : string) :
  all_chars (is_not c) a = true ->
  split_on c (a ++ String c rest) = a :: split_on c rest.
Proof.
  induction a as [|x a IH]; simpl; intro H.
  - rewrite Ascii.eqb_refl. reflexivity.
  - apply andb_prop in H. destruct H as [Hx Ha]. unfold is_not in Hx.
    apply negb_true_iff in Hx. rewrite Hx, (IH Ha). reflexivity.
Qed.

Lemma split_on_none (c : ascii) (a : string) :
  all_chars (is_not c) a = true -> split_on c a = [a].
Proof.
  induction a as [|x a IH]; simpl; intro H; [reflexivity|].
  apply andb_prop in H. destruct H as [Hx Ha]. unfold is_not in Hx.
  apply negb_true_iff in Hx. rewrite Hx, (IH Ha). reflexivity.
Qed.

Lemma split_on_join (c : ascii) (l : list string) :
  l <> [] ->
  Forall (fun a => all_chars (is_not c) a = true) l ->
  split_on c (join (String c "") l) = l.
Proof.
  induction l as [|a l IH]; intros Hne Hall; [contradiction|].
  inversion Hall as [|? ? Ha Hl]; subst.
  destruct l as [|b l].
  - simpl. apply split_on_none, Ha.
  - change (join (String c "") (a :: b :: l))
      with (a ++ String c (join (String c "") (b :: l))).
    rewrite (split_on_app c a _ Ha), IH; [reflexivity | discriminate | exact Hl].
Qed.

(** *** Parsing what was serialized *)

Lemma form_out_not_amp (c : ascii) : form_out c = true -> is_not "&" c = true.
Proof. revert c. apply implb_spec. vm_compute. reflexivity. Qed.

Lemma form_out_not_eq (c : ascii) : form_out c = true -> is_not "=" c = true.
Proof. revert c. apply implb_spec. vm_compute. reflexivity. Qed.

Lemma encode_pair_no_amp (p : string * string) :
  all_chars (is_not "&") (encode_pair p) = true.
Proof.
  unfold encode_pair. rewrite all_chars_app. simpl.
  rewrite (all_chars_impl _ _ _ form_out_not_amp (form_encode_out (fst p))).
  rewrite (all_chars_impl _ _ _ form_out_not_amp (form_encode_out (snd p))).
  reflexivity.
Qed.

Lemma encode_pair_truthy (p : string * string) : truthy (encode_pair p) = true.
Proof.
  unfold encode_pair. destruct (form_encode (fst p)); reflexivity.
Qed.

Lemma parse_encode_pair (p : string * string) :
  parse_pair (encode_pair p) = scrub_pair p.
Proof.
  unfold parse_pair, encode_pair.
  change (form_encode (fst p) ++ "=" ++ form_encode (snd p))
    with (form_encode (fst p) ++ String "=" (form_encode (snd p))).
  rewrite split_first_app
    by exact (all_chars_impl _ _ _ form_out_not_eq (form_encode_out (fst p))).
  unfold form_decode. rewrite !decode_encode. reflexivity.
Qed.

Lemma form_serialize_map (l : list (string * string)) :
  form_serialize l = join "&" (map encode_pair l).
Proof. reflexivity. Qed.

Lemma filter_all (A : Type) (f : A -> bool) (l : list A) :
  Forall (fun a => f a = true) l -> filter f l = l.
Proof.
  induction 1 as [|a l Ha _ IH]; simpl; [reflexivity|].
  rewrite Ha, IH. reflexivity.
Qed.

Lemma form_parse_serialize (l : list (string * string)) :
  form_parse (form_serialize l) = map scrub_pair l.
Proof.
  destruct l as [|p l]; [reflexivity|].
  unfold form_parse. rewrite form_serialize_map.
  rewrite split_on_join.
  - rewrite filter_all.
    + rewrite map_map. apply map_ext. exact parse_encode_pair.
    + apply Forall_forall. intros a Ha. apply in_map_iff in Ha.
      destruct Ha as (q & <- & _). apply encode_pair_truthy.
  - discriminate.
  - apply Forall_forall. intros a Ha. apply in_map_iff in Ha.
    destruct Ha as (q & <- & _). apply encode_pair_no_amp.
Qed.

Lemma form_parse_scrubbed (q : string) : scrubbed (form_parse q).
Proof.
  unfold scrubbed, form_parse. apply Forall_forall. intros p Hp.
  apply in_map_iff in Hp. destruct Hp as (sq & <- & _).
  unfold parse_pair. destruct (split_first "=" sq) as [n v].
  unfold scrub_pair, form_decode. simpl. rewrite !utf8_scrub_idem. reflexivity.
Qed.

Lemma initial_list_scrubbed (r : URL.t) : scrubbed (initial_list r).
Proof.
  unfold initial_list. destruct (query r); [apply form_parse_scrubbed | constructor].
Qed.

Lemma scrubbed_filter (f : string * string -> bool) (l : list (string * string)) :
  scrubbed l -> scrubbed (filter f l).
Proof.
  unfold scrubbed. rewrite !Forall_forall. intros H p Hp.
  apply filter_In in Hp. apply H, Hp.
Qed.

Lemma form_parse_serialize_scrubbed (l : list (string * string)) :
  scrubbed l -> form_parse (form_serialize l) = l.
Proof.
  intro H. rewrite form_parse_serialize.
  induction H as [|p l Hp _ IH]; simpl; [reflexivity|].
  rewrite Hp, IH. reflexivity.
Qed.

Lemma form_serialize_truthy (l : list (string * string)) :
  truthy (form_serialize l) = negb (match l with [] => true | _ => false end).
Proof.
  destruct l as [|p [|q l]]; [reflexivity | |].
  - unfold form_serialize. simpl. destruct (form_encode (fst p)); reflexivity.
  - unfold form_serialize. simpl. destruct (form_encode (fst p)); reflexivity.
Qed.

(** After an update the query object would start with the same list. *)
Lemma initial_list_update (l : list (string * string)) (r : URL.t) :
  scrubbed l -> initial_list (update l r) = l.
Proof.
  intro H. unfold initial_list, update. simpl.
  rewrite form_serialize_truthy. destruct l as [|p l]; simpl; [reflexivity|].
  apply (form_parse_serialize_scrubbed (p :: l) H).
Qed.

End URLFacts.

(* ------------------------------------------------------------------ *)
(** ** Properties of [normalizeUrl] *)

Module NormalizeFacts.
Import JSString URL Spec URLFacts URLParser.

Lemma append_assoc (a b c : string) : (a ++ b) ++ c = a ++ (b ++ c).
Proof. induction a as [|x a IH]; simpl; [reflexivity | now rewrite IH]. Qed.

Lemma append_nil_r (a : string) : a ++ "" = a.
Proof. induction a as [|x a IH]; simpl; [reflexivity | now rewrite IH]. Qed.

Lemma startsWith_append (p s : string) : startsWith (p ++ s) p = true.
Proof.
  induction p as [|c p IH]; simpl; [reflexivity|].
  rewrite Ascii.eqb_refl. exact IH.
Qed.

Lemma with_protocol_cases (url : string) :
  (with_protocol url = url /\
   (startsWith url "http://" = true \/ startsWith url "https://" = true)) \/
  (with_protocol url = "https://" ++ url /\
   startsWith url "http://" = false /\ startsWith url "https://" = false).
Proof.
  unfold with_protocol.
  destruct (startsWith url "http://"), (startsWith url "https://"); simpl; auto.
Qed.

Lemma with_protocol_starts (url : string) :
  startsWith (with_protocol url) "http://" = true \/
  startsWith (with_protocol url) "https://" = true.
Proof.
  destruct (with_protocol_cases url) as [[-> H]|[-> _]]; [exact H|].
  right. exact (startsWith_append "https://" url).
Qed.

Lemma with_protocol_fixed (url : string) :
  startsWith url "http://" = true \/ startsWith url "https://" = true ->
  with_protocol url = url.
Proof.
  unfold with_protocol. intros [-> | ->]; simpl; [reflexivity|].
  rewrite andb_false_r. reflexivity.
Qed.

Lemma with_protocol_idem (url : string) :
  with_protocol (with_protocol url) = with_protocol url.
Proof. apply with_protocol_fixed, with_protocol_starts. Qed.

Lemma update_update (l1 l2 : list (string * string)) (r : URL.t) :
  update l2 (update l1 r) = update l2 r.
Proof. reflexivity. Qed.

Lemma kept_cons (name : string) (names : list string) (l : list (string * string)) :
  kept names (filter (fun p => negb (String.eqb (fst p) name)) l)
  = kept (name :: names) l.
Proof.
  unfold kept. induction l as [|p l IH]; simpl; [reflexivity|].
  destruct (String.eqb (fst p) name); simpl; [exact IH|].
  destruct (existsb (String.eqb (fst p)) names); simpl; [exact IH|].
  rewrite IH. reflexivity.
Qed.

Lemma kept_nil (l : list (string * string)) : kept [] l = l.
Proof. unfold kept. simpl. apply filter_all, Forall_forall. reflexivity. Qed.

Lemma fold_delete (names : list string) :
  forall (name : string) (o : URL.obj),
    fold_left (fun o param => searchParams_delete param o) (name :: names) o
    = mkobj (update (kept (name :: names) (pairs o)) (record o))
            (kept (name :: names) (pairs o)).
Proof.
  induction names as [|name' names IH]; intros name o.
  - simpl. rewrite <- kept_cons, kept_nil. reflexivity.
  - change (fold_left _ (name :: name' :: names) o)
      with (fold_left (fun o param => searchParams_delete param o) (name' :: names)
              (searchParams_delete name o)).
    rewrite IH. simpl pairs. simpl record.
    rewrite update_update, kept_cons. reflexivity.
Qed.

Lemma remove_tracking_eq (o : URL.obj) :
  remove_tracking o
  = mkobj (update (kept trackingParams (pairs o)) (record o))
          (kept trackingParams (pairs o)).
Proof. apply fold_delete. Qed.

Lemma kept_idem (names : list string) (l : list (string * string)) :
  kept names (kept names l) = kept names l.
Proof.
  unfold kept. apply filter_all, Forall_forall.
  intros p Hp. apply filter_In in Hp. apply Hp.
Qed.

Lemma kept_scrubbed (names : list string) (l : list (string * string)) :
  scrubbed l -> scrubbed (kept names l).
Proof. apply scrubbed_filter. Qed.

(** A serialized [http] or [https] URL starts with its protocol. *)
Lemma toString_starts (r : URL.t) :
  URL.scheme r = "http" \/ URL.scheme r = "https" -> URL.host r <> None ->
  startsWith (toString r) "http://" = true \/
  startsWith (toString r) "https://" = true.
Proof.
  intros Hs Hh. unfold toString.
  destruct (URL.host r) as [h|]; [|contradiction].
  destruct Hs as [-> | ->]; [left | right]; reflexivity.
Qed.

Section WithURL.
Context `{URLLaws}.

Lemma parsed_scheme (s : string) (r : URL.t) :
  URL_parse (with_protocol s) None = Some r ->
  (URL.scheme r = "http" \/ URL.scheme r = "https") /\ URL.host r <> None.
Proof.
  intro Hp. destruct (with_protocol_starts s) as [Hs|Hs].
  - destruct (parse_http _ _ Hp Hs) as [-> Hh]. auto.
  - destruct (parse_https _ _ Hp Hs) as [-> Hh]. auto.
Qed.

(** What [normalizeUrl] returns when the URL parses. *)
Lemma normalizeUrl_parsed (url : string) (r : URL.t) :
  URL_parse (with_protocol url) None = Some r ->
  normalizeUrl url = toString (update (kept trackingParams (initial_list r)) r).
Proof.
  intro Hp. unfold normalizeUrl, new_URL. rewrite Hp. simpl.
  rewrite remove_tracking_eq. reflexivity.
Qed.

Lemma normalizeUrl_failed (url : string) :
  URL_parse (with_protocol url) None = None ->
  normalizeUrl url = with_protocol url.
Proof. intro Hp. unfold normalizeUrl, new_URL. rewrite Hp. reflexivity. Qed.

End WithURL.
End NormalizeFacts.

(* ------------------------------------------------------------------ *)
(** ** The reference URL parser meets what is assumed *)

Module ReferenceFacts.
Import JSString URL Spec URLFacts NormalizeFacts Reference.

Lemma split_first_none (c : ascii) (s : string) :
  all_chars (is_not c) s = true -> split_first c s = (s, None).
Proof.
  induction s as [|a s IH]; simpl; intro H; [reflexivity|].
  apply andb_prop in H. destruct H as [Ha Hs]. unfold is_not in Ha.
  apply negb_true_iff in Ha. rewrite Ha, (IH Hs). reflexivity.
Qed.

Lemma host_char_plain (c : ascii) :
  host_char c = true ->
  is_not "#" c = true /\ is_not "?" c = true /\ is_not "/" c = true.
Proof.
  intro H.
  assert (Hb : (is_not "#" c && is_not "?" c && is_not "/" c)%bool = true).
  { revert c H. apply implb_spec. vm_compute. reflexivity. }
  apply andb_prop in Hb. destruct Hb as [Hb H3].
  apply andb_prop in Hb. destruct Hb as [H1 H2]. auto.
Qed.

Lemma path_char_plain (c : ascii) :
  path_char c = true -> is_not "#" c = true /\ is_not "?" c = true.
Proof.
  intro H.
  assert (Hb : (is_not "#" c && is_not "?" c)%bool = true).
  { revert c H. apply implb_spec. vm_compute. reflexivity. }
  apply andb_prop in Hb. exact Hb.
Qed.

Lemma query_char_plain (c : ascii) : query_char c = true -> is_not "#" c = true.
Proof. revert c. apply implb_spec. vm_compute. reflexivity. Qed.

Lemma form_out_query_char (c : ascii) : form_out c = true -> query_char c = true.
Proof. revert c. apply implb_spec. vm_compute. reflexivity. Qed.

Lemma valid_host_chars (h : string) :
  valid_host h = true -> all_chars host_char h = true.
Proof.
  unfold valid_host. intro H.
  repeat (apply andb_prop in H; destruct H as [H ?]). assumption.
Qed.

Lemma valid_path_chars (p : string) :
  valid_path p = true -> all_chars path_char p = true.
Proof. unfold valid_path. intro H. apply andb_prop in H. apply H. Qed.

Lemma parse_after_inv (scheme rest : string) (r : URL.t) :
  parse_after scheme rest = Some r ->
  exists c, valid c = true /\ r = to_record scheme c.
Proof.
  unfold parse_after.
  destruct (split_first "#" rest) as [bf f].
  destruct (split_first "?" bf) as [bq q].
  destruct (split_first "/" bq) as [h p].
  destruct (valid_host h && _ && _ && _) eqn:Hv; [|discriminate].
  intro H. injection H as <-.
  exists (mkcomp h (or_empty p) q f). split; [exact Hv | reflexivity].
Qed.

Lemma opt_no_hash (q : option string) :
  valid_opt query_char q = true ->
  all_chars (is_not "#") (opt_prefixed "?" q) = true.
Proof.
  destruct q as [q|]; simpl; [|reflexivity]. intro H.
  exact (all_chars_impl _ _ _ query_char_plain H).
Qed.

Lemma parse_after_build (scheme : string) (c : components) :
  valid c = true ->
  parse_after scheme (after_scheme c) = Some (to_record scheme c).
Proof.
  destruct c as [h p q f]. unfold valid, after_scheme, to_record. simpl.
  intro Hv. pose proof Hv as Hv'.
  apply andb_prop in Hv. destruct Hv as [Hv Hf].
  apply andb_prop in Hv. destruct Hv as [Hv Hq].
  apply andb_prop in Hv. destruct Hv as [Hh Hp].
  pose proof (valid_host_chars _ Hh) as Hhc.
  pose proof (valid_path_chars _ Hp) as Hpc.
  change (all_chars path_char (String "/" p))
    with (path_char "/" && all_chars path_char p)%bool in Hpc.
  apply andb_prop in Hpc. destruct Hpc as [_ Hpc].
  assert (Hh1 : all_chars (is_not "#") h = true)
    by exact (all_chars_impl _ _ _ (fun c H => proj1 (host_char_plain c H)) Hhc).
  assert (Hh2 : all_chars (is_not "?") h = true)
    by exact (all_chars_impl _ _ _ (fun c H => proj1 (proj2 (host_char_plain c H))) Hhc).
  assert (Hh3 : all_chars (is_not "/") h = true)
    by exact (all_chars_impl _ _ _ (fun c H => proj2 (proj2 (host_char_plain c H))) Hhc).
  assert (Hp1 : all_chars (is_not "#") p = true)
    by exact (all_chars_impl _ _ _ (fun c H => proj1 (path_char_plain c H)) Hpc).
  assert (Hp2 : all_chars (is_not "?") p = true)
    by exact (all_chars_impl _ _ _ (fun c H => proj2 (path_char_plain c H)) Hpc).
  unfold parse_after.
  (* the fragment *)
  assert (Hsf : split_first "#"
                  (h ++ String "/" (p ++ opt_prefixed "?" q ++ opt_prefixed "#" f))
                = (h ++ String "/" (p ++ opt_prefixed "?" q), f)).
  { assert (Hpre : all_chars (is_not "#") (h ++ String "/" (p ++ opt_prefixed "?" q)) = true).
    { rewrite all_chars_app. simpl. rewrite all_chars_app, Hh1, Hp1, (opt_no_hash q Hq).
      reflexivity. }
    destruct f as [f|]; simpl opt_prefixed.
    - replace (h ++ String "/" (p ++ opt_prefixed "?" q ++ String "#" f))
        with ((h ++ String "/" (p ++ opt_prefixed "?" q)) ++ String "#" f).
      + apply split_first_app, Hpre.
      + rewrite append_assoc. simpl. rewrite append_assoc. reflexivity.
    - rewrite append_nil_r. apply split_first_none, Hpre. }
  rewrite Hsf.
  (* the query *)
  assert (Hsq : split_first "?" (h ++ String "/" (p ++ opt_prefixed "?" q))
                = (h ++ String "/" p, q)).
  { assert (Hpre : all_chars (is_not "?") (h ++ String "/" p) = true).
    { rewrite all_chars_app. simpl. rewrite Hh2, Hp2. reflexivity. }
    destruct q as [q|]; simpl opt_prefixed.
    - replace (h ++ String "/" (p ++ String "?" q))
        with ((h ++ String "/" p) ++ String "?" q).
      + apply split_first_app, Hpre.
      + rewrite append_assoc. reflexivity.
    - rewrite append_nil_r. apply split_first_none, Hpre. }
  rewrite Hsq.
  rewrite (split_first_app "/" h p Hh3). simpl or_empty.
  simpl in Hv'. rewrite Hv'. reflexivity.
Qed.

Lemma toString_record (scheme : string) (c : components) :
  toString (to_record scheme c) = scheme ++ "://" ++ after_scheme c.
Proof.
  unfold toString, to_record, after_scheme, credentials. simpl.
  rewrite append_nil_r. reflexivity.
Qed.

Lemma valid_update (l : list (string * string)) (scheme : string) (c : components) :
  valid c = true ->
  exists c', valid c' = true /\ update l (to_record scheme c) = to_record scheme c'.
Proof.
  intro Hv.
  exists (mkcomp (c_host c) (c_path c)
            (if truthy (form_serialize l) then Some (form_serialize l) else None)
            (c_fragment c)).
  split; [|reflexivity].
  unfold valid in *. simpl.
  apply andb_prop in Hv. destruct Hv as [Hv Hf].
  apply andb_prop in Hv. destruct Hv as [Hv _].
  rewrite Hv, Hf. rewrite andb_true_r. simpl.
  destruct (truthy (form_serialize l)); [|reflexivity]. simpl.
  unfold form_serialize.
  assert (Hj : forall ss, Forall (fun a => all_chars query_char a = true) ss ->
                          all_chars query_char (join "&" ss) = true).
  { induction ss as [|a ss IH]; intro Hall; [reflexivity|].
    inversion Hall as [|? ? Ha Hss]; subst.
    destruct ss as [|b ss]; [exact Ha|].
    change (join "&" (a :: b :: ss)) with (a ++ "&" ++ join "&" (b :: ss)).
    rewrite all_chars_app, Ha. simpl. exact (IH Hss). }
  apply Hj, Forall_forall. intros a Ha. apply in_map_iff in Ha.
  destruct Ha as (p & <- & _). rewrite !all_chars_app. simpl.
  rewrite (all_chars_impl _ _ _ form_out_query_char (form_encode_out (fst p))).
  rewrite (all_chars_impl _ _ _ form_out_query_char (form_encode_out (snd p))).
  reflexivity.
Qed.

Lemma parse_none (input : string) : parse input None = parse_absolute input.
Proof. unfold parse. destruct (parse_absolute input); reflexivity. Qed.

Lemma startsWith_cons_inv (s p : string) (a : ascii) :
  startsWith s (String a p) = true ->
  exists s', s = String a s' /\ startsWith s' p = true.
Proof.
  destruct s as [|b s]; simpl; intro H; [discriminate H|].
  apply andb_prop in H. destruct H as [Hab Hs].
  apply Ascii.eqb_eq in Hab. subst b. exists s. auto.
Qed.

Lemma https_not_http (s : string) :
  startsWith s "http://" = true -> startsWith s "https://" = false.
Proof.
  intro H.
  do 5 (apply startsWith_cons_inv in H; destruct H as (? & -> & H)).
  reflexivity.
Qed.

Lemma parse_absolute_inv (s : string) (r : URL.t) :
  parse_absolute s = Some r ->
  exists scheme c, valid c = true /\ r = to_record scheme c /\
    ((scheme = "https" /\ startsWith s "https://" = true) \/
     (scheme = "http" /\ startsWith s "https://" = false)).
Proof.
  unfold parse_absolute.
  destruct (startsWith s "https://") eqn:Hs.
  - intro H. apply parse_after_inv in H. destruct H as (c & Hv & ->).
    exists "https", c. auto.
  - destruct (startsWith s "http://") eqn:Hs'; [|discriminate].
    intro H. apply parse_after_inv in H. destruct H as (c & Hv & ->).
    exists "http", c. auto.
Qed.

Lemma parse_absolute_build (scheme : string) (c : components) :
  scheme = "http" \/ scheme = "https" -> valid c = true ->
  parse_absolute (toString (to_record scheme c)) = Some (to_record scheme c).
Proof.
  intros Hs Hv. rewrite toString_record.
  destruct Hs as [-> | ->]; unfold parse_absolute; simpl;
    exact (parse_after_build _ c Hv).
Qed.

#[export] Instance url_laws : URLLaws.
Proof.
  split.
  - intros s r Hp Hs. simpl in Hp. rewrite parse_none in Hp.
    apply parse_absolute_inv in Hp.
    destruct Hp as (scheme & c & _ & -> & [[-> Hs'] | [-> Hs']]).
    + rewrite (https_not_http s Hs) in Hs'. discriminate Hs'.
    + split; [reflexivity | discriminate].
  - intros s r Hp Hs. simpl in Hp. rewrite parse_none in Hp.
    apply parse_absolute_inv in Hp.
    destruct Hp as (scheme & c & _ & -> & [[-> Hs'] | [-> Hs']]).
    + split; [reflexivity | discriminate].
    + rewrite Hs in Hs'. discriminate Hs'.
  - intros s r l Hp _. simpl in Hp |- *. rewrite parse_none in Hp |- *.
    apply parse_absolute_inv in Hp.
    destruct Hp as (scheme & c & Hv & -> & Hs).
    destruct (valid_update l scheme c Hv) as (c' & Hv' & ->).
    apply (parse_absolute_build scheme c'); [|exact Hv'].
    destruct Hs as [[-> _] | [-> _]]; auto.
Qed.

End ReferenceFacts.

(* ------------------------------------------------------------------ *)
(** ** Properties of the extractors *)

Module ExtractorFacts.
Import JSString Cheerio EmbedMetadata MetadataExtractor Spec.




Lemma when_truthy_keeps {A : Type} (x : option string) (g : string -> A)
  (set : option A -> EmbedMetadata.t -> EmbedMetadata.t) (P : EmbedMetadata.t -> Prop)
  (m : EmbedMetadata.t) :
  (forall v m, P m -> P (set (Some v) m)) -> P m -> P (when_truthy x g set m).
Proof.
  intros Hset Hm. unfold when_truthy.
  destruct x as [v|]; [destruct (truthy v)|]; auto.
Qed.

Lemma bind_ok {A B : Type} (m : M A) (f : A -> M B) (log log' : Log) (a : A) :
  m log = (Ok a, log') -> bind m f log = f a log'.
Proof. intro E. unfold bind. rewrite E. reflexivity. Qed.

Lemma bind_throw {A B : Type} (m : M A) (f : A -> M B) (log log' : Log) (e : JSError) :
  m log = (Throw e, log') -> bind m f log = (Throw e, log').
Proof. intro E. unfold bind. rewrite E. reflexivity. Qed.

Lemma try_ok {A : Type} (m : M A) (h : JSError -> M A) (log log' : Log) (a : A) :
  m log = (Ok a, log') -> try_catch m h log = (Ok a, log').
Proof. intro E. unfold try_catch. rewrite E. reflexivity. Qed.

Lemma try_throw {A : Type} (m : M A) (h : JSError -> M A) (log log' : Log) (e : JSError) :
  m log = (Throw e, log') -> try_catch m h log = h e log'.
Proof. intro E. unfold try_catch. rewrite E. reflexivity. Qed.

Section WithRuntime.
Context `{URLImpl} `{Http}.

Lemma initial_tagged (url : string) : tagged (initial url).
Proof. repeat split; discriminate. Qed.

Lemma fallback_tagged (url : string) : tagged (fallback url).
Proof. repeat split; discriminate. Qed.

Lemma openGraph_fields_tagged (url : string) (doc : Document) :
  tagged (openGraph_fields url doc).
Proof.
  unfold openGraph_fields.
  repeat (apply when_truthy_keeps;
          [intros v m (Ht & Hp & Hu); repeat split; try assumption; discriminate|]).
  repeat split; discriminate.
Qed.

Lemma twitterCards_fields_tagged (url : string) (doc : Document) :
  tagged (twitterCards_fields url doc).
Proof.
  unfold twitterCards_fields.
  apply when_truthy_keeps;
    [intros v m (Ht & Hp & Hu); repeat split; try assumption; discriminate|].
  repeat split; discriminate.
Qed.


(** *** What each step does to the log *)

Lemma absolute_image_log (url : string) (m : EmbedMetadata.t) (log : Log) :
  snd (absolute_image url m log) = log.
Proof.
  unfold absolute_image.
  destruct (image m) as [[| | | |img| |]|]; try reflexivity;
    try (match goal with |- context [JSValue.truthy ?v] => destruct (JSValue.truthy v) end;
         reflexivity).
  destruct (truthy img && negb (startsWith img "http")); [|reflexivity].
  destruct (new_URL url) as [b|]; [|reflexivity].
  destruct (new_URL_base img _); reflexivity.
Qed.

Lemma absolute_image_ok (url : string) (m m' : EmbedMetadata.t) (log log' : Log) :
  absolute_image url m log = (Ok m', log') ->
  type m' = type m /\ platform m' = platform m /\ EmbedMetadata.url m' = EmbedMetadata.url m /\
  title m' = title m /\ description m' = description m.
Proof.
  unfold absolute_image.
  destruct (image m) as [[| | | |img| |]|];
    try (match goal with |- context [JSValue.truthy ?v] => destruct (JSValue.truthy v) end;
         [discriminate|]);
    try (intro E; injection E as <- _; auto; fail).
  destruct (truthy img && negb (startsWith img "http")).
  2:{ intro E. injection E as <- _. auto. }
  destruct (new_URL url) as [b|]; [|discriminate].
  destruct (new_URL_base img _); [|discriminate].
  intro E. injection E as <- _. auto.
Qed.

(** When the image address does not begin with [http] and resolves, the
    record gets the serialization of what it resolves to, against the
    origin of the page. *)
Lemma absolute_image_resolves (url img : string) (m : EmbedMetadata.t)
  (baseUrl resolved : URL.obj) (log : Log) :
  image m = Some (JSValue.Str img) -> truthy img = true ->
  startsWith img "http" = false ->
  new_URL url = Some baseUrl ->
  new_URL_base img (URL_origin (URL.record baseUrl)) = Some resolved ->
  absolute_image url m log
  = (Ok (set_image (Some (JSValue.Str (URL.href resolved))) m), log).
Proof.
  intros Hi Ht Hs Hb Hr. unfold absolute_image.
  rewrite Hi, Ht, Hs, Hb, Hr. reflexivity.
Qed.

(** An image address that begins with [http] stays as it is. *)
Lemma absolute_image_keeps (url img : string) (m : EmbedMetadata.t) (log : Log) :
  image m = Some (JSValue.Str img) -> startsWith img "http" = true ->
  absolute_image url m log = (Ok m, log).
Proof.
  intros Hi Hs. unfold absolute_image. rewrite Hi, Hs.
  rewrite andb_false_r. reflexivity.
Qed.

(** [extractOpenGraph] returns, and has issued one request for the page. *)
Lemma extractOpenGraph_returns (url : string) (log : Log) :
  exists m, extractOpenGraph url log = (Ok m, (log ++ [url])%list) /\ tagged m /\
    (m = fallback url \/
     exists body doc, network (List.length log) url = Some body /\
       cheerio_load body = Some doc /\
       absolute_image url (openGraph_fields url doc) (log ++ [url])%list
       = (Ok m, (log ++ [url])%list)).
Proof.
  unfold extractOpenGraph, try_catch, bind, axios_get, load.
  destruct (network (List.length log) url) as [body|] eqn:Hn.
  2:{ exists (fallback url). auto using fallback_tagged. }
  destruct (cheerio_load body) as [doc|] eqn:Hl; simpl.
  2:{ exists (fallback url). auto using fallback_tagged. }
  pose proof (absolute_image_log url (openGraph_fields url doc) (log ++ [url])%list) as Hlog.
  destruct (absolute_image url (openGraph_fields url doc) (log ++ [url])%list)
    as [[m|e] log'] eqn:Ha; simpl in Hlog; subst log'.
  - exists m. split; [reflexivity|]. split.
    + destruct (absolute_image_ok _ _ _ _ _ Ha) as (Ht & Hp & Hu & _).
      destruct (openGraph_fields_tagged url doc) as (Ht' & Hp' & Hu').
      unfold tagged. rewrite Ht, Hp, Hu. auto.
    + right. exists body, doc. auto.
  - exists (fallback url). unfold ret. auto using fallback_tagged.
Qed.

Lemma extractOpenGraph_offline (url : string) (log : Log) :
  network (List.length log) url = None ->
  extractOpenGraph url log = (Ok (fallback url), (log ++ [url])%list).
Proof.
  intro Hn. unfold extractOpenGraph, try_catch, bind, axios_get.
  rewrite Hn. reflexivity.
Qed.


(** [extractTwitterCards] returns, and has issued one request for the page. *)
Lemma extractTwitterCards_returns (url : string) (log : Log) :
  exists m, extractTwitterCards url log = (Ok m, (log ++ [url])%list) /\ tagged m.
Proof.
  unfold extractTwitterCards, try_catch, bind, axios_get, load.
  destruct (network (List.length log) url) as [body|].
  2:{ exists (fallback url). auto using fallback_tagged. }
  destruct (cheerio_load body) as [doc|]; simpl.
  2:{ exists (fallback url). auto using fallback_tagged. }
  exists (twitterCards_fields url doc). auto using twitterCards_fields_tagged.
Qed.

Lemma extractTwitterCards_offline (url : string) (log : Log) :
  network (List.length log) url = None ->
  extractTwitterCards url log = (Ok (fallback url), (log ++ [url])%list).
Proof.
  intro Hn. unfold extractTwitterCards, try_catch, bind, axios_get.
  rewrite Hn. reflexivity.
Qed.

Lemma extractBasicMetadata_returns (url : string) (log : Log) :
  exists m extra, extractBasicMetadata url log = (Ok m, (log ++ extra)%list) /\
    page_fetches url extra /\ tagged m.
Proof.
  unfold extractBasicMetadata, bind.
  destruct (extractOpenGraph_returns url log) as (og & -> & Hog & _).
  destruct (negb (JSValue.truthy_opt (title og)) || negb (truthy_opt (description og))).
  - destruct (extractTwitterCards_returns url (log ++ [url])%list) as (tw & -> & Htw).
    eexists. exists [url; url]. split.
    + unfold ret. rewrite <- app_assoc. reflexivity.
    + split; [right; reflexivity|].
      destruct Hog as (Ht & _). repeat split; simpl; try discriminate.
      destruct (type og); [discriminate | contradiction].
  - exists og, [url]. unfold ret. split; [reflexivity|].
    split; [left; reflexivity | exact Hog].
Qed.

(** The second request is issued when the first pass left the title or
    the description empty. *)
Lemma extractBasicMetadata_fetches (url : string) (log : Log) :
  exists og m,
    extractOpenGraph url log = (Ok og, (log ++ [url])%list) /\
    extractBasicMetadata url log = (Ok m, (log ++ page_fetches_of og url)%list).
Proof.
  destruct (extractOpenGraph_returns url log) as (og & Hog & _).
  exists og. unfold extractBasicMetadata, bind, page_fetches_of. rewrite Hog.
  rewrite <- negb_andb.
  destruct (JSValue.truthy_opt (title og) && truthy_opt (description og)); simpl.
  - exists og. split; reflexivity.
  - destruct (extractTwitterCards_returns url (log ++ [url])%list) as (tw & -> & _).
    eexists. split; [reflexivity|]. unfold ret. rewrite <- app_assoc. reflexivity.
Qed.

(** With every request failing, the merge is made of two fallback records. *)
Lemma extractBasicMetadata_offline (url : string) (log : Log) :
  (forall n, network n url = None) ->
  exists m, extractBasicMetadata url log = (Ok m, (log ++ [url; url])%list) /\
    title m = Some (JSValue.Str (getDomainFromUrl url)) /\
    type m = Some EmbedType.link /\ platform m = Some generic.
Proof.
  intro Hoff. unfold extractBasicMetadata.
  rewrite (bind_ok _ _ _ _ _ (extractOpenGraph_offline url log (Hoff _))).
  assert (Hc : negb (JSValue.truthy_opt (title (fallback url)))
               || negb (truthy_opt (description (fallback url))) = true)
    by (simpl; apply orb_true_r).
  rewrite Hc.
  rewrite (bind_ok _ _ _ _ _ (extractTwitterCards_offline url _ (Hoff _))).
  eexists. split; [unfold ret; rewrite <- app_assoc; reflexivity|].
  simpl. repeat split.
  unfold JSValue.or. simpl.
  destruct (truthy (getDomainFromUrl url)); reflexivity.
Qed.




End WithRuntime.
End ExtractorFacts.

(* ------------------------------------------------------------------ *)
(** ** Properties of the parsers and of the service *)

Module ServiceFacts.
Import JSString EmbedMetadata Spec ExtractorFacts.

Lemma first_id_truthy (patterns : list RegExp.t) (url id : string) :
  URLParser.first_id patterns url = Some id -> truthy id = true.
Proof.
  induction patterns as [|re tl IH]; simpl; [discriminate|].
  destruct (RegExp.exec re url) as [m|]; [|exact IH].
  destruct (RegExp.group 1 m) as [g|]; [|exact IH].
  destruct (truthy g) eqn:Hg; [|exact IH].
  intro E. injection E as <-. exact Hg.
Qed.

Section WithRuntime.
Context `{URLImpl} `{Http} `{Markup}.

Lemma generic_returns (url : string) (log : Log) :
  exists m extra,
    GenericParser.extractMetadata url log = (Ok m, (log ++ extra)%list) /\
    page_fetches url extra /\ tagged m /\ platform m = Some generic.
Proof.
  unfold GenericParser.extractMetadata, try_catch, bind.
  destruct (extractBasicMetadata_returns url log) as (m & extra & -> & He & Ht & _ & Hu).
  eexists. exists extra. split; [reflexivity|]. split; [exact He|].
  repeat split; simpl; try assumption; discriminate.
Qed.

Lemma fetchOEmbedData_returns (url : string) (log : Log) :
  exists d, YouTubeParser.fetchOEmbedData url log
            = (Ok d, (log ++ [YouTubeParser.oembed_address url])%list).
Proof.
  unfold YouTubeParser.fetchOEmbedData, try_catch, bind, axios_get.
  destruct (network _ _); eexists; reflexivity.
Qed.

Lemma youtube_extract (url : string) (log : Log) :
  youtube_outcome url log (YouTubeParser.extractMetadata url log).
Proof.
  unfold YouTubeParser.extractMetadata.
  destruct (URLParser.extractYouTubeVideoId url) as [videoId|] eqn:Hid.
  2:{ apply youtube_invalid. exact Hid. }
  rewrite (first_id_truthy _ _ _ Hid). simpl.
  unfold try_catch, bind.
  destruct (fetchOEmbedData_returns url log) as (d & ->).
  unfold YouTubeParser.from_oembed.
  destruct (JSValue.truthy d);
    [destruct (JSValue.interpolate (JSValue.get "title" d));
     [destruct (JSValue.interpolate (JSValue.get "author_name" d))|]|];
    simpl; apply youtube_record;
    try (rewrite Hid; discriminate); try reflexivity; repeat split; discriminate.
Qed.

Lemma findParser_new (url : string) :
  EmbedService.findParser EmbedService.new url
  = Some (if YouTubeParser.canHandle url
          then YouTubeParser.parser else GenericParser.parser).
Proof.
  unfold EmbedService.findParser. simpl.
  destruct (YouTubeParser.canHandle url); reflexivity.
Qed.

(** What the service returns and what it has requested. *)
(** An address that the YouTube parser handles has an id. *)
Lemma handled_has_id (url : string) :
  YouTubeParser.canHandle url = true ->
  exists videoId,
    URLParser.extractYouTubeVideoId url = Some videoId /\ truthy videoId = true.
Proof.
  intro Hcan. unfold YouTubeParser.canHandle in Hcan.
  assert (Hmatch : URLParser.any_test (URLParser.patterns_of youtube) url = true).
  { rewrite URLParserFacts.detectPlatform_unfold in Hcan.
    destruct (URLParser.any_test (URLParser.patterns_of youtube) url); [reflexivity|].
    repeat match type of Hcan with
    | Platform_eqb (if ?c then _ else _) _ = true => destruct c
    end; discriminate Hcan. }
  destruct (URLParserFacts.any_test_first_matching _ _ Hmatch) as (re & Hre & _).
  assert (Hy : youtube <> generic) by discriminate.
  destruct (URLParserFacts.extractId_first_matching youtube url re Hy Hre)
    as (m & id & _ & _ & Htruthy & Hid).
  exists id. auto.
Qed.

(** What the service returns and what it has requested. *)
Lemma service_extract (url : string) (log : Log) :
  let normalizedUrl := URLParser.normalizeUrl url in
  exists r extra,
    EmbedService.extractMetadata EmbedService.embedService url log
    = (r, (log ++ extra)%list) /\
    service_fetches (URLParser.isValidUrl url)
      (YouTubeParser.canHandle normalizedUrl) normalizedUrl extra /\
    (forall m, r = Ok m -> tagged m) /\
    (URLParser.isValidUrl url = true -> exists m, r = Ok m).
Proof.
  intro normalizedUrl. unfold EmbedService.extractMetadata, EmbedService.embedService.
  destruct (URLParser.isValidUrl url).
  2:{ exists (Throw (Error "Invalid URL provided")), []. simpl. unfold throw.
      rewrite app_nil_r. split; [reflexivity|]. split; [reflexivity|].
      split; discriminate. }
  change (negb true) with false. cbv iota zeta. fold normalizedUrl.
  rewrite findParser_new. unfold service_fetches.
  destruct (YouTubeParser.canHandle normalizedUrl) eqn:Hcan.
  - destruct (handled_has_id normalizedUrl Hcan) as (id & Hid & _).
    pose proof (youtube_extract normalizedUrl log) as Ho.
    inversion Ho as [Hnone Heq | m Hsome Ht Hp Heq].
    { rewrite Hid in Hnone. discriminate Hnone. }
    change (PlatformParser.extractMetadata YouTubeParser.parser)
      with YouTubeParser.extractMetadata.
    rewrite (try_ok _ _ _ _ _ (bind_ok _ _ _ _ _ (eq_sym Heq))).
    eexists. eexists. split; [reflexivity|]. split; [reflexivity|].
    split; [|intros _; eexists; reflexivity].
    intros m' E. injection E as <-.
    destruct Ht as (Ht1 & Ht2 & Ht3). repeat split; simpl; try assumption; discriminate.
  - destruct (generic_returns normalizedUrl log) as (m & extra & Hrun & He & Ht & _).
    change (PlatformParser.extractMetadata GenericParser.parser)
      with GenericParser.extractMetadata.
    rewrite (try_ok _ _ _ _ _ (bind_ok _ _ _ _ _ Hrun)).
    eexists. exists extra. split; [reflexivity|]. split; [exact He|].
    split; [|intros _; eexists; reflexivity].
    intros m' E. injection E as <-.
    destruct Ht as (Ht1 & Ht2 & Ht3). repeat split; simpl; try assumption; discriminate.
Qed.

(** [generateEmbed] of the parsers of the service throws nothing but a
    [TypeError]. *)
Lemma generateEmbed_outcome (url : string) (m : EmbedMetadata.t)
  (options : RenderOptions.t) :
  (exists html,
     PlatformParser.generateEmbed (Spec.parser_for url) m options = Ok html) \/
  PlatformParser.generateEmbed (Spec.parser_for url) m options = Throw TypeError.
Proof.
  unfold Spec.parser_for.
  destruct (YouTubeParser.canHandle url); simpl;
    unfold YouTubeParser.generateEmbed, GenericParser.generateEmbed, markup_result.
  - destruct (youtube_markup m options); [left; eexists; reflexivity | right; reflexivity].
  - destruct (generic_markup m options); [left; eexists; reflexivity | right; reflexivity].
Qed.

(** The requests of the service, with the condition of the second
    request for the page. *)
Lemma service_fetches_exact (url : string) (log : Log) :
  let normalizedUrl := URLParser.normalizeUrl url in
  exists r extra,
    EmbedService.extractMetadata EmbedService.embedService url log
    = (r, (log ++ extra)%list) /\
    if URLParser.isValidUrl url
    then if YouTubeParser.canHandle normalizedUrl
         then extra = [YouTubeParser.oembed_address normalizedUrl]
         else exists og,
                MetadataExtractor.extractOpenGraph normalizedUrl log
                = (Ok og, (log ++ [normalizedUrl])%list) /\
                extra = page_fetches_of og normalizedUrl
    else extra = [].
Proof.
  intro normalizedUrl.
  destruct (service_extract url log) as (r & extra & Hrun & Hshape & _).
  fold normalizedUrl in Hshape.
  exists r, extra. split; [exact Hrun|].
  unfold service_fetches in Hshape.
  destruct (URLParser.isValidUrl url) eqn:Hv; [|exact Hshape].
  destruct (YouTubeParser.canHandle normalizedUrl) eqn:Hcan; [exact Hshape|].
  destruct (extractBasicMetadata_fetches normalizedUrl log) as (og & m & Hog & Hm).
  exists og. split; [exact Hog|].
  unfold EmbedService.extractMetadata, EmbedService.embedService in Hrun.
  rewrite Hv in Hrun. change (negb true) with false in Hrun. cbv iota zeta in Hrun.
  fold normalizedUrl in Hrun. rewrite findParser_new, Hcan in Hrun.
  change (PlatformParser.extractMetadata GenericParser.parser)
    with GenericParser.extractMetadata in Hrun.
  assert (Hg : GenericParser.extractMetadata normalizedUrl log
               = (Ok (set_provider (Some (GenericParser.provider_of normalizedUrl))
                        (set_platform (Some generic) m)),
                  (log ++ page_fetches_of og normalizedUrl)%list)).
  { unfold GenericParser.extractMetadata.
    rewrite (try_ok _ _ _ _ _ (bind_ok _ _ _ _ _ Hm)). reflexivity. }
  rewrite (try_ok _ _ _ _ _ (bind_ok _ _ _ _ _ Hg)) in Hrun.
  injection Hrun as _ Hlog. apply app_inv_head in Hlog. symmetry. exact Hlog.
Qed.

End WithRuntime.
End ServiceFacts.

(* ------------------------------------------------------------------ *)
(** ** The shape of what the patterns capture *)

Module ShapeFacts.
Import JSString RegExp Spec Shape RegExpFacts URLParser.

Lemma forallb_app_true {A : Type} (p : A -> bool) (a b : list A) :
  forallb p a = true -> forallb p b = true -> forallb p (a ++ b) = true.
Proof. intros Ha Hb. rewrite forallb_app, Ha, Hb. reflexivity. Qed.

Lemma le_opt_add (a b : nat) (x y : option nat) :
  le_opt a x -> le_opt b y -> le_opt (a + b) (add_opt x y).
Proof. destruct x, y; simpl; auto; lia. Qed.

Lemma le_opt_max_l (a : nat) (x y : option nat) :
  le_opt a x -> le_opt a (max_opt x y).
Proof. destruct x, y; simpl; auto; lia. Qed.

Lemma le_opt_max_r (a : nat) (x y : option nat) :
  le_opt a y -> le_opt a (max_opt x y).
Proof. destruct x, y; simpl; auto; lia. Qed.

Lemma repeat_consumes (p : ascii -> bool) (lo : nat) (hi : option nat)
  (m : matcher) (gs : list nat) :
  consumes p lo hi m ->
  forall fuel min max, le_max min max ->
    consumes p (min * lo) (mul_opt max hi) (fun x k => repeat m gs fuel min max x k).
Proof.
  intros Hm fuel. induction fuel as [|fuel IH]; intros min max Hle x k z H.
  - discriminate H.
  - simpl in H. destruct (max_is_zero max) eqn:Hz.
    + destruct max as [[|mx]|]; try discriminate Hz. simpl in Hle.
      assert (min = 0) by lia. subst min.
      exists x, []. repeat split; try assumption; try reflexivity.
      destruct hi; simpl; lia.
    + pose proof (le_max_pred min max Hle Hz) as Hle'.
      assert (Hiter : forall z',
        m (reset_caps gs x)
          (fun y => if (min =? 0) && (endIndex y =? endIndex x) then None
                    else repeat m gs fuel (pred min) (dec_max max) y k) = Some z' ->
        exists y w, k y = Some z' /\ rest x = (w ++ rest y)%list /\
          forallb p w = true /\ min * lo <= List.length w /\
          le_opt (List.length w) (mul_opt max hi)).
      { intros z' Hrun. apply Hm in Hrun.
        destruct Hrun as (y1 & w1 & Hd & Hr1 & Hp1 & Hlo1 & Hhi1).
        destruct ((min =? 0) && (endIndex y1 =? endIndex x)); [discriminate Hd|].
        apply (IH (pred min) (dec_max max) Hle') in Hd.
        destruct Hd as (y2 & w2 & Hk & Hr2 & Hp2 & Hlo2 & Hhi2).
        exists y2, (w1 ++ w2)%list. split; [exact Hk|].
        split; [simpl in Hr1; rewrite Hr1, Hr2, app_assoc; reflexivity|].
        split; [apply forallb_app_true; assumption|].
        rewrite length_app. split.
        - destruct min as [|min']; simpl in *; lia.
        - destruct max as [[|mx]|]; simpl in *; try discriminate Hz;
            destruct hi as [h|]; simpl in *; try exact I. lia. }
      destruct min as [|min'].
      * simpl in H.
        destruct (m (reset_caps gs x) _) as [z'|] eqn:Hrun.
        -- injection H as <-. exact (Hiter _ eq_refl).
        -- exists x, []. repeat split; try assumption; try reflexivity.
           simpl. destruct max as [[|mx]|]; simpl in *; try discriminate Hz;
             destruct hi as [h|]; simpl; try exact I; lia.
      * exact (Hiter _ H).
Qed.

Lemma run_consumes (ic : bool) (p : ascii -> bool) (r : regex) :
  wf r = true -> chars_in ic p r = true ->
  consumes p (minlen r) (maxlen r) (run ic r).
Proof.
  induction r as [|cs| |a IHa b IHb|a IHa b IHb|n a IHa|a IHa min max];
    intros Hwf Hp x k z H; [simpl in *..|simpl in Hwf, Hp |- *].
  - exists x, []. repeat split; try assumption; reflexivity || lia.
  - destruct (rest x) as [|c tl] eqn:Hx; [discriminate H|].
    destruct (cset_match ic cs c) eqn:Hc; [|discriminate H].
    eexists. exists [c]. split; [exact H|]. simpl.
    split; [reflexivity|]. split; [|lia].
    pose proof (URLFacts.every_ascii_spec _ Hp c) as Hi. simpl in Hi.
    rewrite Hc in Hi. simpl in Hi. rewrite Hi. reflexivity.
  - destruct (endIndex x =? 0); [|discriminate H].
    exists x, []. repeat split; try assumption; reflexivity || lia.
  - apply andb_prop in Hwf. destruct Hwf as [Hwa Hwb].
    apply andb_prop in Hp. destruct Hp as [Hpa Hpb].
    apply (IHa Hwa Hpa) in H. destruct H as (y1 & w1 & H & Hr1 & Hp1 & Hlo1 & Hhi1).
    apply (IHb Hwb Hpb) in H. destruct H as (y2 & w2 & H & Hr2 & Hp2 & Hlo2 & Hhi2).
    exists y2, (w1 ++ w2)%list. split; [exact H|].
    split; [rewrite Hr1, Hr2, app_assoc; reflexivity|].
    split; [apply forallb_app_true; assumption|].
    rewrite length_app. split; [lia | apply le_opt_add; assumption].
  - apply andb_prop in Hwf. destruct Hwf as [Hwa Hwb].
    apply andb_prop in Hp. destruct Hp as [Hpa Hpb].
    destruct (run ic a x k) as [z'|] eqn:Hrun.
    + injection H as <-. apply (IHa Hwa Hpa) in Hrun.
      destruct Hrun as (y & w & Hk & Hr & Hpw & Hlo & Hhi).
      exists y, w. repeat split; try assumption; [lia | apply le_opt_max_l; exact Hhi].
    + apply (IHb Hwb Hpb) in H.
      destruct H as (y & w & Hk & Hr & Hpw & Hlo & Hhi).
      exists y, w. repeat split; try assumption; [lia | apply le_opt_max_r; exact Hhi].
  - apply (IHa Hwf Hp) in H. destruct H as (y & w & H & Hr & Hpw & Hlo & Hhi).
    eexists. exists w. split; [exact H|]. simpl. auto.
  - apply andb_prop in Hwf. destruct Hwf as [Hle Ha].
    assert (Hle' : le_max min max).
    { destruct max as [mx|]; simpl in *; [apply Nat.leb_le; exact Hle | exact I]. }
    exact (repeat_consumes p (minlen a) (maxlen a) (run ic a) (groups a) (IHa Ha Hp)
             _ min max Hle' x k z H).
Qed.

Lemma firstn_app_exact {A : Type} (w r : list A) :
  firstn (List.length (w ++ r) - List.length r) (w ++ r) = w.
Proof.
  rewrite length_app. replace (List.length w + List.length r - List.length r)
    with (List.length w + 0) by lia.
  rewrite firstn_app_2. simpl. apply app_nil_r.
Qed.

Lemma all_chars_string_of_list (p : ascii -> bool) (w : list ascii) :
  all_chars p (string_of_list_ascii w) = forallb p w.
Proof. induction w as [|c w IH]; simpl; [reflexivity | now rewrite IH]. Qed.

(** The capture of a closing group 1 is what its body consumed. *)
Lemma run_group1_shape (ic : bool) (p : ascii -> bool) (r a : regex) :
  closes_with_group1 r = true -> group1_body r = Some a ->
  wf a = true -> chars_in ic p a = true ->
  forall x z, run ic r x (fun y => Some y) = Some z ->
    exists id, get_cap 1 (caps z) = Some id /\ all_chars p id = true /\
      minlen a <= String.length id /\ le_opt (String.length id) (maxlen a).
Proof.
  revert a.
  induction r as [|cs| |r1 IHa r2 IHb|r1 IHa r2 IHb|n r1 IHa|r1 IHa min max];
    intros a Hc Hb Hwf Hp x z H; simpl in Hc; try discriminate Hc.
  - apply andb_prop in Hc. destruct Hc as [Ha Hc]. simpl in H, Hb.
    apply (run_calls_back ic r1 Ha) in H. destruct H as (y & H & _).
    exact (IHb a Hc Hb Hwf Hp y z H).
  - destruct n as [|[|n]]; try discriminate Hc.
    simpl in Hb. injection Hb as ->. simpl in H.
    apply (run_consumes ic p a Hwf Hp) in H.
    destruct H as (y & w & H & Hr & Hpw & Hlo & Hhi).
    injection H as <-. exists (slice x y). split; [reflexivity|].
    unfold slice. rewrite Hr, firstn_app_exact.
    rewrite all_chars_string_of_list, length_string_of_list_ascii. auto.
Qed.

Lemma exec_from_group1_shape (re : RegExp.t) (p : ascii -> bool) (a : regex)
  (l : list ascii) :
  closes_with_group1 (source re) = true -> group1_body (source re) = Some a ->
  wf a = true -> chars_in (ignoreCase re) p a = true ->
  forall i m, exec_from re i l = Some m ->
    exists id, group 1 m = Some id /\ all_chars p id = true /\
      minlen a <= String.length id /\ le_opt (String.length id) (maxlen a).
Proof.
  intros Hc Hb Hwf Hp. induction l as [|c l IH]; intros i m H; simpl in H.
  - destruct (run _ _ _ _) as [y|] eqn:Hrun; [|discriminate H].
    injection H as <-. exact (run_group1_shape _ _ _ _ Hc Hb Hwf Hp _ _ Hrun).
  - destruct (run _ _ _ _) as [y|] eqn:Hrun.
    + injection H as <-. exact (run_group1_shape _ _ _ _ Hc Hb Hwf Hp _ _ Hrun).
    + exact (IH _ _ H).
Qed.

(** The shape of [m[1]] for a pattern of a list that [ids_shaped] accepts. *)
Lemma exec_shaped (p : ascii -> bool) (lo : nat) (hi : option nat)
  (patterns : list RegExp.t) (re : RegExp.t) (s : string) (m : result) :
  ids_shaped p lo hi patterns = true -> In re patterns ->
  exec re s = Some m ->
  exists id, group 1 m = Some id /\ all_chars p id = true /\
    lo <= String.length id /\ le_opt (String.length id) hi.
Proof.
  intros Hs Hin He. unfold ids_shaped in Hs.
  rewrite forallb_forall in Hs. specialize (Hs re Hin).
  apply andb_prop in Hs. destruct Hs as [Hc Hs].
  destruct (group1_body (source re)) as [a|] eqn:Hb; [|discriminate Hs].
  apply andb_prop in Hs. destruct Hs as [Hs Hhi].
  apply andb_prop in Hs. destruct Hs as [Hs Hlo].
  apply andb_prop in Hs. destruct Hs as [Hwf Hp].
  destruct (exec_from_group1_shape re p a _ Hc Hb Hwf Hp 0 m He)
    as (id & Hg & Hall & Hmin & Hmax).
  exists id. split; [exact Hg|]. split; [exact Hall|].
  apply Nat.leb_le in Hlo. split; [lia|].
  destruct hi as [h|]; [|exact I]. simpl.
  destruct (maxlen a) as [h'|]; [|discriminate Hhi].
  apply Nat.leb_le in Hhi. simpl in Hmax. lia.
Qed.

Lemma first_id_shaped (p : ascii -> bool) (lo : nat) (hi : option nat)
  (patterns : list RegExp.t) (url id : string) :
  ids_shaped p lo hi patterns = true ->
  first_id patterns url = Some id ->
  all_chars p id = true /\ lo <= String.length id /\ le_opt (String.length id) hi.
Proof.
  intros Hs.
  assert (Hl : forall l, incl l patterns -> first_id l url = Some id ->
            all_chars p id = true /\ lo <= String.length id /\
            le_opt (String.length id) hi).
  { induction l as [|re tl IH]; simpl; intros Hin H; [discriminate H|].
    assert (Htl : first_id tl url = Some id ->
                  all_chars p id = true /\ lo <= String.length id /\
                  le_opt (String.length id) hi)
      by (apply IH; intros re' Hre'; apply Hin; right; exact Hre').
    destruct (exec re url) as [m|] eqn:He; [|exact (Htl H)].
    destruct (exec_shaped p lo hi patterns re url m Hs (Hin re (or_introl eq_refl)) He)
      as (id' & Hg & Hshape).
    rewrite Hg in H. destruct (truthy id'); [|exact (Htl H)].
    injection H as <-. exact Hshape. }
  exact (Hl patterns (incl_refl patterns)).
Qed.

Lemma only_id_shaped (p : ascii -> bool) (lo : nat) (hi : option nat)
  (patterns : list RegExp.t) (url id : string) :
  ids_shaped p lo hi patterns = true ->
  only_id patterns url = Some id ->
  all_chars p id = true /\ lo <= String.length id /\ le_opt (String.length id) hi.
Proof.
  intros Hs H. destruct patterns as [|re tl]; simpl in H; [discriminate H|].
  destruct (exec re url) as [m|] eqn:He; [|discriminate H].
  destruct (exec_shaped p lo hi (re :: tl) re url m Hs (or_introl eq_refl) He)
    as (id' & Hg & Hshape).
  rewrite Hg in H. injection H as <-. exact Hshape.
Qed.

Lemma youtube_id_shape (url id : string) :
  extractYouTubeVideoId url = Some id ->
  String.length id = 11 /\ all_chars youtube_id_unit id = true.
Proof.
  intro H.
  assert (Hs : ids_shaped youtube_id_unit 11 (Some 11) (patterns_of youtube) = true)
    by (vm_compute; reflexivity).
  destruct (first_id_shaped _ _ _ _ _ _ Hs H) as (Hall & Hlo & Hhi).
  simpl in Hhi. split; [lia | exact Hall].
Qed.

End ShapeFacts.

(* ------------------------------------------------------------------ *)
(** ** The records of the parsers *)

Module RecordFacts.
Import JSString EmbedMetadata Spec ExtractorFacts ServiceFacts MetadataExtractor.

Section WithRuntime.
Context `{URLImpl} `{Http} `{Markup}.

(** The fields of the record of the YouTube parser that do not depend on
    the answer of the oEmbed endpoint. *)
Lemma youtube_record_fields (url videoId : string) (log : Log) :
  URLParser.extractYouTubeVideoId url = Some videoId ->
  exists m,
    YouTubeParser.extractMetadata url log
    = (Ok m, (log ++ [YouTubeParser.oembed_address url])%list) /\
    type m = Some EmbedType.video /\ platform m = Some youtube /\
    EmbedMetadata.url m = Some url /\
    embedData m = Some (YouTubeParser.youtube_embedData videoId) /\
    provider m = Some YouTubeParser.youtube_provider.
Proof.
  intro Hid. unfold YouTubeParser.extractMetadata. rewrite Hid.
  rewrite (first_id_truthy _ _ _ Hid). simpl.
  unfold try_catch, bind.
  destruct (fetchOEmbedData_returns url log) as (d & ->).
  unfold YouTubeParser.from_oembed.
  destruct (JSValue.truthy d);
    [destruct (JSValue.interpolate (JSValue.get "title" d));
     [destruct (JSValue.interpolate (JSValue.get "author_name" d))|]|];
    simpl; eexists; split; try reflexivity; repeat split.
Qed.

Lemma or_title_some (x : option string) (doc : Cheerio.Document) :
  JSValue.of_string (or_title x doc) <> None.
Proof.
  unfold or_title. destruct x as [s|]; simpl; [destruct (truthy s)|]; discriminate.
Qed.

(** What the fields of the first pass keep of the initial record. *)
Lemma openGraph_fields_fixed (url : string) (doc : Cheerio.Document) :
  embedData (openGraph_fields url doc) = None /\
  provider (openGraph_fields url doc) = None /\
  title (openGraph_fields url doc) <> None.
Proof.
  unfold openGraph_fields.
  repeat (apply when_truthy_keeps;
          [intros v m (He & Hp & Ht); repeat split; assumption|]).
  repeat split. exact (or_title_some _ doc).
Qed.

Lemma absolute_image_fixed (url : string) (m m' : EmbedMetadata.t) (log log' : Log) :
  absolute_image url m log = (Ok m', log') ->
  embedData m' = embedData m /\ provider m' = provider m /\
  width m' = width m /\ height m' = height m /\ author m' = author m.
Proof.
  unfold absolute_image.
  destruct (image m) as [[| | | |img| |]|];
    try (match goal with |- context [JSValue.truthy ?v] => destruct (JSValue.truthy v) end;
         [discriminate|]);
    try (intro E; injection E as <- _; auto; fail).
  destruct (truthy img && negb (startsWith img "http")).
  2:{ intro E. injection E as <- _. auto. }
  destruct (new_URL url) as [b|]; [|discriminate].
  destruct (new_URL_base img _); [|discriminate].
  intro E. injection E as <- _. repeat split.
Qed.

(** The record of the first pass. *)
Lemma extractOpenGraph_fixed (url : string) (log : Log) :
  exists og, extractOpenGraph url log = (Ok og, (log ++ [url])%list) /\
    type og <> None /\ EmbedMetadata.url og = Some url /\
    platform og = Some generic /\ embedData og = None /\ provider og = None /\
    title og <> None.
Proof.
  destruct (extractOpenGraph_returns url log) as (og & Hrun & (Ht & _) & Hcase).
  exists og. split; [exact Hrun|]. split; [exact Ht|].
  destruct Hcase as [-> | (body & doc & _ & _ & Ha)].
  - repeat split; discriminate.
  - destruct (absolute_image_ok _ _ _ _ _ Ha) as (_ & Hp & Hu & Hti & _).
    destruct (absolute_image_fixed _ _ _ _ _ Ha) as (He & Hpr & _).
    destruct (openGraph_fields_fixed url doc) as (He' & Hpr' & Hti').
    rewrite Hp, Hu, He, Hpr, Hti.
    assert (Hinit : platform (openGraph_fields url doc) = Some generic /\
                    EmbedMetadata.url (openGraph_fields url doc) = Some url).
    { unfold openGraph_fields.
      repeat (apply when_truthy_keeps;
              [intros v m (Hp1 & Hu1); split; assumption|]).
      split; reflexivity. }
    destruct Hinit as [-> ->]. auto.
Qed.

(** The record of generic extraction: what the merge takes from the
    first pass alone, and what is always there. *)
Lemma extractBasicMetadata_fixed (url : string) (log : Log) :
  exists og m extra,
    extractOpenGraph url log = (Ok og, (log ++ [url])%list) /\
    extractBasicMetadata url log = (Ok m, (log ++ extra)%list) /\
    page_fetches url extra /\
    type m = type og /\ width m = width og /\ height m = height og /\
    author m = author og /\
    EmbedMetadata.url m = Some url /\ platform m = Some generic /\
    embedData m = None /\ provider m = None /\ title m <> None.
Proof.
  destruct (extractOpenGraph_fixed url log) as (og & Hog & Ht & Hu & Hp & He & Hpr & Hti).
  exists og. unfold extractBasicMetadata, bind. rewrite Hog.
  destruct (negb (JSValue.truthy_opt (title og)) || negb (truthy_opt (description og))).
  - destruct (extractTwitterCards_returns url (log ++ [url])%list) as (tw & -> & _).
    eexists. exists [url; url]. split; [reflexivity|].
    split; [unfold ret; rewrite <- app_assoc; reflexivity|].
    split; [right; reflexivity|]. simpl.
    repeat split.
    + destruct (type og); [reflexivity | contradiction].
    + unfold JSValue.or.
      destruct (JSValue.truthy_opt (title og)) eqn:E1; [exact Hti|].
      destruct (JSValue.truthy_opt (title tw)) eqn:E2; [|discriminate].
      destruct (title tw); [discriminate | discriminate E2].
  - exists og, [url]. split; [reflexivity|]. unfold ret.
    split; [reflexivity|]. split; [left; reflexivity|]. auto 12.
Qed.

(** The record of the generic parser. *)
Lemma generic_record_fields (url : string) (log : Log) :
  exists m extra,
    GenericParser.extractMetadata url log = (Ok m, (log ++ extra)%list) /\
    page_fetches url extra /\
    platform m = Some generic /\ EmbedMetadata.url m = Some url /\
    embedData m = None /\ provider m = Some (GenericParser.provider_of url) /\
    title m <> None.
Proof.
  destruct (extractBasicMetadata_fixed url log)
    as (og & m & extra & _ & Hm & Hf & _ & _ & _ & _ & Hu & _ & He & _ & Hti).
  unfold GenericParser.extractMetadata.
  rewrite (try_ok _ _ _ _ _ (bind_ok _ _ _ _ _ Hm)).
  eexists. exists extra. split; [reflexivity|]. split; [exact Hf|].
  simpl. auto.
Qed.

(** The service on a valid address: the record of the parser that handles
    the normalized address, with the normalized address as its [url]. *)
Lemma service_valid (url : string) (log : Log) :
  URLParser.isValidUrl url = true ->
  let normalizedUrl := URLParser.normalizeUrl url in
  let parser := if YouTubeParser.canHandle normalizedUrl
                then YouTubeParser.parser else GenericParser.parser in
  exists m log',
    PlatformParser.extractMetadata parser normalizedUrl log = (Ok m, log') /\
    EmbedService.extractMetadata EmbedService.embedService url log
    = (Ok (set_url (Some normalizedUrl) m), log').
Proof.
  intros Hv normalizedUrl parser.
  unfold EmbedService.extractMetadata, EmbedService.embedService. rewrite Hv.
  change (negb true) with false. cbv iota zeta. fold normalizedUrl.
  rewrite findParser_new. fold parser.
  assert (Hp : exists m log',
            PlatformParser.extractMetadata parser normalizedUrl log = (Ok m, log')).
  { unfold parser. destruct (YouTubeParser.canHandle normalizedUrl) eqn:Hcan.
    - destruct (handled_has_id normalizedUrl Hcan) as (id & Hid & _).
      destruct (youtube_record_fields normalizedUrl id log Hid) as (m & Hm & _).
      exists m. eexists. exact Hm.
    - destruct (generic_record_fields normalizedUrl log) as (m & extra & Hm & _).
      exists m. eexists. exact Hm. }
  destruct Hp as (m & log' & Hm). exists m, log'. split; [exact Hm|].
  rewrite (try_ok _ _ _ _ _ (bind_ok _ _ _ _ _ Hm)). reflexivity.
Qed.

Lemma service_invalid (url : string) (log : Log) :
  URLParser.isValidUrl url = false ->
  EmbedService.extractMetadata EmbedService.embedService url log
  = (Throw (Error "Invalid URL provided"), log).
Proof.
  intro Hv. unfold EmbedService.extractMetadata. rewrite Hv. reflexivity.
Qed.

End WithRuntime.
End RecordFacts.

(* ------------------------------------------------------------------ *)
(** ** Escaping and encoding *)

Module EscapeFacts.
Import JSString Escape Units Spec URLFacts NormalizeFacts.

Lemma replace_all_app (c : ascii) (rep a b : string) :
  replace_all c rep (a ++ b) = replace_all c rep a ++ replace_all c rep b.
Proof.
  induction a as [|x a IH]; simpl; [reflexivity|].
  rewrite IH, append_assoc. reflexivity.
Qed.

Lemma escapeHtml_app (a b : string) :
  escapeHtml (a ++ b) = escapeHtml a ++ escapeHtml b.
Proof. unfold escapeHtml. rewrite !replace_all_app. reflexivity. Qed.

Lemma escapeHtml_unit (c : ascii) : escapeHtml (String c "") = escape_unit c.
Proof.
  revert c.
  assert (H : every_ascii (fun c => String.eqb (escapeHtml (String c "")) (escape_unit c))
              = true) by (vm_compute; reflexivity).
  intro c. apply String.eqb_eq. exact (every_ascii_spec _ H c).
Qed.

(** The five passes are one pass: every code unit is replaced once. *)
Lemma escapeHtml_cons (c : ascii) (s : string) :
  escapeHtml (String c s) = escape_unit c ++ escapeHtml s.
Proof.
  change (String c s) with (String c "" ++ s).
  rewrite escapeHtml_app, escapeHtml_unit. reflexivity.
Qed.

Lemma escape_unit_safe (c : ascii) :
  all_chars (fun a => negb (markup_unit a)) (escape_unit c) = true.
Proof. revert c. apply every_ascii_spec. vm_compute. reflexivity. Qed.

Lemma escape_unit_cancel (c d : ascii) (x y : string) :
  escape_unit c ++ x = escape_unit d ++ y -> c = d /\ x = y.
Proof.
  unfold escape_unit.
  destruct (Ascii.eqb_spec c "&") as [->|Hc1].
  { destruct (Ascii.eqb_spec d "&") as [->|Hd1];
      [intro E; injection E; auto|].
    destruct (Ascii.eqb_spec d "<") as [->|Hd2]; [discriminate|].
    destruct (Ascii.eqb_spec d ">") as [->|Hd3]; [discriminate|].
    destruct (code d =? 34) eqn:Hd4; [discriminate|].
    destruct (Ascii.eqb_spec d "'") as [->|Hd5]; [discriminate|].
    simpl. intro E. injection E as E1 _. congruence. }
  destruct (Ascii.eqb_spec c "<") as [->|Hc2].
  { destruct (Ascii.eqb_spec d "&") as [->|Hd1]; [discriminate|].
    destruct (Ascii.eqb_spec d "<") as [->|Hd2]; [intro E; injection E; auto|].
    destruct (Ascii.eqb_spec d ">") as [->|Hd3]; [discriminate|].
    destruct (code d =? 34) eqn:Hd4; [discriminate|].
    destruct (Ascii.eqb_spec d "'") as [->|Hd5]; [discriminate|].
    simpl. intro E. injection E as E1 _. congruence. }
  destruct (Ascii.eqb_spec c ">") as [->|Hc3].
  { destruct (Ascii.eqb_spec d "&") as [->|Hd1]; [discriminate|].
    destruct (Ascii.eqb_spec d "<") as [->|Hd2]; [discriminate|].
    destruct (Ascii.eqb_spec d ">") as [->|Hd3]; [intro E; injection E; auto|].
    destruct (code d =? 34) eqn:Hd4; [discriminate|].
    destruct (Ascii.eqb_spec d "'") as [->|Hd5]; [discriminate|].
    simpl. intro E. injection E as E1 _. congruence. }
  destruct (code c =? 34) eqn:Hc4.
  { apply Nat.eqb_eq in Hc4.
    assert (Ec : c = ascii_of_nat 34)
      by (rewrite <- (ascii_nat_embedding c); unfold code in Hc4; rewrite Hc4; reflexivity).
    destruct (Ascii.eqb_spec d "&") as [->|Hd1]; [discriminate|].
    destruct (Ascii.eqb_spec d "<") as [->|Hd2]; [discriminate|].
    destruct (Ascii.eqb_spec d ">") as [->|Hd3]; [discriminate|].
    destruct (code d =? 34) eqn:Hd4.
    { apply Nat.eqb_eq in Hd4.
      assert (Ed : d = ascii_of_nat 34)
        by (rewrite <- (ascii_nat_embedding d); unfold code in Hd4; rewrite Hd4;
            reflexivity).
      intro E. injection E. intros. split; congruence. }
    destruct (Ascii.eqb_spec d "'") as [->|Hd5]; [discriminate|].
    simpl. intro E. injection E as E1 _. congruence. }
  destruct (Ascii.eqb_spec c "'") as [->|Hc5].
  { destruct (Ascii.eqb_spec d "&") as [->|Hd1]; [discriminate|].
    destruct (Ascii.eqb_spec d "<") as [->|Hd2]; [discriminate|].
    destruct (Ascii.eqb_spec d ">") as [->|Hd3]; [discriminate|].
    destruct (code d =? 34) eqn:Hd4; [discriminate|].
    destruct (Ascii.eqb_spec d "'") as [->|Hd5]; [intro E; injection E; auto|].
    simpl. intro E. injection E as E1 _. congruence. }
  destruct (Ascii.eqb_spec d "&") as [->|Hd1];
    [simpl; intro E; injection E as E1 _; congruence|].
  destruct (Ascii.eqb_spec d "<") as [->|Hd2];
    [simpl; intro E; injection E as E1 _; congruence|].
  destruct (Ascii.eqb_spec d ">") as [->|Hd3];
    [simpl; intro E; injection E as E1 _; congruence|].
  destruct (code d =? 34) eqn:Hd4;
    [simpl; intro E; injection E as E1 _; congruence|].
  destruct (Ascii.eqb_spec d "'") as [->|Hd5];
    [simpl; intro E; injection E as E1 _; congruence|].
  simpl. intro E. injection E as E1 E2. auto.
Qed.

Lemma escape_unit_truthy (c : ascii) (x : string) : escape_unit c ++ x <> "".
Proof.
  unfold escape_unit.
  repeat match goal with |- context [if ?b then _ else _] => destruct b end;
    discriminate.
Qed.

(** *** [encodeURIComponent] and the form-urlencoded parser *)

Lemma uri_unit_out (c : ascii) :
  all_chars uri_out
    (if URI.unreserved c then String c ""
     else URI.percent_encode_bytes (URI.utf8_bytes c)) = true.
Proof. revert c. apply every_ascii_spec. vm_compute. reflexivity. Qed.

Lemma encodeURIComponent_out (s : string) :
  all_chars uri_out (URI.encodeURIComponent s) = true.
Proof.
  induction s as [|c s IH]; simpl; [reflexivity|].
  rewrite all_chars_app, uri_unit_out, IH. reflexivity.
Qed.

Lemma uri_out_not_amp (c : ascii) : uri_out c = true -> is_not "&" c = true.
Proof. revert c. apply implb_spec. vm_compute. reflexivity. Qed.

Lemma uri_out_not_eq (c : ascii) : uri_out c = true -> is_not "=" c = true.
Proof. revert c. apply implb_spec. vm_compute. reflexivity. Qed.

Lemma decode_uri_unit (c : ascii) (rest : string) :
  URL.percent_decode
    (URL.plus_to_space
       ((if URI.unreserved c then String c ""
         else URI.percent_encode_bytes (URI.utf8_bytes c)) ++ rest))
  = URI.utf8_bytes c ++ URL.percent_decode (URL.plus_to_space rest).
Proof. destruct c as [[] [] [] [] [] [] [] []]; reflexivity. Qed.

Lemma decode_encodeURIComponent (s : string) :
  URL.percent_decode (URL.plus_to_space (URI.encodeURIComponent s)) = utf8_encode s.
Proof.
  induction s as [|c s IH]; simpl; [reflexivity|].
  rewrite decode_uri_unit, IH. reflexivity.
Qed.

Lemma utf8_scrub_unit (c : ascii) (rest : string) :
  URL.utf8_scrub (URI.utf8_bytes c ++ rest) = URI.utf8_bytes c ++ URL.utf8_scrub rest.
Proof. destruct c as [[] [] [] [] [] [] [] []]; reflexivity. Qed.

Lemma utf8_scrub_encode (s : string) :
  URL.utf8_scrub (utf8_encode s) = utf8_encode s.
Proof.
  induction s as [|c s IH]; simpl; [reflexivity|].
  rewrite utf8_scrub_unit, IH. reflexivity.
Qed.

Lemma utf8_encode_ascii (s : string) :
  all_chars is_ascii s = true -> utf8_encode s = s.
Proof.
  induction s as [|c s IH]; simpl; [reflexivity|].
  intro H. apply andb_prop in H. destruct H as [Hc Hs].
  unfold URI.utf8_bytes. unfold is_ascii in Hc. rewrite Hc, (IH Hs). reflexivity.
Qed.

Lemma parse_pair_url (url : string) :
  URL.parse_pair ("url=" ++ URI.encodeURIComponent url) = ("url", utf8_encode url).
Proof.
  unfold URL.parse_pair.
  change ("url=" ++ URI.encodeURIComponent url)
    with ("url" ++ String "=" (URI.encodeURIComponent url)).
  rewrite (split_first_app "=" "url" _ eq_refl).
  unfold URL.form_decode.
  rewrite decode_encodeURIComponent, utf8_scrub_encode. reflexivity.
Qed.

Lemma form_parse_oembed_query (url : string) :
  URL.form_parse ("url=" ++ URI.encodeURIComponent url ++ "&format=json")
  = [("url", utf8_encode url); ("format", "json")].
Proof.
  unfold URL.form_parse.
  set (first := "url=" ++ URI.encodeURIComponent url).
  assert (Hsplit : URL.split_on "&" ("url=" ++ URI.encodeURIComponent url ++ "&format=json")
                   = [first; "format=json"]).
  { change ("url=" ++ URI.encodeURIComponent url ++ "&format=json")
      with ("url=" ++ (URI.encodeURIComponent url ++ String "&" "format=json")).
    rewrite <- append_assoc. fold first.
    rewrite split_on_app; [reflexivity|].
    unfold first. rewrite all_chars_app.
    rewrite (all_chars_impl _ _ _ uri_out_not_amp (encodeURIComponent_out url)).
    reflexivity. }
  rewrite Hsplit.
  assert (Hf : filter truthy [first; "format=json"] = [first; "format=json"])
    by reflexivity.
  rewrite Hf.
  change (map URL.parse_pair [first; "format=json"])
    with [URL.parse_pair first; URL.parse_pair "format=json"].
  unfold first. rewrite parse_pair_url. reflexivity.
Qed.

End EscapeFacts.

(* ------------------------------------------------------------------ *)
(** ** The runs of the routes *)

Module RouteFacts.
Import JSString Express Routes RouteSpec EmbedMetadata ExtractorFacts.

Lemma given_unique (v : option QueryValue) (a b : string) :
  given v a -> given v b -> a = b.
Proof. intros [Ha _] [Hb _]. rewrite Ha in Hb. injection Hb as <-. reflexivity. Qed.

Lemma with_dimension_eq (v : option QueryValue) (bad : Response)
  (k : option JSNumber -> M Response) (log : Log) :
  with_dimension v bad k log =
    match parse_dimension v with
    | Some n => if out_of_range n then (Ok bad, log) else k (Some n) log
    | None => k None log
    end.
Proof.
  unfold with_dimension, parse_dimension.
  destruct v as [q|]; [|reflexivity].
  destruct (value_truthy q); [|reflexivity].
  destruct (out_of_range _); reflexivity.
Qed.

Lemma in_range (n : JSNumber) :
  out_of_range n = false -> dimension_ok (Some n) /\ number_truthy n = true.
Proof.
  destruct n as [z|]; simpl; [|discriminate].
  intro H. apply orb_false_elim in H. destruct H as [H1 H2].
  apply Z.ltb_ge in H1. rewrite Z.gtb_ltb in H2. apply Z.ltb_ge in H2.
  split; [lia|]. apply negb_true_iff, Z.eqb_neq. lia.
Qed.

(** What a dimension check leaves to the handler. *)
Lemma with_dimension_cases (v : option QueryValue) (bad : Response)
  (k : option JSNumber -> M Response) (log : Log) :
  with_dimension v bad k log = (Ok bad, log) \/
  (dimension_ok (parse_dimension v) /\
   (forall n, parse_dimension v = Some n -> number_truthy n = true) /\
   with_dimension v bad k log = k (parse_dimension v) log).
Proof.
  rewrite with_dimension_eq.
  destruct (parse_dimension v) as [n|].
  - destruct (out_of_range n) eqn:Hr; [left; reflexivity|].
    right. destruct (in_range n Hr) as [Hok Ht].
    split; [exact Hok|]. split; [|reflexivity].
    intros n' E. injection E as <-. exact Ht.
  - right. split; [exact I|]. split; [discriminate | reflexivity].
Qed.

Lemma format_check_cases (format : option QueryValue) :
  (format_check format = None /\ format <> Some (QString "xml")) \/
  (exists r, format_check format = Some r /\ status r = 400 /\
             format <> Some (QString "xml")) \/
  (format = Some (QString "xml") /\
   format_check format
   = Some (json_error 501 "Format not supported"
             "XML format is not currently supported. Please use JSON format.")).
Proof.
  destruct format as [[s|t]|].
  - destruct (String.eqb_spec s "xml") as [->|Hx].
    + right. right. split; reflexivity.
    + assert (Hne : Some (QString s) <> Some (QString "xml")) by congruence.
      unfold format_check. simpl.
      apply String.eqb_neq in Hx. rewrite Hx.
      destruct (truthy s && negb (String.eqb s "json" || false)).
      * right. left. eexists. split; [reflexivity|]. split; [reflexivity | exact Hne].
      * left. split; [reflexivity | exact Hne].
  - right. left. eexists. split; [reflexivity|]. split; [reflexivity | discriminate].
  - left. split; [reflexivity | discriminate].
Qed.

Section WithRuntime.
Context `{URLImpl} `{Http} `{Markup} `{Server}.

(** The checks of [url]: what is left to the handler. *)
Lemma with_url_cases (v : option QueryValue) (missing : string)
  (between_checks : option Response) (k : string -> M Response) (log : Log) :
  (exists r, with_url v missing between_checks k log = (Ok r, log) /\
     status r = 400 /\ forall url, ~ given v url) \/
  (exists url, given v url /\
     ((exists r, between_checks = Some r /\
                 with_url v missing between_checks k log = (Ok r, log)) \/
      (between_checks = None /\ isURL (trim url) = false /\
       exists r, with_url v missing between_checks k log = (Ok r, log) /\
                 status r = 400) \/
      (between_checks = None /\ isURL (trim url) = true /\
       with_url v missing between_checks k log = k (trim url) log))).
Proof.
  unfold with_url, given.
  destruct v as [[url|t]|]; simpl.
  - destruct (truthy url) eqn:Ht; simpl.
    + right. exists url. split; [split; [reflexivity | exact Ht]|].
      destruct between_checks as [r|].
      * left. exists r. split; reflexivity.
      * right. destruct (isURL (trim url)); simpl.
        -- right. repeat split.
        -- left. repeat split. eexists. split; reflexivity.
    + left. eexists. split; [reflexivity|]. split; [reflexivity|].
      intros url' [E Ht']. injection E as <-. rewrite Ht in Ht'. discriminate Ht'.
  - left. eexists. split; [reflexivity|]. split; [reflexivity|].
    intros url' [E _]. discriminate E.
  - left. eexists. split; [reflexivity|]. split; [reflexivity|].
    intros url' [E _]. discriminate E.
Qed.

(** The service as the handlers call it. *)
Lemma extract_call (url : string) (log : Log) :
  (URLParser.isValidUrl url = true /\
   exists m extra,
     EmbedService.extractMetadata EmbedService.embedService url log
     = (Ok m, (log ++ extra)%list) /\
     EmbedMetadata.url m = Some (URLParser.normalizeUrl url)) \/
  (URLParser.isValidUrl url = false /\
   EmbedService.extractMetadata EmbedService.embedService url log
   = (Throw (Error "Invalid URL provided"), log)).
Proof.
  destruct (URLParser.isValidUrl url) eqn:Hv.
  - left. split; [reflexivity|].
    destruct (RecordFacts.service_valid url log Hv) as (m0 & log' & _ & Hm).
    destruct (ServiceFacts.service_extract url log) as (r & extra & Hrun & _).
    rewrite Hm in Hrun. injection Hrun as <- ->.
    eexists. exists extra. split; [exact Hm | reflexivity].
  - right. split; [reflexivity|]. exact (RecordFacts.service_invalid url log Hv).
Qed.

Lemma getOEmbed_call (url : string) (options : OEmbedOptions.t) (log : Log) :
  (URLParser.isValidUrl url = true /\
   exists m extra,
     EmbedService.extractMetadata EmbedService.embedService url log
     = (Ok m, (log ++ extra)%list) /\
     ((exists response,
         EmbedService.getOEmbed EmbedService.embedService url options log
         = (Ok response, (log ++ extra)%list) /\
         OEmbedResponse.width response
         = JSValue.or (JSValue.of_number (OEmbedOptions.maxwidth options))
             (JSValue.or (EmbedMetadata.width m) (Some (JSValue.Num (JSInt 500)))) /\
         OEmbedResponse.height response
         = JSValue.or (JSValue.of_number (OEmbedOptions.maxheight options))
             (JSValue.or (EmbedMetadata.height m) (Some (JSValue.Num (JSInt 300))))) \/
      (PlatformParser.generateEmbed (Spec.parser_for url) m
         (RenderOptions.mk (OEmbedOptions.maxwidth options)
            (OEmbedOptions.maxheight options) None None None) = Throw TypeError /\
       EmbedService.getOEmbed EmbedService.embedService url options log
       = (Throw TypeError, (log ++ extra)%list)))) \/
  (URLParser.isValidUrl url = false /\
   EmbedService.getOEmbed EmbedService.embedService url options log
   = (Throw (Error "Invalid URL provided"), log)).
Proof.
  unfold EmbedService.getOEmbed, bind.
  destruct (extract_call url log) as [(Hv & m & extra & Hm & _) | (Hv & Hm)];
    rewrite Hm; [left | right; split; [exact Hv | reflexivity]].
  split; [exact Hv|]. unfold EmbedService.embedService.
  rewrite ServiceFacts.findParser_new.
  exists m, extra. split; [reflexivity|].
  fold (Spec.parser_for url). unfold lift.
  destruct (ServiceFacts.generateEmbed_outcome url m
              (RenderOptions.mk (OEmbedOptions.maxwidth options)
                 (OEmbedOptions.maxheight options) None None None))
    as [(html & ->) | ->].
  - left. eexists. split; [reflexivity|]. split; reflexivity.
  - right. split; reflexivity.
Qed.


(** The statuses of the [catch] blocks. *)
Lemma known_error_status (error : JSError) (response : Response) :
  known_error error = Some response ->
  In (status response) [400; 404; 408; 422].
Proof.
  unfold known_error.
  repeat match goal with
  | |- context [if ?c then _ else _] => destruct c
  end; intro E; try discriminate E; injection E as <-; simpl; auto.
Qed.

Lemma oembed_catch_status (error : JSError) :
  In (status (oembed_catch error)) [400; 404; 408; 422; 500].
Proof.
  unfold oembed_catch.
  destruct (known_error error) as [r|] eqn:E; [|simpl; auto 6].
  pose proof (known_error_status error r E) as Hin. simpl in *.
  intuition auto.
Qed.

Lemma render_catch_status (error : JSError) :
  In (status (render_catch error)) [400; 404; 408; 422; 500].
Proof.
  unfold render_catch.
  destruct (known_error error) as [r|] eqn:E; [|simpl; auto 6].
  pose proof (known_error_status error r E) as Hin. simpl in *.
  intuition auto.
Qed.


(** *** The runs of the three handlers *)

Lemma extract_cases (query : ExtractQuery) (log : Log) :
  (exists r, Routes.extract query log = (Ok r, log) /\ status r = 400 /\
     forall url, ~ (given (e_url query) url /\ isURL (trim url) = true /\
                    URLParser.isValidUrl (trim url) = true)) \/
  (exists url m extra,
     given (e_url query) url /\ isURL (trim url) = true /\
     URLParser.isValidUrl (trim url) = true /\
     EmbedMetadata.url m = Some (URLParser.normalizeUrl (trim url)) /\
     Routes.extract query log
     = (Ok (mkresp 200 [] (ExtractJson m now)), (log ++ extra)%list)).
Proof.
  unfold Routes.extract, try_catch.
  destruct (with_url_cases (e_url query)
              "Please provide a valid URL to extract metadata from" None
              (fun trimmedUrl =>
                 metadata <- EmbedService.extractMetadata EmbedService.embedService
                               trimmedUrl ;;
                 ret (mkresp 200 [] (ExtractJson metadata now))) log)
    as [(r & -> & Hs & Hno) | (url & Hg & [(r & Hb & _) | [(_ & Hu & r & -> & Hs) | (_ & Hu & ->)]])].
  - left. exists r. split; [reflexivity|]. split; [exact Hs|].
    intros url (Hg & _). exact (Hno url Hg).
  - discriminate Hb.
  - left. exists r. split; [reflexivity|]. split; [exact Hs|].
    intros url' (Hg' & Hu' & _). rewrite (given_unique _ _ _ Hg' Hg) in Hu'.
    rewrite Hu in Hu'. discriminate Hu'.
  - unfold bind.
    destruct (extract_call (trim url) log) as [(Hv & m & extra & -> & Hm) | (Hv & ->)].
    + right. exists url, m, extra. repeat split; try assumption; apply Hg.
    + left. eexists. split; [reflexivity|]. split; [reflexivity|].
      intros url' (Hg' & _ & Hv'). rewrite (given_unique _ _ _ Hg' Hg) in Hv'.
      rewrite Hv in Hv'. discriminate Hv'.
Qed.

Lemma oembed_cases (query : OEmbedQuery) (log : Log) :
  (exists r, Routes.oembed query log = (Ok r, log) /\ status r = 400 /\
     ((forall url, ~ given (o_url query) url) \/
      o_format query <> Some (QString "xml"))) \/
  (exists url, given (o_url query) url /\ o_format query = Some (QString "xml") /\
     Routes.oembed query log
     = (Ok (json_error 501 "Format not supported"
              "XML format is not currently supported. Please use JSON format."), log)) \/
  (exists url m extra,
     given (o_url query) url /\ o_format query <> Some (QString "xml") /\
     isURL (trim url) = true /\ URLParser.isValidUrl (trim url) = true /\
     dimension_ok (parse_dimension (o_maxwidth query)) /\
     dimension_ok (parse_dimension (o_maxheight query)) /\
     EmbedService.extractMetadata EmbedService.embedService (trim url) log
     = (Ok m, (log ++ extra)%list) /\
     ((exists response,
         (forall n, parse_dimension (o_maxwidth query) = Some n ->
                    OEmbedResponse.width response = Some (JSValue.Num n)) /\
         (forall n, parse_dimension (o_maxheight query) = Some n ->
                    OEmbedResponse.height response = Some (JSValue.Num n)) /\
         Routes.oembed query log
         = (Ok (mkresp 200
                  [("Content-Type", "application/json");
                   ("Cache-Control", "public, max-age=3600")]
                  (OEmbedJson response)), (log ++ extra)%list)) \/
      (PlatformParser.generateEmbed (Spec.parser_for (trim url)) m
         (RenderOptions.mk (parse_dimension (o_maxwidth query))
            (parse_dimension (o_maxheight query)) None None None) = Throw TypeError /\
       Routes.oembed query log
       = (Ok (oembed_catch TypeError), (log ++ extra)%list)))).
Proof.
  unfold Routes.oembed, try_catch.
  match goal with
  | |- context [with_url ?v ?m ?b ?k log] =>
      destruct (with_url_cases v m b k log)
        as [(r & -> & Hs & Hno)
           | (url & Hg & [(r & Hb & ->) | [(Hb & Hu & r & -> & Hs) | (Hb & Hu & ->)]])]
  end.
  - left. exists r. split; [reflexivity|]. split; [exact Hs|]. left. exact Hno.
  - destruct (format_check_cases (o_format query))
      as [[Hf _] | [(r' & Hf & Hs & Hne) | (Hx & Hf)]];
      rewrite Hf in Hb; try discriminate Hb; injection Hb as <-.
    + left. exists r'. split; [reflexivity|]. split; [exact Hs|]. right. exact Hne.
    + right. left. exists url. split; [exact Hg|]. split; [exact Hx | reflexivity].
  - assert (Hne : o_format query <> Some (QString "xml")).
    { destruct (format_check_cases (o_format query))
        as [[_ Hne] | [(r' & Hf & _) | (_ & Hf)]];
        [exact Hne | rewrite Hf in Hb; discriminate Hb
        | rewrite Hf in Hb; discriminate Hb]. }
    left. exists r. split; [reflexivity|]. split; [exact Hs|]. right. exact Hne.
  - assert (Hne : o_format query <> Some (QString "xml")).
    { destruct (format_check_cases (o_format query))
        as [[_ Hne] | [(r' & Hf & _) | (_ & Hf)]];
        [exact Hne | rewrite Hf in Hb; discriminate Hb
        | rewrite Hf in Hb; discriminate Hb]. }
    match goal with
    | |- context [with_dimension ?v ?bad ?k log] =>
        destruct (with_dimension_cases v bad k log) as [-> | (Hw & Hwt & ->)]
    end.
    { left. eexists. split; [reflexivity|]. split; [reflexivity|]. right. exact Hne. }
    match goal with
    | |- context [with_dimension ?v ?bad ?k log] =>
        destruct (with_dimension_cases v bad k log) as [-> | (Hh & Hht & ->)]
    end.
    { left. eexists. split; [reflexivity|]. split; [reflexivity|]. right. exact Hne. }
    unfold bind.
    destruct (getOEmbed_call (trim url)
                (OEmbedOptions.mk (parse_dimension (o_maxwidth query))
                   (parse_dimension (o_maxheight query))) log)
      as [(Hv & m & extra & Hm & [(response & -> & Hrw & Hrh) | (Hfail & ->)])
         | (Hv & ->)].
    + right. right. exists url, m, extra.
      split; [exact Hg|]. split; [exact Hne|]. split; [exact Hu|].
      split; [exact Hv|]. split; [exact Hw|]. split; [exact Hh|].
      split; [exact Hm|]. left. exists response.
      simpl in Hrw, Hrh.
      split; [|split; [|reflexivity]].
      * intros n Hn. rewrite Hrw, Hn. unfold JSValue.or at 1. simpl.
        rewrite (Hwt n Hn). reflexivity.
      * intros n Hn. rewrite Hrh, Hn. unfold JSValue.or at 1. simpl.
        rewrite (Hht n Hn). reflexivity.
    + right. right. exists url, m, extra.
      split; [exact Hg|]. split; [exact Hne|]. split; [exact Hu|].
      split; [exact Hv|]. split; [exact Hw|]. split; [exact Hh|].
      split; [exact Hm|]. right. split; [exact Hfail | reflexivity].
    + left. eexists. split; [reflexivity|]. split; [reflexivity|]. right. exact Hne.
Qed.


End WithRuntime.
End RouteFacts.

(* ------------------------------------------------------------------ *)
(** ** The model at work *)

Module Examples.
Import RegExp URLPatterns URLParser Reference.

(** The quantifiers are greedy and give back: [.+] first takes the rest
    of the address, then leaves the last segment to the id. *)
Example watch_path_backtracks :
  option_map matched (exec youtube_watch "https://www.youtube.com/user/a/b/dQw4w9WgXcQ-more")
  = Some "https://www.youtube.com/user/a/b/dQw4w9WgXcQ" /\
  extractYouTubeVideoId "https://www.youtube.com/user/a/b/dQw4w9WgXcQ-more"
  = Some "dQw4w9WgXcQ".
Proof. split; vm_compute; reflexivity. Qed.

(** The search starts at every index, and [i] ignores case. *)
Example watch_inside_text :
  option_map index (exec youtube_watch "see HTTPS://YouTube.com/watch?a=1&v=abcdefghijk") = Some 4.
Proof. vm_compute. reflexivity. Qed.

Example ten_characters_are_no_id :
  test youtube_watch "https://youtu.be/abcdefghij" = false /\
  detectPlatform "https://youtu.be/abcdefghij" = generic.
Proof. split; vm_compute; reflexivity. Qed.

Example ids_of_the_other_platforms :
  extractInstagramPostId "https://www.instagram.com/reel/Cx_-9/?hl=en" = Some "Cx_-9" /\
  extractTikTokVideoId "https://www.tiktok.com/@user/video/7234567890" = Some "7234567890" /\
  extractTikTokVideoId "https://vm.tiktok.com/ZMabc12/" = Some "ZMabc12" /\
  extractLinkedInPostId "https://www.linkedin.com/pulse/writer/my-post_1" = Some "my-post_1" /\
  extractTwitterTweetId "https://x.com/jack/status/20?s=20" = Some "20" /\
  extractTwitterTweetId "https://example.com/" = None.
Proof. repeat split; vm_compute; reflexivity. Qed.

(** The query codec: empty sequences are skipped, [+] is a space,
    ill-formed UTF-8 becomes U+FFFD. *)
Example form_codec :
  URL.form_parse "a=1&&b=%41+c&d&=x" = [("a", "1"); ("b", "A c"); ("d", ""); ("", "x")]
  /\ URL.form_serialize (URL.form_parse "a=1&&b=%41+c&d&=x&e=%ff") =
     "a=1&b=A+c&d=&=x&e=%EF%BF%BD".
Proof. split; vm_compute; reflexivity. Qed.

(** [normalizeUrl] on the reference parser: tracking parameters go, the
    others stay; a missing protocol is added. *)
Example normalizeUrl_strips_tracking :
  normalizeUrl "https://example.com/a?utm_source=x&keep=1" = "https://example.com/a?keep=1"
  /\ normalizeUrl "example.com/a?fbclid=1&ref=2" = "https://example.com/a"
  /\ normalizeUrl "https://www.youtube.com/watch?v=dQw4w9WgXcQ&gclid=3"
     = "https://www.youtube.com/watch?v=dQw4w9WgXcQ".
Proof. repeat split; vm_compute; reflexivity. Qed.

(** A request to the oEmbed endpoint, and the record built from its
    answer. *)
Example youtube_from_oembed :
  let answer :=
    JSValue.Obj
      [("title", JSValue.Str "A video"); ("author_name", JSValue.Str "A channel");
       ("author_url", JSValue.Str "https://www.youtube.com/@channel");
       ("thumbnail_url", JSValue.Str "https://i.ytimg.com/vi/dQw4w9WgXcQ/hqdefault.jpg");
       ("width", JSValue.Num (JSInt 200)); ("height", JSValue.Num (JSInt 113))] in
  exists m,
    service_run (fun _ _ => Some (Json answer))
      "https://www.youtube.com/watch?v=dQw4w9WgXcQ&utm_source=app"
    = (Ok m, ["https://www.youtube.com/oembed?url=https%3A%2F%2Fwww.youtube.com%2Fwatch%3Fv%3DdQw4w9WgXcQ&format=json"])
    /\ EmbedMetadata.title m = Some (JSValue.Str "A video")
    /\ EmbedMetadata.description m
       = Some ("Watch " ++ YouTubeParser.quote ++ "A video" ++ YouTubeParser.quote
               ++ " by A channel")
    /\ EmbedMetadata.width m = Some (JSValue.Num (JSInt 200))
    /\ EmbedMetadata.platform m = Some youtube
    /\ EmbedMetadata.url m = Some "https://www.youtube.com/watch?v=dQw4w9WgXcQ"
    /\ EmbedMetadata.embedData m
       = Some (EmbedData.mk "dQw4w9WgXcQ" "https://www.youtube.com/embed/dQw4w9WgXcQ").
Proof. eexists. split; [vm_compute; reflexivity|]. repeat split. Qed.

(** An answer that is not what the endpoint promises is copied all the
    same: a title that is a number stays a number in the record, and the
    description prints it. *)
Example youtube_from_untyped_answer :
  let answer :=
    JSValue.Obj [("title", JSValue.Num (JSInt 123));
                 ("width", JSValue.Str "wide");
                 ("author_name", JSValue.Arr [JSValue.Str "a"; JSValue.Null;
                                              JSValue.Boolean true])] in
  exists m log',
    service_run (fun _ _ => Some (Json answer)) "https://youtu.be/dQw4w9WgXcQ"
    = (Ok m, log')
    /\ EmbedMetadata.title m = Some (JSValue.Num (JSInt 123))
    /\ EmbedMetadata.width m = Some (JSValue.Str "wide")
    /\ EmbedMetadata.description m
       = Some ("Watch " ++ YouTubeParser.quote ++ "123" ++ YouTubeParser.quote
               ++ " by a,,true").
Proof. eexists. eexists. split; [vm_compute; reflexivity|]. repeat split. Qed.

(** A body that is no JSON text arrives as a string, which is truthy and
    has none of the properties: the record has no title, and its
    description prints [undefined] twice. *)
Example youtube_from_text_answer :
  exists m log',
    service_run (serving (Cheerio.mkdoc [] [])) "https://youtu.be/dQw4w9WgXcQ"
    = (Ok m, log')
    /\ EmbedMetadata.title m = None
    /\ EmbedMetadata.description m
       = Some ("Watch " ++ YouTubeParser.quote ++ "undefined" ++ YouTubeParser.quote
               ++ " by undefined").
Proof. eexists. eexists. split; [vm_compute; reflexivity|]. repeat split. Qed.

End Examples.

(* ------------------------------------------------------------------ *)
(** ** The properties the specification states *)

Import JSString EmbedMetadata.




(** C2.  When the service has dispatched a valid address to a parser that
    is not the generic one and that parser's [extractMetadata] throws, the
    service catches the error and answers with one run of the generic
    parser on the normalized address: what the caller gets, a record or an
    error, is what that run gives. *)
Theorem service_falls_back_to_generic `{URLImpl} `{Http}
  (this : EmbedService.t) (url : string) (parser : PlatformParser.t)
  (e : JSError) (log log1 : Log) :
  URLParser.isValidUrl url = true ->
  EmbedService.findParser this (URLParser.normalizeUrl url) = Some parser ->
  PlatformParser.instanceofGenericParser parser = false ->
  PlatformParser.extractMetadata parser (URLParser.normalizeUrl url) log
  = (Throw e, log1) ->
  EmbedService.extractMetadata this url log
  = GenericParser.extractMetadata (URLParser.normalizeUrl url) log1 /\
  (forall e',
     fst (EmbedService.extractMetadata this url log) = Throw e' ->
     fst (GenericParser.extractMetadata (URLParser.normalizeUrl url) log1) = Throw e').
Proof.
  intros Hvalid Hfind Hgen Hthrow.
  assert (Heq : EmbedService.extractMetadata this url log
                = GenericParser.extractMetadata (URLParser.normalizeUrl url) log1).
  { unfold EmbedService.extractMetadata. rewrite Hvalid.
    change (negb true) with false. cbv iota zeta. rewrite Hfind.
    rewrite (ExtractorFacts.try_throw _ _ _ _ _
               (ExtractorFacts.bind_throw _ _ _ _ _ Hthrow)).
    rewrite Hgen. reflexivity. }
  split; [exact Heq|]. intros e' He. rewrite <- Heq. exact He.
Qed.

Lemma service_falls_back_to_generic_witness :
  let this := EmbedService.mk
                [Reference.throwing_parser;
                 @GenericParser.parser Reference.url_impl
                   (Reference.http Reference.offline) Reference.markup] in
  let url := "https://example.com/a?utm_source=x" in
  (@URLParser.isValidUrl Reference.url_impl url = true /\
   EmbedService.findParser this (@URLParser.normalizeUrl Reference.url_impl url)
   = Some Reference.throwing_parser /\
   PlatformParser.instanceofGenericParser Reference.throwing_parser = false /\
   PlatformParser.extractMetadata Reference.throwing_parser
     (@URLParser.normalizeUrl Reference.url_impl url) []
   = (Throw (Error "Invalid YouTube URL"), [])) /\
  @EmbedService.extractMetadata Reference.url_impl (Reference.http Reference.offline)
    this url []
  = @GenericParser.extractMetadata Reference.url_impl (Reference.http Reference.offline)
      "https://example.com/a" [].
Proof.
  split; [repeat split|].
  exact (proj1 (@service_falls_back_to_generic Reference.url_impl
                  (Reference.http Reference.offline)
                  (EmbedService.mk
                     [Reference.throwing_parser;
                      @GenericParser.parser Reference.url_impl
                        (Reference.http Reference.offline) Reference.markup])
                  "https://example.com/a?utm_source=x" Reference.throwing_parser
                  (Error "Invalid YouTube URL") [] []
                  eq_refl eq_refl eq_refl eq_refl)).
Defined.

(** C3, as it holds.  One call of [extractMetadata], [getOEmbed] or
    [renderEmbed] issues at most two requests, one after the other, and
    the three issue the same ones: none when the address is not valid;
    the oEmbed request alone when the YouTube parser handles the
    normalized address; otherwise the request for the page, and that
    request once more exactly when the first pass has left the title or
    the description empty, as it does whenever the first request
    fails. *)
Theorem service_call_fetches `{URLImpl} `{Http} `{Markup}
  (url : string) (log : Log)
  (oembedOptions : OEmbedOptions.t) (renderOptions : RenderOptions.t) :
  let normalizedUrl := URLParser.normalizeUrl url in
  let service := EmbedService.embedService in
  exists extra,
    snd (EmbedService.extractMetadata service url log) = (log ++ extra)%list /\
    snd (EmbedService.getOEmbed service url oembedOptions log) = (log ++ extra)%list /\
    snd (EmbedService.renderEmbed service url renderOptions log) = (log ++ extra)%list /\
    List.length extra <= 2 /\
    if URLParser.isValidUrl url
    then if YouTubeParser.canHandle normalizedUrl
         then extra = [YouTubeParser.oembed_address normalizedUrl]
         else exists og,
                MetadataExtractor.extractOpenGraph normalizedUrl log
                = (Ok og, (log ++ [normalizedUrl])%list) /\
                extra = (if JSValue.truthy_opt (title og) && truthy_opt (description og)
                         then [normalizedUrl] else [normalizedUrl; normalizedUrl]) /\
                (network (List.length log) normalizedUrl = None ->
                 extra = [normalizedUrl; normalizedUrl])
    else extra = [].
Proof.
  intros normalizedUrl service.
  destruct (ServiceFacts.service_fetches_exact url log) as (r & extra & Hrun & Hcase).
  fold normalizedUrl in Hcase. fold service in Hrun.
  exists extra. split; [rewrite Hrun; reflexivity|].
  split; [|split; [|split]].
  - unfold EmbedService.getOEmbed, bind. rewrite Hrun.
    destruct r as [m|e]; [|reflexivity].
    unfold service, EmbedService.embedService. rewrite ServiceFacts.findParser_new.
    unfold lift. destruct (PlatformParser.generateEmbed _ m _); reflexivity.
  - unfold EmbedService.renderEmbed, bind. rewrite Hrun.
    destruct r as [m|e]; [|reflexivity].
    unfold service, EmbedService.embedService. rewrite ServiceFacts.findParser_new.
    reflexivity.
  - destruct (URLParser.isValidUrl url);
      [destruct (YouTubeParser.canHandle normalizedUrl)|].
    + subst extra. simpl. lia.
    + destruct Hcase as (og & _ & ->). unfold Spec.page_fetches_of.
      destruct (JSValue.truthy_opt (title og) && truthy_opt (description og));
        simpl; lia.
    + subst extra. simpl. lia.
  - destruct (URLParser.isValidUrl url); [|exact Hcase].
    destruct (YouTubeParser.canHandle normalizedUrl); [exact Hcase|].
    destruct Hcase as (og & Hog & ->). exists og. split; [exact Hog|].
    split; [reflexivity|]. intro Hoff.
    rewrite (ExtractorFacts.extractOpenGraph_offline normalizedUrl log Hoff) in Hog.
    injection Hog as <-. unfold Spec.page_fetches_of. simpl.
    destruct (truthy (MetadataExtractor.getDomainFromUrl normalizedUrl)); reflexivity.
Qed.

Lemma service_call_fetches_witness :
  let url := "https://example.com/film?utm_source=feed" in
  let net := Reference.serving (Reference.typed_page "video") in
  snd (Reference.service_run net url) = ["https://example.com/film"].
Proof.
  intros url net.
  destruct (@service_call_fetches Reference.url_impl (Reference.http net)
              Reference.markup url [] OEmbedOptions.default RenderOptions.default)
    as (extra & Hrun & _ & _ & _ & Hcase).
  unfold Reference.service_run. rewrite Hrun.
  assert (Hv : @URLParser.isValidUrl Reference.url_impl url = true)
    by (vm_compute; reflexivity).
  assert (Hn : @URLParser.normalizeUrl Reference.url_impl url
               = "https://example.com/film") by (vm_compute; reflexivity).
  rewrite Hv, Hn in Hcase.
  assert (Hc : YouTubeParser.canHandle "https://example.com/film" = false)
    by (vm_compute; reflexivity).
  rewrite Hc in Hcase. destruct Hcase as (og & Hog & -> & _).
  assert (Hfirst : exists og',
            @MetadataExtractor.extractOpenGraph Reference.url_impl (Reference.http net)
              "https://example.com/film" []
            = (Ok og', ["https://example.com/film"]) /\
            JSValue.truthy_opt (title og') && truthy_opt (description og') = true)
    by (eexists; split; vm_compute; reflexivity).
  destruct Hfirst as (og' & Hog' & Ht).
  rewrite Hog' in Hog. injection Hog as <-. rewrite Ht. reflexivity.
Defined.

(** C3, as stated, fails: for an address of the generic parser whose
    page cannot be fetched the service asks for the page twice, and never
    for an oEmbed document. *)
Lemma service_fetches_page_twice :
  let url := "https://example.com/" in
  snd (Reference.service_run Reference.offline url) = [url; url] /\
  ~ Spec.fetches_as_listed url
      (snd (Reference.service_run Reference.offline url)).
Proof.
  split; [vm_compute; reflexivity|].
  intros (o & p & Heq & Ho & Hp).
  assert (E : snd (Reference.service_run Reference.offline "https://example.com/")
              = ["https://example.com/"; "https://example.com/"])
    by (vm_compute; reflexivity).
  rewrite E in Heq.
  destruct Ho as [-> | ->], Hp as [-> | ->]; simpl in Heq; discriminate Heq.
Qed.





(** C5, as it holds.  When the URL parser rejects the string inside
    [normalizeUrl], [normalizeUrl] returns the string it tried to parse:
    the input itself when that starts with [http://] or [https://], and
    the input with [https://] put in front of it otherwise. *)
Theorem normalizeUrl_on_parse_failure `{URLImpl} (url : string) :
  new_URL (URLParser.with_protocol url) = None ->
  URLParser.normalizeUrl url =
    if startsWith url "http://" || startsWith url "https://"
    then url else "https://" ++ url.
Proof.
  intro Hfail. unfold URLParser.normalizeUrl. rewrite Hfail.
  unfold URLParser.with_protocol.
  destruct (startsWith url "http://"), (startsWith url "https://"); reflexivity.
Qed.

Lemma normalizeUrl_on_parse_failure_witness :
  @new_URL Reference.url_impl (URLParser.with_protocol "http://exa mple") = None /\
  @URLParser.normalizeUrl Reference.url_impl "http://exa mple" = "http://exa mple".
Proof.
  split; [reflexivity|].
  exact (@normalizeUrl_on_parse_failure Reference.url_impl "http://exa mple" eq_refl).
Defined.

(** C5, as stated, fails: the input [exa mple] has no protocol, the
    parser rejects it with [https://] in front, and [normalizeUrl]
    returns it with [https://] in front. *)
Lemma normalizeUrl_returns_prefixed_input :
  @new_URL Reference.url_impl (URLParser.with_protocol "exa mple") = None /\
  @URLParser.normalizeUrl Reference.url_impl "exa mple" = "https://exa mple" /\
  @URLParser.normalizeUrl Reference.url_impl "exa mple" <> "exa mple".
Proof.
  split; [reflexivity|]. split; [reflexivity|]. discriminate.
Qed.

(** C6, where the code misses it.  An image address that is relative and
    begins with the letters [http] is stored as it is; and when the first
    request fails and the second brings a page, the relative
    [twitter:image] of that page is stored as it is. *)
Theorem relative_image_stored :
  (exists m log',
     Reference.generic_run
       (Reference.serving (Reference.image_page "httpdocs/cover.png"))
       "https://example.com/post" = (Ok m, log') /\
     image m = Some (JSValue.Str "httpdocs/cover.png")) /\
  (exists m log',
     Reference.generic_run
       (Reference.flaky (Reference.card_page "/img/cover.png"))
       "https://example.com/post" = (Ok m, log') /\
     image m = Some (JSValue.Str "/img/cover.png")).
Proof.
  split; eexists; eexists; (split; [vm_compute; reflexivity | reflexivity]).
Qed.

(** What the same page gives when the image address does not begin with
    [http]: the address resolved against the origin of the page. *)
Example relative_image_resolved :
  exists m log',
    Reference.generic_run
      (Reference.serving (Reference.image_page "/img/cover.png"))
      "https://example.com/post" = (Ok m, log') /\
    image m = Some (JSValue.Str "https://example.com/img/cover.png").
Proof.
  eexists; eexists; (split; [vm_compute; reflexivity | reflexivity]).
Qed.

(** C7, as it holds.  When a pattern of a platform matches the address,
    the id extractor of that platform returns the first capture of the
    first of its patterns that matches; and [detectPlatform] returns that
    platform when no pattern of a platform before it in the table
    matches, the table being in the order youtube, instagram, tiktok,
    linkedin, twitter. *)
Theorem detect_and_extract_first_match (p : Platform) (url : string) :
  p <> generic ->
  URLParser.any_test (URLParser.patterns_of p) url = true ->
  (exists re m id,
     Spec.first_matching (URLParser.patterns_of p) url = Some re /\
     RegExp.exec re url = Some m /\
     RegExp.group 1 m = Some id /\
     URLParser.extractId p url = Some id) /\
  ((forall q, Spec.rank q < Spec.rank p ->
              URLParser.any_test (URLParser.patterns_of q) url = false) ->
   URLParser.detectPlatform url = p).
Proof.
  intros Hp Hmatch. split.
  - destruct (URLParserFacts.any_test_first_matching _ _ Hmatch) as (re & Hre & _).
    destruct (URLParserFacts.extractId_first_matching p url re Hp Hre)
      as (m & id & Hm & Hg & _ & Hid).
    exists re, m, id. auto.
  - intro Hearlier. exact (URLParserFacts.detectPlatform_first p url Hp Hmatch Hearlier).
Qed.

Lemma detect_and_extract_first_match_witness :
  let url := "https://www.youtube.com/watch?v=dQw4w9WgXcQ" in
  (youtube <> generic /\
   URLParser.any_test (URLParser.patterns_of youtube) url = true /\
   (forall q, Spec.rank q < Spec.rank youtube ->
              URLParser.any_test (URLParser.patterns_of q) url = false)) /\
  URLParser.detectPlatform url = youtube.
Proof.
  assert (Hfirst : forall q, Spec.rank q < Spec.rank youtube ->
             URLParser.any_test (URLParser.patterns_of q)
               "https://www.youtube.com/watch?v=dQw4w9WgXcQ" = false).
  { intros q Hq. exfalso. unfold Spec.rank in Hq. simpl in Hq. lia. }
  split.
  - split; [discriminate|]. split; [vm_compute; reflexivity | exact Hfirst].
  - refine (proj2 (detect_and_extract_first_match youtube
                     "https://www.youtube.com/watch?v=dQw4w9WgXcQ" _ _) Hfirst).
    + discriminate.
    + vm_compute. reflexivity.
Defined.

(** The two addresses the specification gives. *)
Example youtube_watch_address :
  URLParser.detectPlatform "https://www.youtube.com/watch?v=dQw4w9WgXcQ" = youtube /\
  URLParser.extractYouTubeVideoId "https://www.youtube.com/watch?v=dQw4w9WgXcQ"
  = Some "dQw4w9WgXcQ".
Proof. split; vm_compute; reflexivity. Qed.

Example youtube_short_address :
  URLParser.detectPlatform "https://youtu.be/dQw4w9WgXcQ" = youtube /\
  URLParser.extractYouTubeVideoId "https://youtu.be/dQw4w9WgXcQ"
  = Some "dQw4w9WgXcQ".
Proof. split; vm_compute; reflexivity. Qed.

(** C7, as stated, fails: an Instagram address that carries a YouTube
    address in its query matches the Instagram pattern, and
    [detectPlatform] returns [youtube] for it. *)
Lemma instagram_address_detected_as_youtube :
  let url := "https://www.instagram.com/p/Cabc123/?igshid=youtu.be/abcdefghijk" in
  URLParser.any_test (URLParser.patterns_of instagram) url = true /\
  URLParser.detectPlatform url = youtube /\
  URLParser.detectPlatform url <> instagram.
Proof.
  split; [vm_compute; reflexivity|].
  assert (E : URLParser.detectPlatform
                "https://www.instagram.com/p/Cabc123/?igshid=youtu.be/abcdefghijk"
              = youtube) by (vm_compute; reflexivity).
  split; [exact E|]. simpl. rewrite E. discriminate.
Qed.

(** C8.  [normalizeUrl] is idempotent, for a URL parser that parses the
    serialization of an [http] or [https] URL back to it. *)
Theorem normalizeUrl_idempotent `{URLLaws} (u : string) :
  URLParser.normalizeUrl (URLParser.normalizeUrl u) = URLParser.normalizeUrl u.
Proof.
  destruct (URL_parse (URLParser.with_protocol u) None) as [r|] eqn:Hp.
  - (* the address parses: the second pass parses the serialization of
       the first and finds no tracking parameter left *)
    rewrite (NormalizeFacts.normalizeUrl_parsed u r Hp).
    set (l := Spec.kept URLParser.trackingParams (URL.initial_list r)).
    assert (Hl : Spec.scrubbed l)
      by apply NormalizeFacts.kept_scrubbed, URLFacts.initial_list_scrubbed.
    destruct (NormalizeFacts.parsed_scheme u r Hp) as [Hs Hh].
    assert (Hfix : URLParser.with_protocol (URL.toString (URL.update l r))
                   = URL.toString (URL.update l r)).
    { apply NormalizeFacts.with_protocol_fixed, NormalizeFacts.toString_starts;
        assumption. }
    assert (Hre : URL_parse (URLParser.with_protocol (URL.toString (URL.update l r))) None
                  = Some (URL.update l r)).
    { rewrite Hfix. exact (reparse _ _ l Hp Hs). }
    rewrite (NormalizeFacts.normalizeUrl_parsed _ _ Hre).
    rewrite (URLFacts.initial_list_update l r Hl). unfold l.
    rewrite NormalizeFacts.kept_idem, NormalizeFacts.update_update. reflexivity.
  - (* the address does not parse: the second pass tries the same string *)
    rewrite (NormalizeFacts.normalizeUrl_failed u Hp).
    unfold URLParser.normalizeUrl, new_URL.
    rewrite NormalizeFacts.with_protocol_idem, Hp. reflexivity.
Qed.

Lemma normalizeUrl_idempotent_witness :
  let u := "example.com/a?utm_source=x&keep=1#top" in
  @URLParser.normalizeUrl Reference.url_impl u = "https://example.com/a?keep=1#top" /\
  @URLParser.normalizeUrl Reference.url_impl (@URLParser.normalizeUrl Reference.url_impl u)
  = @URLParser.normalizeUrl Reference.url_impl u.
Proof.
  split; [vm_compute; reflexivity|].
  exact (@normalizeUrl_idempotent Reference.url_impl ReferenceFacts.url_laws
           "example.com/a?utm_source=x&keep=1#top").
Defined.

(** C9.  A record that an extractor returns (the YouTube parser from the
    oEmbed answer or from its fallbacks, the generic parser from the page
    or from its fallbacks, and the three extractors of [MetadataExtractor]
    under it) or that the service returns has its type, its platform and
    its address set.  So have the records of the [catch] branches: the
    minimal record of the YouTube parser is a [video] of [youtube], the
    minimal record of the generic parser and the record that the
    extractors of [MetadataExtractor] fall back to are a [link] of
    [generic], each with the address it was asked for.  The YouTube
    parser returns its minimal record when the oEmbed answer is truthy
    and its title or its author name cannot be printed. *)
Theorem returned_metadata_tagged `{URLImpl} `{Http} `{Markup}
  (url videoId : string) (log : Log) :
  (forall m log',
     YouTubeParser.extractMetadata url log = (Ok m, log') \/
     GenericParser.extractMetadata url log = (Ok m, log') \/
     MetadataExtractor.extractOpenGraph url log = (Ok m, log') \/
     MetadataExtractor.extractTwitterCards url log = (Ok m, log') \/
     MetadataExtractor.extractBasicMetadata url log = (Ok m, log') \/
     EmbedService.extractMetadata EmbedService.embedService url log = (Ok m, log') ->
     type m <> None /\ platform m <> None /\ EmbedMetadata.url m <> None) /\
  (type (YouTubeParser.minimal videoId url) = Some EmbedType.video /\
   platform (YouTubeParser.minimal videoId url) = Some youtube /\
   EmbedMetadata.url (YouTubeParser.minimal videoId url) = Some url) /\
  (type (GenericParser.minimal url) = Some EmbedType.link /\
   platform (GenericParser.minimal url) = Some generic /\
   EmbedMetadata.url (GenericParser.minimal url) = Some url) /\
  (type (MetadataExtractor.fallback url) = Some EmbedType.link /\
   platform (MetadataExtractor.fallback url) = Some generic /\
   EmbedMetadata.url (MetadataExtractor.fallback url) = Some url) /\
  (forall body,
     URLParser.extractYouTubeVideoId url = Some videoId ->
     network (List.length log) (YouTubeParser.oembed_address url) = Some body ->
     JSValue.truthy (response_data body) = true ->
     JSValue.interpolate (JSValue.get "title" (response_data body)) = None \/
     JSValue.interpolate (JSValue.get "author_name" (response_data body)) = None ->
     YouTubeParser.extractMetadata url log
     = (Ok (YouTubeParser.minimal videoId url),
        (log ++ [YouTubeParser.oembed_address url])%list)).
Proof.
  split; [|split; [|split; [|split]]]; try (repeat split; fail).
  - intros m log' [Hy | [Hg | [Ho | [Ht | [Hb | Hs]]]]].
    + pose proof (ServiceFacts.youtube_extract url log) as Hout.
      rewrite Hy in Hout. inversion Hout; subst. assumption.
    + destruct (ServiceFacts.generic_returns url log) as (m' & extra & Hr & _ & Htag & _).
      rewrite Hg in Hr. injection Hr as <- _. exact Htag.
    + destruct (ExtractorFacts.extractOpenGraph_returns url log) as (m' & Hr & Htag & _).
      rewrite Ho in Hr. injection Hr as <-. exact Htag.
    + destruct (ExtractorFacts.extractTwitterCards_returns url log) as (m' & Hr & Htag).
      rewrite Ht in Hr. injection Hr as <-. exact Htag.
    + destruct (ExtractorFacts.extractBasicMetadata_returns url log)
        as (m' & extra & Hr & _ & Htag).
      rewrite Hb in Hr. injection Hr as <- _. exact Htag.
    + destruct (ServiceFacts.service_extract url log) as (r & extra & Hr & _ & Htag & _).
      rewrite Hs in Hr. injection Hr as <- _. exact (Htag m eq_refl).
  - intros body Hid Hnet Htruthy Hcannot.
    unfold YouTubeParser.extractMetadata. rewrite Hid.
    rewrite (ServiceFacts.first_id_truthy _ _ _ Hid). simpl.
    unfold try_catch, bind, YouTubeParser.fetchOEmbedData, try_catch, bind, axios_get.
    rewrite Hnet. simpl. rewrite Htruthy. unfold YouTubeParser.from_oembed.
    destruct Hcannot as [Hti | Ha].
    + rewrite Hti. reflexivity.
    + rewrite Ha.
      destruct (JSValue.interpolate (JSValue.get "title" (response_data body)));
        reflexivity.
Qed.

Lemma returned_metadata_tagged_witness :
  let url := "https://youtu.be/dQw4w9WgXcQ" in
  let answer := JSValue.Obj [("title", JSValue.Obj [("toString", JSValue.Null)])] in
  let net := fun (_ : nat) (_ : string) => Some (Reference.Json answer) in
  exists m log',
    Reference.service_run net url = (Ok m, log') /\
    @YouTubeParser.extractMetadata (Reference.http net) url []
    = (Ok m, log') /\
    title m = Some (JSValue.Str "YouTube Video") /\
    type m = Some EmbedType.video /\ platform m = Some youtube /\
    EmbedMetadata.url m = Some url.
Proof.
  intros url answer net.
  destruct (@returned_metadata_tagged Reference.url_impl (Reference.http net)
              Reference.markup url "dQw4w9WgXcQ" [])
    as (_ & (Ht & Hp & Hu) & _ & _ & Hdegrade).
  assert (Hid : URLParser.extractYouTubeVideoId url = Some "dQw4w9WgXcQ")
    by (vm_compute; reflexivity).
  pose proof (Hdegrade (Reference.Json answer) Hid eq_refl eq_refl (or_introl eq_refl))
    as Hrun.
  eexists. eexists. split; [vm_compute; reflexivity|].
  split; [exact Hrun|]. split; [reflexivity|].
  split; [exact Ht|]. split; [exact Hp | exact Hu].
Defined.

(** C10.  For an address that the YouTube parser can handle, that is, for
    which [detectPlatform] gives [youtube], [extractYouTubeVideoId]
    returns an id, and the id is not empty; so [extractMetadata] of the
    YouTube parser does not take its [Invalid YouTube URL] branch on such
    an address: it returns a record. *)
Theorem youtube_id_found_when_handled `{URLImpl} `{Http} (url : string) :
  YouTubeParser.canHandle url = true ->
  (exists videoId,
     URLParser.extractYouTubeVideoId url = Some videoId /\
     truthy videoId = true) /\
  (forall log, exists m log',
     YouTubeParser.extractMetadata url log = (Ok m, log')).
Proof.
  intro Hcan.
  destruct (ServiceFacts.handled_has_id url Hcan) as (id & Hid & Htruthy).
  split.
  - exists id. auto.
  - intro log. pose proof (ServiceFacts.youtube_extract url log) as Ho.
    inversion Ho as [Hnone Heq | m' Hsome Ht Hp Heq].
    + (* the branch that throws needs the extractor to find no id *)
      rewrite Hid in Hnone. discriminate Hnone.
    + eexists. eexists. reflexivity.
Qed.

Lemma youtube_id_found_when_handled_witness :
  let url := "https://youtu.be/dQw4w9WgXcQ" in
  YouTubeParser.canHandle url = true /\
  exists videoId,
    URLParser.extractYouTubeVideoId url = Some videoId /\ truthy videoId = true.
Proof.
  split; [vm_compute; reflexivity|].
  refine (proj1 (@youtube_id_found_when_handled Reference.url_impl
                   (Reference.http Reference.offline)
                   "https://youtu.be/dQw4w9WgXcQ" _)).
  vm_compute. reflexivity.
Defined.

(* ------------------------------------------------------------------ *)
(** ** Further properties of the code *)

(** *** url-parser.ts: ids and detection *)

Section IdsAndDetection.
Import JSString RegExp URLParser Shape.

(** X1.  A YouTube video id, when one is extracted, has exactly eleven code
    units, none of which is a double quote, [&], [?], [/] or white space. *)
Theorem youtube_id_eleven_units (url id : string) :
  extractYouTubeVideoId url = Some id ->
  String.length id = 11 /\ all_chars youtube_id_unit id = true.
Proof.
  intro H.
  assert (Hs : ids_shaped youtube_id_unit 11 (Some 11) (patterns_of youtube) = true)
    by (vm_compute; reflexivity).
  destruct (ShapeFacts.first_id_shaped _ _ _ _ _ _ Hs H) as (Hall & Hlo & Hhi).
  simpl in Hhi. split; [lia | exact Hall].
Qed.

Lemma youtube_id_eleven_units_witness :
  extractYouTubeVideoId "https://youtu.be/dQw4w9WgXcQ?t=1" = Some "dQw4w9WgXcQ" /\
  String.length "dQw4w9WgXcQ" = 11 /\ all_chars youtube_id_unit "dQw4w9WgXcQ" = true.
Proof.
  split; [vm_compute; reflexivity|].
  apply (youtube_id_eleven_units "https://youtu.be/dQw4w9WgXcQ?t=1").
  vm_compute. reflexivity.
Defined.

(** X2.  The id that the extractor of a platform returns is not empty and is
    made of the code units of that platform's ids. *)
Theorem extracted_id_alphabet (p : Platform) (url id : string) :
  extractId p url = Some id ->
  all_chars (id_unit p) id = true /\ id_length_ok p (String.length id).
Proof.
  intro H.
  destruct p; simpl in H.
  - destruct (ShapeFacts.youtube_id_shape url id H). split; assumption.
  - assert (Hs : ids_shaped slug_unit 1 None (patterns_of instagram) = true)
      by (vm_compute; reflexivity).
    destruct (ShapeFacts.only_id_shaped _ _ _ _ _ _ Hs H) as (Hall & Hlo & _).
    split; assumption.
  - assert (Hs : ids_shaped URL.is_alnum 1 None (patterns_of tiktok) = true)
      by (vm_compute; reflexivity).
    destruct (ShapeFacts.first_id_shaped _ _ _ _ _ _ Hs H) as (Hall & Hlo & _).
    split; assumption.
  - assert (Hs : ids_shaped slug_unit 1 None (patterns_of linkedin) = true)
      by (vm_compute; reflexivity).
    destruct (ShapeFacts.first_id_shaped _ _ _ _ _ _ Hs H) as (Hall & Hlo & _).
    split; assumption.
  - assert (Hs : ids_shaped ParseInt.is_digit 1 None (patterns_of twitter) = true)
      by (vm_compute; reflexivity).
    destruct (ShapeFacts.only_id_shaped _ _ _ _ _ _ Hs H) as (Hall & Hlo & _).
    split; assumption.
  - discriminate H.
Qed.

Lemma extracted_id_alphabet_witness :
  extractId twitter "https://x.com/jack/status/20?s=20" = Some "20" /\
  all_chars ParseInt.is_digit "20" = true /\
  extractId tiktok "https://vm.tiktok.com/ZMabc12/" = Some "ZMabc12" /\
  all_chars URL.is_alnum "ZMabc12" = true.
Proof.
  split; [vm_compute; reflexivity|].
  split; [exact (proj1 (extracted_id_alphabet twitter
                          "https://x.com/jack/status/20?s=20" "20" eq_refl))|].
  split; [vm_compute; reflexivity|].
  exact (proj1 (extracted_id_alphabet tiktok
                  "https://vm.tiktok.com/ZMabc12/" "ZMabc12" eq_refl)).
Defined.

(** X3.  [detectPlatform] answers with the first platform of the table, in
    its order, that has a pattern matching the address: no platform before
    the answer has a matching pattern, and unless the answer is [generic]
    one of its own patterns matches. *)
Theorem detectPlatform_sound (url : string) :
  (forall q, Spec.rank q < Spec.rank (detectPlatform url) ->
             any_test (patterns_of q) url = false) /\
  (detectPlatform url <> generic ->
   any_test (patterns_of (detectPlatform url)) url = true).
Proof.
  rewrite URLParserFacts.detectPlatform_unfold.
  destruct (any_test (patterns_of youtube) url) eqn:H1;
    [|destruct (any_test (patterns_of instagram) url) eqn:H2;
      [|destruct (any_test (patterns_of tiktok) url) eqn:H3;
        [|destruct (any_test (patterns_of linkedin) url) eqn:H4;
          [|destruct (any_test (patterns_of twitter) url) eqn:H5]]]];
    (split; [intros q Hq; destruct q; unfold Spec.rank in Hq; simpl in Hq;
             first [assumption | lia]
            | intro Hp; first [assumption | exfalso; apply Hp; reflexivity]]).
Qed.

Lemma detectPlatform_sound_witness :
  detectPlatform "https://www.instagram.com/p/Cx_-9/" = instagram /\
  any_test (patterns_of youtube) "https://www.instagram.com/p/Cx_-9/" = false /\
  any_test (patterns_of instagram) "https://www.instagram.com/p/Cx_-9/" = true.
Proof.
  assert (E : detectPlatform "https://www.instagram.com/p/Cx_-9/" = instagram)
    by (vm_compute; reflexivity).
  destruct (detectPlatform_sound "https://www.instagram.com/p/Cx_-9/") as [Hb Hs].
  rewrite E in Hb, Hs.
  split; [exact E|]. split.
  - apply Hb. unfold Spec.rank. simpl. lia.
  - apply Hs. discriminate.
Defined.

End IdsAndDetection.

(** *** url-parser.ts: normalization and domains *)

Section Normalization.
Import JSString URLParser.

(** X4.  When the address, with its protocol added, parses, the normalized
    address parses again, and its query object holds the pairs of the
    address whose name is not a tracking parameter, in their order;
    the rest of the URL is as it was. *)
Theorem normalizeUrl_drops_tracking `{URLLaws} (url : string) (o : URL.obj) :
  new_URL (with_protocol url) = Some o ->
  exists o', new_URL (normalizeUrl url) = Some o' /\
    URL.pairs o' = Spec.kept trackingParams (URL.pairs o) /\
    (forall name value, In (name, value) (URL.pairs o') ->
       ~ In name trackingParams) /\
    URL.with_query None (URL.record o') = URL.with_query None (URL.record o).
Proof.
  unfold new_URL. intro Ho.
  destruct (URL_parse (with_protocol url) None) as [r|] eqn:Hp; [|discriminate Ho].
  injection Ho as <-. simpl.
  rewrite (NormalizeFacts.normalizeUrl_parsed url r Hp).
  destruct (NormalizeFacts.parsed_scheme url r Hp) as [Hs _].
  rewrite (reparse _ r (Spec.kept trackingParams (URL.initial_list r)) Hp Hs).
  eexists. split; [reflexivity|]. simpl.
  assert (Hl : URL.initial_list
                 (URL.update (Spec.kept trackingParams (URL.initial_list r)) r)
               = Spec.kept trackingParams (URL.initial_list r)).
  { apply URLFacts.initial_list_update, NormalizeFacts.kept_scrubbed,
      URLFacts.initial_list_scrubbed. }
  rewrite Hl. split; [reflexivity|]. split; [|reflexivity].
  intros name value Hin Hname. unfold Spec.kept in Hin.
  apply filter_In in Hin. destruct Hin as [_ Hk].
  apply negb_true_iff in Hk.
  change (existsb (String.eqb name) trackingParams = false) in Hk.
  assert (Ht : existsb (String.eqb name) trackingParams = true).
  { apply existsb_exists. exists name. split; [exact Hname | apply String.eqb_refl]. }
  rewrite Ht in Hk. discriminate Hk.
Qed.

Lemma normalizeUrl_drops_tracking_witness :
  let url := "example.com/a?utm_source=x&id=7&ref=y&q=a+b#top" in
  exists o o',
    @new_URL Reference.url_impl (with_protocol url) = Some o /\
    @new_URL Reference.url_impl (@normalizeUrl Reference.url_impl url) = Some o' /\
    URL.pairs o = [("utm_source", "x"); ("id", "7"); ("ref", "y"); ("q", "a b")] /\
    URL.pairs o' = [("id", "7"); ("q", "a b")].
Proof.
  intro url.
  destruct (@normalizeUrl_drops_tracking Reference.url_impl ReferenceFacts.url_laws
              url
              (URL.of_record
                 (URL.mk "https" "" "" (Some "example.com") None "/a"
                    (Some "utm_source=x&id=7&ref=y&q=a+b") (Some "top")))
              eq_refl) as (o' & Ho' & Hpairs & _).
  eexists. exists o'. split; [reflexivity|]. split; [exact Ho'|].
  split; [reflexivity | exact Hpairs].
Defined.

(** X5.  When the address, with its protocol added, parses, the normalized
    address is a valid URL, is embeddable (its protocol is [http:] or
    [https:]) and has the host name that was parsed. *)
Theorem normalizeUrl_embeddable `{URLLaws} (url : string) (r : URL.t) :
  URL_parse (with_protocol url) None = Some r ->
  isValidUrl (normalizeUrl url) = true /\
  isEmbeddable (normalizeUrl url) = true /\
  getDomain (normalizeUrl url) = Some (URL.hostname r) /\
  isSameDomain (with_protocol url) (normalizeUrl url) = true.
Proof.
  intro Hp.
  destruct (NormalizeFacts.parsed_scheme url r Hp) as [Hs _].
  pose proof (reparse _ r (Spec.kept trackingParams (URL.initial_list r)) Hp Hs) as Hre.
  rewrite <- (NormalizeFacts.normalizeUrl_parsed url r Hp) in Hre.
  unfold isValidUrl, isEmbeddable, isSameDomain, getDomain, new_URL.
  rewrite Hre, Hp. simpl.
  split; [reflexivity|]. split.
  - unfold URL.protocol. simpl. destruct Hs as [-> | ->]; reflexivity.
  - split; [reflexivity|]. apply String.eqb_refl.
Qed.

Lemma normalizeUrl_embeddable_witness :
  @isEmbeddable Reference.url_impl
    (@normalizeUrl Reference.url_impl "www.example.com/a?fbclid=1") = true /\
  @getDomain Reference.url_impl
    (@normalizeUrl Reference.url_impl "www.example.com/a?fbclid=1")
  = Some "www.example.com".
Proof.
  destruct (@normalizeUrl_embeddable Reference.url_impl ReferenceFacts.url_laws
              "www.example.com/a?fbclid=1"
              (URL.mk "https" "" "" (Some "www.example.com") None "/a"
                 (Some "fbclid=1") None)
              eq_refl) as (_ & He & Hd & _).
  split; [exact He | exact Hd].
Defined.

(** X6.  [isSameDomain] is a partial equivalence on addresses: it is
    symmetric and transitive, and an address is on its own domain exactly
    when it is a valid URL. *)
Theorem isSameDomain_partial_equivalence `{URLImpl} (a b c : string) :
  isSameDomain a b = isSameDomain b a /\
  (isSameDomain a b = true -> isSameDomain b c = true -> isSameDomain a c = true) /\
  isSameDomain a a = isValidUrl a /\
  (isSameDomain a b = true -> isValidUrl a = true /\ isValidUrl b = true).
Proof.
  unfold isSameDomain, getDomain, isValidUrl.
  destruct (new_URL a) as [oa|], (new_URL b) as [ob|], (new_URL c) as [oc|];
    repeat split; try reflexivity; try discriminate;
    try apply String.eqb_sym; try apply String.eqb_refl.
  intros Hab Hbc. apply String.eqb_eq in Hab, Hbc. rewrite Hab, Hbc.
  apply String.eqb_refl.
Qed.

Lemma isSameDomain_partial_equivalence_witness :
  @isSameDomain Reference.url_impl "https://example.com/a" "http://example.com/b?x=1"
  = true /\
  @isSameDomain Reference.url_impl "https://example.com/a" "https://example.com/c#f"
  = true.
Proof.
  destruct (@isSameDomain_partial_equivalence Reference.url_impl
              "https://example.com/a" "http://example.com/b?x=1"
              "https://example.com/c#f") as (Hsym & Htrans & _).
  split; [reflexivity|].
  apply Htrans; reflexivity.
Defined.

End Normalization.

(** *** metadata.ts, the parsers and the service *)

Section Records.
Import JSString EmbedMetadata.

(** X7.  In the record of [extractBasicMetadata] the type, the width, the
    height and the author are those of the OpenGraph pass, also when the
    Twitter Card pass ran: the type that [extractTwitterCards] derives from
    [twitter:card] is never used, since the first pass always sets a type.
    When the first request fails the type is [link], whatever the page
    says on the second request. *)
Theorem basic_metadata_type_from_first_pass `{URLImpl} `{Http}
  (url : string) (log log' : Log) (m : EmbedMetadata.t) :
  MetadataExtractor.extractBasicMetadata url log = (Ok m, log') ->
  exists og,
    MetadataExtractor.extractOpenGraph url log = (Ok og, (log ++ [url])%list) /\
    type m = type og /\ width m = width og /\ height m = height og /\
    author m = author og /\
    (network (List.length log) url = None ->
     type m = Some EmbedType.link /\ width m = None /\ height m = None /\
     author m = None).
Proof.
  intro Hrun.
  destruct (RecordFacts.extractBasicMetadata_fixed url log)
    as (og & m0 & extra & Hog & Hm & _ & Ht & Hw & Hh & Ha & _).
  rewrite Hm in Hrun. injection Hrun as <- _.
  exists og. split; [exact Hog|].
  split; [exact Ht|]. split; [exact Hw|]. split; [exact Hh|]. split; [exact Ha|].
  intro Hoff.
  rewrite (ExtractorFacts.extractOpenGraph_offline url log Hoff) in Hog.
  injection Hog as <-. rewrite Ht, Hw, Hh, Ha. repeat split.
Qed.

Lemma basic_metadata_type_from_first_pass_witness :
  let url := "https://example.com/clip" in
  exists m log',
    ReferencePages.basic_run (Reference.flaky ReferencePages.player_page) url
    = (Ok m, log') /\
    title m = Some (JSValue.Str "example.com") /\
    description m = Some "A description" /\
    type m = Some EmbedType.link.
Proof.
  intro url.
  assert (Hex : exists m log',
            ReferencePages.basic_run (Reference.flaky ReferencePages.player_page) url
            = (Ok m, log') /\
            title m = Some (JSValue.Str "example.com") /\
            description m = Some "A description")
    by (eexists; eexists; split; [|split]; vm_compute; reflexivity).
  destruct Hex as (m & log' & Hrun & Hti & Hd).
  destruct (@basic_metadata_type_from_first_pass Reference.url_impl
              (Reference.http (Reference.flaky ReferencePages.player_page))
              url [] log' m Hrun) as (og & _ & _ & _ & _ & _ & Hoff).
  exists m, log'. split; [exact Hrun|]. split; [exact Hti|]. split; [exact Hd|].
  exact (proj1 (Hoff eq_refl)).
Defined.

(** X8.  The generic parser returns a record for every address, valid or
    not and whatever the network answers; the record has a title, no
    [embedData], and as provider the domain of the address (its host name
    without the first [www.]) with the protocol and host name as the
    provider's address. *)
Theorem generic_record_title_and_provider `{URLImpl} `{Http}
  (url : string) (log : Log) :
  exists m extra,
    GenericParser.extractMetadata url log = (Ok m, (log ++ extra)%list) /\
    title m <> None /\ embedData m = None /\
    provider m
    = Some (Provider.mk (GenericParser.getDomainFromUrl url)
              (GenericParser.getBaseUrl url)) /\
    (forall r, URL_parse url None = Some r ->
       provider m
       = Some (Provider.mk (replace "www." "" (URL.hostname r))
                 (URL.scheme r ++ "://" ++ URL.hostname r))) /\
    (URL_parse url None = None ->
     provider m = Some (Provider.mk "Unknown" url)).
Proof.
  destruct (RecordFacts.extractBasicMetadata_fixed url log)
    as (og & m & extra & _ & Hm & _ & _ & _ & _ & _ & _ & _ & He & _ & Hti).
  unfold GenericParser.extractMetadata.
  rewrite (ExtractorFacts.try_ok _ _ _ _ _ (ExtractorFacts.bind_ok _ _ _ _ _ Hm)).
  eexists. exists extra. split; [reflexivity|]. simpl.
  split; [exact Hti|]. split; [exact He|]. split; [reflexivity|].
  unfold GenericParser.provider_of, GenericParser.getDomainFromUrl,
    GenericParser.getBaseUrl, new_URL.
  split.
  - intros r Hr. rewrite Hr. simpl. unfold URL.protocol.
    rewrite NormalizeFacts.append_assoc. reflexivity.
  - intros Hr. rewrite Hr. reflexivity.
Qed.

Lemma generic_record_title_and_provider_witness :
  let url := "https://www.example.com/a/b?x=1" in
  exists m log',
    Reference.generic_run Reference.offline url = (Ok m, log') /\
    title m <> None /\
    provider m = Some (Provider.mk "example.com" "https://www.example.com").
Proof.
  intro url.
  destruct (@generic_record_title_and_provider Reference.url_impl
              (Reference.http Reference.offline) url [])
    as (m & extra & Hrun & Hti & _ & _ & Hp & _).
  exists m, extra. split; [exact Hrun|]. split; [exact Hti|].
  exact (Hp _ eq_refl).
Defined.

(** X9.  [extractMetadata] of the service succeeds exactly on the valid
    addresses: on a valid address it returns a record whatever the
    network answers, on any other it throws [Invalid URL provided]
    before a request is issued, and so do [getOEmbed] and [renderEmbed].
    On a valid address these two issue the requests of the extraction
    and then return, or throw the [TypeError] of [generateEmbed] when the
    markup cannot be built for the record.  No other error leaves the
    service: [No suitable parser found for URL] is never thrown, and no
    error of a request is. *)
Theorem service_outcome `{URLImpl} `{Http} `{Markup}
  (url : string) (log : Log)
  (oembedOptions : OEmbedOptions.t) (renderOptions : RenderOptions.t) :
  let service := EmbedService.embedService in
  if URLParser.isValidUrl url
  then exists m log',
         EmbedService.extractMetadata service url log = (Ok m, log') /\
         match PlatformParser.generateEmbed (Spec.parser_for url) m
                 (RenderOptions.mk (OEmbedOptions.maxwidth oembedOptions)
                    (OEmbedOptions.maxheight oembedOptions) None None None) with
         | Ok html =>
             exists response,
               EmbedService.getOEmbed service url oembedOptions log
               = (Ok response, log') /\
               OEmbedResponse.html response = Some html
         | Throw e =>
             e = TypeError /\
             EmbedService.getOEmbed service url oembedOptions log
             = (Throw TypeError, log')
         end /\
         match PlatformParser.generateEmbed (Spec.parser_for url) m renderOptions with
         | Ok html =>
             EmbedService.renderEmbed service url renderOptions log = (Ok html, log')
         | Throw e =>
             e = TypeError /\
             EmbedService.renderEmbed service url renderOptions log
             = (Throw TypeError, log')
         end
  else EmbedService.extractMetadata service url log
       = (Throw (Error "Invalid URL provided"), log) /\
       EmbedService.getOEmbed service url oembedOptions log
       = (Throw (Error "Invalid URL provided"), log) /\
       EmbedService.renderEmbed service url renderOptions log
       = (Throw (Error "Invalid URL provided"), log).
Proof.
  intro service. destruct (URLParser.isValidUrl url) eqn:Hv.
  - destruct (RecordFacts.service_valid url log Hv) as (m & log' & _ & Hm).
    eexists. exists log'. split; [exact Hm|].
    unfold service, EmbedService.getOEmbed, EmbedService.renderEmbed, bind.
    rewrite Hm. unfold EmbedService.embedService.
    rewrite ServiceFacts.findParser_new. fold (Spec.parser_for url). unfold lift.
    split.
    + destruct (ServiceFacts.generateEmbed_outcome url
                  (EmbedMetadata.set_url (Some (URLParser.normalizeUrl url)) m)
                  (RenderOptions.mk (OEmbedOptions.maxwidth oembedOptions)
                     (OEmbedOptions.maxheight oembedOptions) None None None))
        as [(html & ->) | ->].
      * eexists. split; reflexivity.
      * split; reflexivity.
    + destruct (ServiceFacts.generateEmbed_outcome url
                  (EmbedMetadata.set_url (Some (URLParser.normalizeUrl url)) m)
                  renderOptions)
        as [(html & ->) | ->].
      * reflexivity.
      * split; reflexivity.
  - pose proof (RecordFacts.service_invalid url log Hv) as Hm.
    unfold service, EmbedService.getOEmbed, EmbedService.renderEmbed, bind.
    rewrite Hm. auto.
Qed.

Lemma service_outcome_witness :
  let url := "https://youtu.be/dQw4w9WgXcQ" in
  let answer := JSValue.Obj [("title", JSValue.Num (JSInt 123))] in
  let net := fun (_ : nat) (_ : string) => Some (Reference.Json answer) in
  exists m log',
    Reference.service_run net url = (Ok m, log') /\
    title m = Some (JSValue.Num (JSInt 123)) /\
    @EmbedService.renderEmbed Reference.url_impl (Reference.http net)
      (@EmbedService.embedService Reference.url_impl (Reference.http net)
         Reference.markup)
      url RenderOptions.default [] = (Throw TypeError, log').
Proof.
  intros url answer net.
  pose proof (@service_outcome Reference.url_impl (Reference.http net)
                Reference.markup url [] OEmbedOptions.default RenderOptions.default)
    as Hout.
  assert (Hv : @URLParser.isValidUrl Reference.url_impl url = true)
    by (vm_compute; reflexivity).
  rewrite Hv in Hout. destruct Hout as (m & log' & Hm & _ & Hr).
  assert (Hrun : exists m0,
            @EmbedService.extractMetadata Reference.url_impl (Reference.http net)
              (@EmbedService.embedService Reference.url_impl (Reference.http net)
                 Reference.markup) url []
            = (Ok m0, [YouTubeParser.oembed_address url]) /\
            title m0 = Some (JSValue.Num (JSInt 123)) /\
            PlatformParser.generateEmbed
              (@Spec.parser_for Reference.url_impl (Reference.http net)
                 Reference.markup url) m0 RenderOptions.default
            = Throw TypeError)
    by (eexists; split; [|split]; vm_compute; reflexivity).
  destruct Hrun as (m0 & Hm0 & Ht & Hg).
  rewrite Hm0 in Hm. injection Hm as <- <-.
  rewrite Hg in Hr.
  exists m0. eexists. split; [exact Hm0|]. split; [exact Ht | exact (proj2 Hr)].
Defined.

(** X10.  The record that the service returns carries the normalized
    address as its [url], and its platform is [youtube] when
    [detectPlatform] says so of the normalized address and [generic]
    otherwise: an Instagram, TikTok, LinkedIn or Twitter address gets a
    [generic] record.  Only [youtube] records carry [embedData]. *)
Theorem service_record_platform `{URLImpl} `{Http} `{Markup}
  (url : string) (log log' : Log) (m : EmbedMetadata.t) :
  EmbedService.extractMetadata EmbedService.embedService url log = (Ok m, log') ->
  let normalizedUrl := URLParser.normalizeUrl url in
  EmbedMetadata.url m = Some normalizedUrl /\
  platform m
  = Some (if Platform_eqb (URLParser.detectPlatform normalizedUrl) youtube
          then youtube else generic) /\
  (embedData m <> None <-> platform m = Some youtube).
Proof.
  intros Hrun normalizedUrl.
  destruct (URLParser.isValidUrl url) eqn:Hv.
  2:{ rewrite (RecordFacts.service_invalid url log Hv) in Hrun. discriminate Hrun. }
  destruct (RecordFacts.service_valid url log Hv) as (m0 & log0 & Hp & Hm).
  rewrite Hm in Hrun. injection Hrun as <- _.
  fold normalizedUrl in Hp.
  change (Platform_eqb (URLParser.detectPlatform normalizedUrl) youtube)
    with (YouTubeParser.canHandle normalizedUrl).
  destruct (YouTubeParser.canHandle normalizedUrl) eqn:Hcan.
  - destruct (ServiceFacts.handled_has_id normalizedUrl Hcan) as (id & Hid & _).
    destruct (RecordFacts.youtube_record_fields normalizedUrl id log Hid)
      as (m1 & Hm1 & _ & Hpl & _ & He & _).
    change (PlatformParser.extractMetadata YouTubeParser.parser)
      with YouTubeParser.extractMetadata in Hp.
    rewrite Hm1 in Hp. injection Hp as <- _.
    simpl. rewrite Hpl, He. split; [reflexivity|]. split; [reflexivity|].
    split; [intros _; reflexivity | intros _; discriminate].
  - destruct (RecordFacts.generic_record_fields normalizedUrl log)
      as (m1 & extra & Hm1 & _ & Hpl & _ & He & _).
    change (PlatformParser.extractMetadata GenericParser.parser)
      with GenericParser.extractMetadata in Hp.
    rewrite Hm1 in Hp. injection Hp as <- _.
    simpl. rewrite Hpl, He. split; [reflexivity|]. split; [reflexivity|].
    split; [intro C; contradiction | intro C; discriminate C].
Qed.

Lemma service_record_platform_witness :
  let url := "https://www.instagram.com/p/Cx_-9/?utm_source=ig_web" in
  exists m log',
    Reference.service_run Reference.offline url = (Ok m, log') /\
    EmbedMetadata.url m = Some "https://www.instagram.com/p/Cx_-9/" /\
    platform m = Some generic.
Proof.
  intro url.
  assert (Hex : exists m log', Reference.service_run Reference.offline url = (Ok m, log'))
    by (eexists; eexists; vm_compute; reflexivity).
  destruct Hex as (m & log' & Hrun).
  destruct (@service_record_platform Reference.url_impl
              (Reference.http Reference.offline) Reference.markup
              url [] log' m Hrun) as (Hu & Hp & _).
  assert (Hn : @URLParser.normalizeUrl Reference.url_impl url
               = "https://www.instagram.com/p/Cx_-9/") by (vm_compute; reflexivity).
  rewrite Hn in Hu, Hp.
  assert (Hd : URLParser.detectPlatform "https://www.instagram.com/p/Cx_-9/" = instagram)
    by (vm_compute; reflexivity).
  rewrite Hd in Hp.
  exists m, log'. split; [exact Hrun|]. split; [exact Hu | exact Hp].
Defined.

(** X11.  For an address that the YouTube parser handles, the record has the
    type [video], the provider YouTube and an [embedData] made of the id
    that [extractYouTubeVideoId] finds in the normalized address and the
    embed address built from it, whether the oEmbed request succeeds or
    not; that request is the only one. *)
Theorem youtube_record_embed_data `{URLImpl} `{Http} `{Markup}
  (url : string) (log : Log) :
  URLParser.isValidUrl url = true ->
  YouTubeParser.canHandle (URLParser.normalizeUrl url) = true ->
  exists m videoId,
    EmbedService.extractMetadata EmbedService.embedService url log
    = (Ok m, (log ++ [YouTubeParser.oembed_address (URLParser.normalizeUrl url)])%list) /\
    URLParser.extractYouTubeVideoId (URLParser.normalizeUrl url) = Some videoId /\
    String.length videoId = 11 /\
    embedData m
    = Some (EmbedData.mk videoId ("https://www.youtube.com/embed/" ++ videoId)) /\
    type m = Some EmbedType.video /\
    provider m = Some (Provider.mk "YouTube" "https://youtube.com").
Proof.
  intros Hv Hcan.
  destruct (ServiceFacts.handled_has_id _ Hcan) as (id & Hid & _).
  destruct (RecordFacts.youtube_record_fields _ id log Hid)
    as (m1 & Hm1 & Ht & _ & _ & He & Hpr).
  destruct (RecordFacts.service_valid url log Hv) as (m0 & log0 & Hp & Hm).
  rewrite Hcan in Hp.
  change (PlatformParser.extractMetadata YouTubeParser.parser)
    with YouTubeParser.extractMetadata in Hp.
  rewrite Hm1 in Hp. injection Hp as <- <-.
  eexists. exists id. split; [exact Hm|]. split; [exact Hid|].
  split; [exact (proj1 (ShapeFacts.youtube_id_shape _ _ Hid))|].
  simpl. auto.
Qed.

Lemma youtube_record_embed_data_witness :
  let url := "https://youtu.be/dQw4w9WgXcQ?utm_source=share" in
  exists m,
    Reference.service_run Reference.offline url
    = (Ok m, ["https://www.youtube.com/oembed?url=https%3A%2F%2Fyoutu.be%2FdQw4w9WgXcQ&format=json"]) /\
    embedData m
    = Some (EmbedData.mk "dQw4w9WgXcQ" "https://www.youtube.com/embed/dQw4w9WgXcQ").
Proof.
  intro url.
  assert (Hv : @URLParser.isValidUrl Reference.url_impl url = true)
    by (vm_compute; reflexivity).
  assert (Hn : @URLParser.normalizeUrl Reference.url_impl url
               = "https://youtu.be/dQw4w9WgXcQ") by (vm_compute; reflexivity).
  assert (Hc : YouTubeParser.canHandle (@URLParser.normalizeUrl Reference.url_impl url)
               = true) by (vm_compute; reflexivity).
  destruct (@youtube_record_embed_data Reference.url_impl
              (Reference.http Reference.offline) Reference.markup url [] Hv Hc)
    as (m & id & Hrun & Hid & _ & He & _).
  rewrite Hn in Hrun, Hid.
  assert (Hi : URLParser.extractYouTubeVideoId "https://youtu.be/dQw4w9WgXcQ"
               = Some "dQw4w9WgXcQ") by (vm_compute; reflexivity).
  rewrite Hi in Hid. injection Hid as <-.
  assert (Ha : YouTubeParser.oembed_address "https://youtu.be/dQw4w9WgXcQ"
               = "https://www.youtube.com/oembed?url=https%3A%2F%2Fyoutu.be%2FdQw4w9WgXcQ&format=json")
    by (vm_compute; reflexivity).
  rewrite Ha in Hrun.
  exists m. split; [exact Hrun | exact He].
Defined.

(** X12.  The width and the height of an oEmbed response are never
    missing and never falsy (zero, NaN, empty): a truthy [maxwidth] or
    [maxheight] of the options wins, then a truthy dimension of the
    record, of whatever type it is, then 500 by 300. *)
Theorem getOEmbed_dimensions `{URLImpl} `{Http}
  (this : EmbedService.t) (url : string) (options : OEmbedOptions.t)
  (log log' : Log) (response : OEmbedResponse.t) :
  EmbedService.getOEmbed this url options log = (Ok response, log') ->
  (JSValue.truthy_opt (OEmbedResponse.width response) = true /\
   JSValue.truthy_opt (OEmbedResponse.height response) = true) /\
  (forall w, OEmbedOptions.maxwidth options = Some w -> number_truthy w = true ->
             OEmbedResponse.width response = Some (JSValue.Num w)) /\
  (forall h, OEmbedOptions.maxheight options = Some h -> number_truthy h = true ->
             OEmbedResponse.height response = Some (JSValue.Num h)) /\
  (exists m, EmbedService.extractMetadata this url log = (Ok m, log') /\
     (number_truthy_opt (OEmbedOptions.maxwidth options) = false ->
      OEmbedResponse.width response
      = (if JSValue.truthy_opt (EmbedMetadata.width m)
         then EmbedMetadata.width m else Some (JSValue.Num (JSInt 500)))) /\
     (number_truthy_opt (OEmbedOptions.maxheight options) = false ->
      OEmbedResponse.height response
      = (if JSValue.truthy_opt (EmbedMetadata.height m)
         then EmbedMetadata.height m else Some (JSValue.Num (JSInt 300))))).
Proof.
  unfold EmbedService.getOEmbed, bind.
  destruct (EmbedService.extractMetadata this url log) as [[m|e] log1]; [|discriminate].
  destruct (EmbedService.findParser this url) as [parser|]; [|discriminate].
  unfold lift. destruct (PlatformParser.generateEmbed parser m _) as [html|e];
    [|discriminate].
  unfold ret. intro E. injection E as <- <-. simpl.
  assert (Hor : forall a b d,
            d <> 0%Z ->
            JSValue.truthy_opt
              (JSValue.or (JSValue.of_number a)
                 (JSValue.or b (Some (JSValue.Num (JSInt d))))) = true).
  { intros a b d Hd.
    assert (Hin : JSValue.truthy_opt (JSValue.or b (Some (JSValue.Num (JSInt d))))
                  = true).
    { unfold JSValue.or. destruct (JSValue.truthy_opt b) eqn:Eb; [exact Eb|].
      simpl. apply negb_true_iff, Z.eqb_neq, Hd. }
    unfold JSValue.or at 1.
    destruct (JSValue.truthy_opt (JSValue.of_number a)) eqn:Ea; [exact Ea | exact Hin]. }
  split; [split; apply Hor; discriminate|].
  split; [|split].
  - intros w Hw Ht. rewrite Hw. unfold JSValue.or at 1. simpl. rewrite Ht. reflexivity.
  - intros h Hh Ht. rewrite Hh. unfold JSValue.or at 1. simpl. rewrite Ht. reflexivity.
  - exists m. split; [reflexivity|].
    split; intro Hf; unfold JSValue.or at 1;
      (match goal with
       | |- context [JSValue.truthy_opt (JSValue.of_number ?o)] =>
           replace (JSValue.truthy_opt (JSValue.of_number o)) with false
             by (destruct o; [exact (eq_sym Hf) | reflexivity])
       end); reflexivity.
Qed.

Lemma getOEmbed_dimensions_witness :
  let url := "https://youtu.be/dQw4w9WgXcQ" in
  let answer := JSValue.Obj [("width", JSValue.Str "wide")] in
  let net := fun (_ : nat) (_ : string) => Some (Reference.Json answer) in
  let options := OEmbedOptions.mk (Some (JSInt 0)) (Some (JSInt 240)) in
  exists response log',
    @EmbedService.getOEmbed Reference.url_impl (Reference.http net)
      (@EmbedService.embedService Reference.url_impl (Reference.http net)
         Reference.markup)
      url options [] = (Ok response, log') /\
    OEmbedResponse.width response = Some (JSValue.Str "wide") /\
    OEmbedResponse.height response = Some (JSValue.Num (JSInt 240)).
Proof.
  intros url answer net options.
  assert (Hex : exists response log',
    @EmbedService.getOEmbed Reference.url_impl (Reference.http net)
      (@EmbedService.embedService Reference.url_impl (Reference.http net)
         Reference.markup)
      url options [] = (Ok response, log') /\
    OEmbedResponse.width response = Some (JSValue.Str "wide"))
    by (eexists; eexists; split; vm_compute; reflexivity).
  destruct Hex as (response & log' & Hrun & Hw).
  destruct (@getOEmbed_dimensions Reference.url_impl (Reference.http net)
              _ url options [] _ response Hrun)
    as (_ & _ & Hh & _).
  exists response, log'. split; [exact Hrun|]. split; [exact Hw|].
  apply Hh; reflexivity.
Defined.

(** X13.  [renderEmbed] and [getOEmbed] extract with the parser that handles
    the normalized address but render with the parser that handles the
    address as it was given: the markup is the YouTube parser's when
    [detectPlatform] of the given address is [youtube], the generic
    parser's otherwise, whatever the platform of the record is; and when
    that markup cannot be built, [renderEmbed] throws. *)
Theorem renderEmbed_parser_of_given_address `{URLImpl} `{Http} `{Markup}
  (url : string) (options : RenderOptions.t) (log : Log) :
  URLParser.isValidUrl url = true ->
  exists m log',
    EmbedService.extractMetadata EmbedService.embedService url log = (Ok m, log') /\
    platform m
    = Some (if YouTubeParser.canHandle (URLParser.normalizeUrl url)
            then youtube else generic) /\
    EmbedService.renderEmbed EmbedService.embedService url options log
    = (markup_result (if YouTubeParser.canHandle url
                      then youtube_markup m options else generic_markup m options),
       log') /\
    (forall response log'',
       EmbedService.getOEmbed EmbedService.embedService url
         (OEmbedOptions.mk (RenderOptions.width options) (RenderOptions.height options))
         log = (Ok response, log'') ->
       log'' = log' /\
       OEmbedResponse.html response
       = (let renderOptions :=
            RenderOptions.mk (RenderOptions.width options)
              (RenderOptions.height options) None None None in
          if YouTubeParser.canHandle url
          then youtube_markup m renderOptions
          else generic_markup m renderOptions)).
Proof.
  intro Hv.
  destruct (RecordFacts.service_valid url log Hv) as (m0 & log' & Hp & Hm).
  eexists. exists log'. split; [exact Hm|]. split.
  - destruct (YouTubeParser.canHandle (URLParser.normalizeUrl url)) eqn:Hcan.
    + destruct (ServiceFacts.handled_has_id _ Hcan) as (id & Hid & _).
      destruct (RecordFacts.youtube_record_fields _ id log Hid)
        as (m1 & Hm1 & _ & Hpl & _).
      change (PlatformParser.extractMetadata YouTubeParser.parser)
        with YouTubeParser.extractMetadata in Hp.
      rewrite Hm1 in Hp. injection Hp as <- _. exact Hpl.
    + destruct (RecordFacts.generic_record_fields (URLParser.normalizeUrl url) log)
        as (m1 & extra & Hm1 & _ & Hpl & _).
      change (PlatformParser.extractMetadata GenericParser.parser)
        with GenericParser.extractMetadata in Hp.
      rewrite Hm1 in Hp. injection Hp as <- _. exact Hpl.
  - unfold EmbedService.renderEmbed, EmbedService.getOEmbed, bind. rewrite Hm.
    unfold EmbedService.embedService. rewrite ServiceFacts.findParser_new.
    unfold lift.
    destruct (YouTubeParser.canHandle url); simpl;
      unfold YouTubeParser.generateEmbed, GenericParser.generateEmbed;
      (split; [reflexivity|]);
      intros response log'';
      match goal with
      | |- context [markup_result ?b] => destruct b as [html|]
      end; simpl; intro E; try discriminate E;
      injection E as <- <-; split; reflexivity.
Qed.

Lemma renderEmbed_parser_of_given_address_witness :
  let url := "https://example.com/?utm_source=youtu.be/abcdefghijk" in
  exists m log',
    Reference.service_run Reference.offline url = (Ok m, log') /\
    platform m = Some generic /\
    @EmbedService.renderEmbed Reference.url_impl (Reference.http Reference.offline)
      (@EmbedService.embedService Reference.url_impl
         (Reference.http Reference.offline) Reference.markup)
      url RenderOptions.default []
    = (markup_result (@youtube_markup Reference.markup m RenderOptions.default), log').
Proof.
  intro url.
  assert (Hv : @URLParser.isValidUrl Reference.url_impl url = true)
    by (vm_compute; reflexivity).
  assert (Hc : YouTubeParser.canHandle url = true) by (vm_compute; reflexivity).
  assert (Hn : YouTubeParser.canHandle (@URLParser.normalizeUrl Reference.url_impl url)
               = false) by (vm_compute; reflexivity).
  destruct (@renderEmbed_parser_of_given_address Reference.url_impl
              (Reference.http Reference.offline) Reference.markup
              url RenderOptions.default [] Hv)
    as (m & log' & Hm & Hp & Hr & _).
  rewrite Hn in Hp. rewrite Hc in Hr.
  exists m, log'. split; [exact Hm|]. split; [exact Hp | exact Hr].
Defined.

(** X14.  In an oEmbed response the provider name is never empty
    ([External Content] stands in for a missing one), and a thumbnail is
    there only when the response is of type [video] or [photo]: a [link]
    or [rich] response has no thumbnail address, width or height, even if
    the record has an image. *)
Theorem getOEmbed_thumbnail_only_for_media `{URLImpl} `{Http}
  (this : EmbedService.t) (url : string) (options : OEmbedOptions.t)
  (log log' : Log) (response : OEmbedResponse.t) :
  EmbedService.getOEmbed this url options log = (Ok response, log') ->
  truthy_opt (OEmbedResponse.provider_name response) = true /\
  (OEmbedResponse.thumbnail_url response <> None ->
   JSValue.truthy_opt (OEmbedResponse.thumbnail_url response) = true /\
   (OEmbedResponse.type response = OEmbedType.video \/
    OEmbedResponse.type response = OEmbedType.photo)) /\
  (OEmbedResponse.type response = OEmbedType.link \/
   OEmbedResponse.type response = OEmbedType.rich ->
   OEmbedResponse.thumbnail_url response = None /\
   OEmbedResponse.thumbnail_width response = None /\
   OEmbedResponse.thumbnail_height response = None).
Proof.
  unfold EmbedService.getOEmbed, bind.
  destruct (EmbedService.extractMetadata this url log) as [[m|e] log1]; [|discriminate].
  destruct (EmbedService.findParser this url) as [parser|]; [|discriminate].
  unfold lift. destruct (PlatformParser.generateEmbed parser m _) as [html|e];
    [|discriminate].
  unfold ret. intro E. injection E as <- _. simpl.
  split.
  - unfold string_or.
    destruct (truthy_opt match provider m with
                         | Some p => Some (Provider.name p)
                         | None => None
                         end) eqn:Hp; [exact Hp | reflexivity].
  - unfold EmbedService.has_thumbnail, EmbedService.mapTypeToOEmbed.
    destruct (JSValue.truthy_opt (image m)) eqn:Hi; simpl.
    + destruct (type m) as [[]|]; simpl; split;
        try (intro C; exfalso; apply C; reflexivity);
        try (intros _; split; [exact Hi | auto]);
        try (intros [C | C]; discriminate C);
        try (intros _; auto).
    + split; [intro C; exfalso; apply C; reflexivity | intros _; auto].
Qed.

Lemma getOEmbed_thumbnail_only_for_media_witness :
  let url := "https://example.com/post" in
  let net := Reference.serving (Reference.image_page "https://example.com/cover.png") in
  exists m response log',
    Reference.service_run net url = (Ok m, log') /\
    image m = Some (JSValue.Str "https://example.com/cover.png") /\
    @EmbedService.getOEmbed Reference.url_impl (Reference.http net)
      (@EmbedService.embedService Reference.url_impl (Reference.http net)
         Reference.markup)
      url OEmbedOptions.default [] = (Ok response, log') /\
    OEmbedResponse.type response = OEmbedType.link /\
    OEmbedResponse.thumbnail_url response = None.
Proof.
  intros url net.
  assert (Hex : exists response,
    @EmbedService.getOEmbed Reference.url_impl (Reference.http net)
      (@EmbedService.embedService Reference.url_impl (Reference.http net)
         Reference.markup)
      url OEmbedOptions.default [] = (Ok response, [url]) /\
    OEmbedResponse.type response = OEmbedType.link)
    by (eexists; split; vm_compute; reflexivity).
  destruct Hex as (response & Hrun & Ht).
  destruct (@getOEmbed_thumbnail_only_for_media Reference.url_impl (Reference.http net)
              _ url OEmbedOptions.default [] _ response Hrun) as (_ & _ & Hlink).
  eexists. exists response, [url].
  split; [vm_compute; reflexivity|].
  split; [vm_compute; reflexivity|]. split; [exact Hrun|]. split; [exact Ht|].
  exact (proj1 (Hlink (or_introl Ht))).
Defined.

End Records.

(** *** Escaping, and the address of the oEmbed request *)

Section Escaping.
Import JSString Escape Units.

(** X15.  The text that [escapeHtml] returns holds no [<], no [>], no double
    quote and no single quote, whatever it is given; text without these
    and without [&] is returned as it is. *)
Theorem escapeHtml_leaves_no_markup (text : string) :
  all_chars (fun c => negb (markup_unit c)) (escapeHtml text) = true /\
  (all_chars (fun c => negb (markup_unit c) && negb (Ascii.eqb c "&")) text = true ->
   escapeHtml text = text).
Proof.
  split.
  - induction text as [|c s IH]; [reflexivity|].
    rewrite EscapeFacts.escapeHtml_cons, URLFacts.all_chars_app,
      EscapeFacts.escape_unit_safe, IH. reflexivity.
  - induction text as [|c s IH]; [reflexivity|].
    intro H. simpl in H. apply andb_prop in H. destruct H as [Hc Hs].
    rewrite EscapeFacts.escapeHtml_cons, (IH Hs).
    assert (Hu : forall a,
              negb (markup_unit a) && negb (Ascii.eqb a "&") = true ->
              String.eqb (escape_unit a) (String a "") = true).
    { apply URLFacts.implb_spec. vm_compute. reflexivity. }
    pose proof (Hu c Hc) as E. apply String.eqb_eq in E. rewrite E. reflexivity.
Qed.

Lemma escapeHtml_leaves_no_markup_witness :
  escapeHtml "Tom & Jerry <b>'s" = "Tom &amp; Jerry &lt;b&gt;&#39;s" /\
  escapeHtml "plain text" = "plain text".
Proof.
  split; [reflexivity|].
  apply (proj2 (escapeHtml_leaves_no_markup "plain text")). reflexivity.
Defined.

(** X16.  [escapeHtml] loses nothing: two texts with the same escaped form
    are the same text.  The ampersand is replaced first, so the ampersands
    of the entities are not escaped again. *)
Theorem escapeHtml_injective (a b : string) :
  escapeHtml a = escapeHtml b -> a = b.
Proof.
  revert b. induction a as [|c a IH]; intros [|d b] H.
  - reflexivity.
  - rewrite EscapeFacts.escapeHtml_cons in H.
    exfalso. exact (EscapeFacts.escape_unit_truthy d _ (eq_sym H)).
  - rewrite EscapeFacts.escapeHtml_cons in H.
    exfalso. exact (EscapeFacts.escape_unit_truthy c _ H).
  - rewrite !EscapeFacts.escapeHtml_cons in H.
    destruct (EscapeFacts.escape_unit_cancel _ _ _ _ H) as [-> Hs].
    rewrite (IH b Hs). reflexivity.
Qed.

Lemma escapeHtml_injective_witness :
  escapeHtml "a&lt;b" = "a&amp;lt;b" /\ "a&lt;b" = "a&lt;b".
Proof.
  split; [reflexivity|].
  apply (escapeHtml_injective "a&lt;b" "a&lt;b"). reflexivity.
Defined.

(** X17.  The address that the YouTube parser requests has the oEmbed
    endpoint before its [?] and, read as a form-urlencoded query, exactly
    two pairs after it: [url], whose value is the UTF-8 form of the
    address that was given (the address itself when it is ASCII), and
    [format] with the value [json]. *)
Theorem oembed_address_carries_url (url : string) :
  exists query,
    YouTubeParser.oembed_address url
    = "https://www.youtube.com/oembed" ++ "?" ++ query /\
    URL.form_parse query = [("url", utf8_encode url); ("format", "json")] /\
    (all_chars is_ascii url = true -> utf8_encode url = url).
Proof.
  exists ("url=" ++ URI.encodeURIComponent url ++ "&format=json").
  split; [reflexivity|]. split; [|apply EscapeFacts.utf8_encode_ascii].
  exact (EscapeFacts.form_parse_oembed_query url).
Qed.

Lemma oembed_address_carries_url_witness :
  let url := "https://www.youtube.com/watch?v=dQw4w9WgXcQ&t=1s" in
  exists query,
    YouTubeParser.oembed_address url = "https://www.youtube.com/oembed?" ++ query /\
    URL.form_parse query = [("url", url); ("format", "json")].
Proof.
  intro url.
  destruct (oembed_address_carries_url url) as (query & Ha & Hq & Hascii).
  exists query. split; [exact Ha|].
  rewrite (Hascii eq_refl) in Hq. exact Hq.
Defined.

End Escaping.

(** *** The routes *)

Section RouteProperties.
Import JSString Express Routes RouteSpec.



(** X19.  The extract route answers 200 exactly when [url] is a non-empty
    string whose trimmed form passes [validator.isURL] and parses as a
    URL; an address that the validator lets through without a protocol is
    still refused, by the service.  The data of a 200 answer is a record
    whose [url] is the normalized form of the trimmed address. *)
Theorem extract_route_success `{URLImpl} `{Http} `{Markup} `{Server}
  (query : ExtractQuery) (log log' : Log) (response : Response) :
  Routes.extract query log = (Ok response, log') ->
  (status response = 200 <->
   exists url, given (e_url query) url /\ isURL (trim url) = true /\
               URLParser.isValidUrl (trim url) = true) /\
  (forall url, given (e_url query) url -> status response = 200 ->
     exists m, payload response = ExtractJson m now /\
       EmbedMetadata.url m = Some (URLParser.normalizeUrl (trim url))).
Proof.
  intro Hrun.
  destruct (RouteFacts.extract_cases query log)
    as [(r & Hr & Hs & Hno) | (url & m & extra & Hg & Hu & Hv & Hm & Hr)];
    rewrite Hr in Hrun; injection Hrun as <- <-.
  - split.
    + split.
      * intro C. rewrite Hs in C. discriminate C.
      * intros (url & Hc). exfalso. exact (Hno url Hc).
    + intros url _ C. rewrite Hs in C. discriminate C.
  - split.
    + split; [intros _; exists url; auto | reflexivity].
    + intros url' Hg' _. rewrite (RouteFacts.given_unique _ _ _ Hg' Hg).
      exists m. split; [reflexivity | exact Hm].
Qed.

Lemma extract_route_success_witness :
  let query := mkextract (Some (QString "  https://example.com/a?utm_source=x  ")) in
  exists response log',
    ReferenceServer.extract_run Reference.offline query = (Ok response, log') /\
    status response = 200 /\
    exists m, payload response = ExtractJson m "2025-01-01T00:00:00.000Z" /\
      EmbedMetadata.url m = Some "https://example.com/a".
Proof.
  intro query.
  assert (Hex : exists response log',
            @Routes.extract Reference.url_impl (Reference.http Reference.offline)
              Reference.markup ReferenceServer.server query []
            = (Ok response, log'))
    by (eexists; eexists; vm_compute; reflexivity).
  destruct Hex as (response & log' & Hrun).
  destruct (@extract_route_success Reference.url_impl
              (Reference.http Reference.offline) Reference.markup
              ReferenceServer.server query [] log' response Hrun) as [Hiff Hdata].
  assert (Ht : trim "  https://example.com/a?utm_source=x  "
               = "https://example.com/a?utm_source=x") by (vm_compute; reflexivity).
  assert (Hs : status response = 200).
  { apply Hiff. exists "  https://example.com/a?utm_source=x  ".
    split; [split; reflexivity|]. rewrite Ht.
    split; vm_compute; reflexivity. }
  exists response, log'. split; [exact Hrun|]. split; [exact Hs|].
  destruct (Hdata _ (conj eq_refl eq_refl) Hs) as (m & Hp & Hu).
  rewrite Ht in Hu.
  assert (Hn : @URLParser.normalizeUrl Reference.url_impl
                 "https://example.com/a?utm_source=x" = "https://example.com/a")
    by (vm_compute; reflexivity).
  rewrite Hn in Hu. exists m. split; [exact Hp | exact Hu].
Defined.

(** X20.  The oembed route answers 501 exactly when [url] is a non-empty
    string and [format] is the string [xml]: the format is checked before
    the address is validated, so an address that is no URL at all gets 501
    and not 400 when XML is asked for. *)
Theorem oembed_route_xml `{URLImpl} `{Http} `{Markup} `{Server}
  (query : OEmbedQuery) (log log' : Log) (response : Response) :
  Routes.oembed query log = (Ok response, log') ->
  (status response = 501 <->
   (exists url, given (o_url query) url) /\ o_format query = Some (QString "xml")).
Proof.
  intro Hrun.
  destruct (RouteFacts.oembed_cases query log)
    as [(r & Hr & Hs & Hwhy)
       | [(url & Hg & Hx & Hr) | (url & m & extra & Hg & Hne & Hrest)]].
  - rewrite Hr in Hrun. injection Hrun as <- <-. split.
    + intro C. rewrite Hs in C. discriminate C.
    + intros ((url & Hg) & Hx). exfalso. destruct Hwhy as [Hno | Hne];
        [exact (Hno url Hg) | exact (Hne Hx)].
  - rewrite Hr in Hrun. injection Hrun as <- <-. split.
    + intros _. split; [exists url; exact Hg | exact Hx].
    + reflexivity.
  - destruct Hrest as (_ & _ & _ & _ & _ & [(resp & _ & _ & Hr) | (_ & Hr)]);
      rewrite Hr in Hrun; injection Hrun as <- <-; split;
      try (intros (_ & Hx); contradiction).
    + intro C. discriminate C.
    + intro C. pose proof (RouteFacts.oembed_catch_status TypeError) as Hin.
      rewrite C in Hin. simpl in Hin.
      repeat destruct Hin as [Hin | Hin]; try discriminate Hin; contradiction.
Qed.

Lemma oembed_route_xml_witness :
  let query := mkoembed (Some (QString "not a url")) (Some (QString "xml")) None None in
  exists response,
    ReferenceServer.oembed_run Reference.offline query = (Ok response, []) /\
    ReferenceServer.accepts "not a url" = false /\
    status response = 501.
Proof.
  intro query.
  assert (Hex : exists response,
            ReferenceServer.oembed_run Reference.offline query = (Ok response, []))
    by (eexists; vm_compute; reflexivity).
  destruct Hex as (response & Hrun).
  pose proof (@oembed_route_xml Reference.url_impl
                (Reference.http Reference.offline) Reference.markup
                ReferenceServer.server query [] [] response Hrun) as Hiff.
  exists response. split; [exact Hrun|]. split; [vm_compute; reflexivity|].
  apply Hiff. split; [exists "not a url"; split; reflexivity | reflexivity].
Defined.

(** X21.  When the oembed route answers 200, a [maxwidth] or [maxheight]
    that was given is an integer from 1 to 2000, and it is the width or
    height of the response, whatever the dimensions of the record are. *)
Theorem oembed_route_honours_dimensions `{URLImpl} `{Http} `{Markup} `{Server}
  (query : OEmbedQuery) (log log' : Log) (response : Response) :
  Routes.oembed query log = (Ok response, log') ->
  status response = 200 ->
  exists oembedData,
    payload response = OEmbedJson oembedData /\
    (forall v, o_maxwidth query = Some v -> value_truthy v = true ->
       exists z, ParseInt.parseInt (toString v) = JSInt z /\ (1 <= z <= 2000)%Z /\
                 OEmbedResponse.width oembedData = Some (JSValue.Num (JSInt z))) /\
    (forall v, o_maxheight query = Some v -> value_truthy v = true ->
       exists z, ParseInt.parseInt (toString v) = JSInt z /\ (1 <= z <= 2000)%Z /\
                 OEmbedResponse.height oembedData = Some (JSValue.Num (JSInt z))).
Proof.
  intros Hrun Hs.
  destruct (RouteFacts.oembed_cases query log)
    as [(r & Hr & Hs' & _)
       | [(url & _ & _ & Hr)
         | (url & m & extra & _ & _ & _ & _ & Hw & Hh & _
            & [(resp & Hrw & Hrh & Hr) | (_ & Hr)])]];
    rewrite Hr in Hrun; injection Hrun as <- <-.
  - rewrite Hs' in Hs. discriminate Hs.
  - discriminate Hs.
  - exists resp. split; [reflexivity|].
    assert (Hdim : forall param v,
              dimension_ok (parse_dimension param) ->
              param = Some v -> value_truthy v = true ->
              exists z, ParseInt.parseInt (toString v) = JSInt z /\
                        (1 <= z <= 2000)%Z /\
                        parse_dimension param = Some (JSInt z)).
    { intros param v Hok -> Ht. unfold parse_dimension in *. rewrite Ht in *.
      destruct (ParseInt.parseInt (toString v)) as [z|]; [|contradiction].
      exists z. auto. }
    split.
    + intros v Hv Ht. destruct (Hdim _ v Hw Hv Ht) as (z & Hz & Hb & Hp).
      exists z. split; [exact Hz|]. split; [exact Hb | exact (Hrw _ Hp)].
    + intros v Hv Ht. destruct (Hdim _ v Hh Hv Ht) as (z & Hz & Hb & Hp).
      exists z. split; [exact Hz|]. split; [exact Hb | exact (Hrh _ Hp)].
  - exfalso. pose proof (RouteFacts.oembed_catch_status TypeError) as Hin.
    rewrite Hs in Hin. simpl in Hin.
    repeat destruct Hin as [Hin | Hin]; try discriminate Hin; contradiction.
Qed.

Lemma oembed_route_honours_dimensions_witness :
  let query :=
    mkoembed (Some (QString "https://example.com/")) None
      (Some (QString "640px")) (Some (QOther "360,480")) in
  exists response log' oembedData,
    ReferenceServer.oembed_run Reference.offline query = (Ok response, log') /\
    status response = 200 /\
    payload response = OEmbedJson oembedData /\
    OEmbedResponse.width oembedData = Some (JSValue.Num (JSInt 640)) /\
    OEmbedResponse.height oembedData = Some (JSValue.Num (JSInt 360)).
Proof.
  intro query.
  assert (Hex : exists response log',
            @Routes.oembed Reference.url_impl (Reference.http Reference.offline)
              Reference.markup ReferenceServer.server query []
            = (Ok response, log') /\
            status response = 200)
    by (eexists; eexists; split; vm_compute; reflexivity).
  destruct Hex as (response & log' & Hrun & Hs).
  destruct (@oembed_route_honours_dimensions Reference.url_impl
              (Reference.http Reference.offline) Reference.markup
              ReferenceServer.server query [] log' response Hrun Hs)
    as (oembedData & Hp & Hw & Hh).
  exists response, log', oembedData.
  split; [exact Hrun|]. split; [exact Hs|]. split; [exact Hp|].
  destruct (Hw _ eq_refl eq_refl) as (zw & Hzw & _ & Hrw).
  destruct (Hh _ eq_refl eq_refl) as (zh & Hzh & _ & Hrh).
  vm_compute in Hzw, Hzh. injection Hzw as <-. injection Hzh as <-.
  split; [exact Hrw | exact Hrh].
Defined.

End RouteProperties.
